(** * Excel batch encrypt / decrypt tool: shallow embedding and properties

    The development follows [Excel批量解密工具与密码管理.py].  It has two
    halves, as that file has two classes:

    - [ProcessingThread] (the batch engine): [run], [clean_temp_files],
      [encrypt_file], [decrypt_file], [finished_processing];
    - [ExcelProtectorGUI] (the caller): [load_password_book],
      [match_passwords_from_book], [preview_new_filenames],
      [get_selected_files], [validate_selection], [start_processing],
      [scan_files], [on_same_folder_changed],
      [on_unified_password_changed], [update_file_status],
      [processing_finished].

    Python values are modelled as the interpreter has them: a [str] is a
    sequence of Unicode code points, a [dict] with string keys is a finite
    map, exceptions are an explicit outcome.  Everything outside the
    repository (the operating system, Excel behind COM, the table of
    non-ASCII lower-case letters, [os.path]) is a parameter gathered in the
    class [Platform]; every action on it is written to a trace, so that
    statements about what the engine does or never does are statements about
    traces.

    Conventions of the embedding:
    - any call to the outside may raise; what is raised is an [Exception]
      (the program catches nothing else apart from its bare [except:]
      clauses, which are modelled as catching it too);
    - emitting a Qt signal from the worker thread is an output that cannot
      fail (delivery to the interface thread is queued);
    - the cancellation flag is written by another thread: a run is given
      the values it reads, one per iteration of its loop;
    - every cell of the file table holds an item ([scan_files] creates all
      six for every row), so the [if item else] fallbacks of
      [get_selected_files] never apply. *)

From Stdlib Require Import NArith ZArith Ascii String DecimalString Lia.
From stdpp Require Import gmap list.

(** ** Python strings *)

(** A Python [str]: the list of its code points. *)
Abbreviation str := (list N).

Module PyStr.

Local Open Scope N_scope.

(** Reading a UTF-8 literal of this file as code points (used for the
    string constants of the source only, all of them well formed). *)
Fixpoint decode_utf8 (bs : list N) (need : nat) (acc : N) : str :=
  match bs with
  | [] => []
  | b :: rest =>
      match need with
      | O =>
          if b <? 128 then b :: decode_utf8 rest 0 0
          else if b <? 224 then decode_utf8 rest 1 (b - 192)
          else if b <? 240 then decode_utf8 rest 2 (b - 224)
          else decode_utf8 rest 3 (b - 240)
      | S O => (acc * 64 + (b - 128)) :: decode_utf8 rest 0 0
      | S n => decode_utf8 rest n (acc * 64 + (b - 128))
      end
  end.

Definition u (s : string) : str :=
  decode_utf8 (map N_of_ascii (list_ascii_of_string s)) 0 0.

(** [str.isspace] on one code point (CPython's [Py_UNICODE_ISSPACE]). *)
Definition isspace (c : N) : bool :=
  ((9 <=? c) && (c <=? 13)) || ((28 <=? c) && (c <=? 32))
  || (c =? 133) || (c =? 160) || (c =? 5760)
  || ((8192 <=? c) && (c <=? 8202))
  || (c =? 8232) || (c =? 8233) || (c =? 8239) || (c =? 8287)
  || (c =? 12288).

Fixpoint lstrip (s : str) : str :=
  match s with
  | [] => []
  | c :: rest => if isspace c then lstrip rest else s
  end.

Definition rstrip (s : str) : str := reverse (lstrip (reverse s)).

(** [s.strip()] *)
Definition strip (s : str) : str := rstrip (lstrip s).

(** [if s:] on a string *)
Definition truthy (s : str) : bool :=
  match s with [] => false | _ :: _ => true end.

(** [s.startswith(prefix)] *)
Fixpoint startswith (prefix s : str) : bool :=
  match prefix, s with
  | [], _ => true
  | _ :: _, [] => false
  | a :: prefix', b :: s' => (a =? b) && startswith prefix' s'
  end.

(** [needle in hay] *)
Fixpoint contains (needle hay : str) : bool :=
  startswith needle hay
  || match hay with
     | [] => false
     | _ :: hay' => contains needle hay'
     end.

Definition is_ascii (c : N) : bool := c <? 128.

Definition ascii_lower (c : N) : N :=
  if (65 <=? c) && (c <=? 90) then c + 32 else c.

(** [s[:n]] *)
Definition slice_to (n : nat) (s : str) : str := take n s.

(** [sep.join(l)] *)
Fixpoint join (sep : str) (l : list str) : str :=
  match l with
  | [] => []
  | [x] => x
  | x :: rest => x ++ sep ++ join sep rest
  end.

(** [s.rfind(c)] for a one-character [c]: the index of its last
    occurrence, [-1] when there is none. *)
Fixpoint rfind_from (c : N) (p : str) (i last : Z) : Z :=
  match p with
  | [] => last
  | x :: rest => rfind_from c rest (i + 1)%Z (if x =? c then i else last)
  end.

Definition rfind (c : N) (p : str) : Z := rfind_from c p 0%Z (-1)%Z.

(** [p[lo:hi]] for [0 <= lo] *)
Definition slice (lo hi : Z) (p : str) : str :=
  take (Z.to_nat (hi - lo)) (drop (Z.to_nat lo) p).

Definition backslash : N := 92.
Definition slash : N := 47.
Definition dot : N := 46.

Definition not_dot (c : N) : bool := negb (c =? dot).

(** The index of the last separator, [-1] when there is none. *)
Definition last_sep (p : str) : Z := Z.max (rfind backslash p) (rfind slash p).

(** [os.path.splitext] of the Windows flavour the program runs under
    ([ntpath.splitext], that is [genericpath._splitext] with separators
    backslash and slash): the extension starts at the last dot, provided
    that dot comes after the last separator and is preceded, within the
    last component, by a character that is not a dot. *)
Definition splitext (p : str) : str * str :=
  let sepIndex := last_sep p in
  let dotIndex := rfind dot p in
  if (sepIndex <? dotIndex)%Z
     && existsb not_dot (slice (sepIndex + 1) dotIndex p)
  then (take (Z.to_nat dotIndex) p, drop (Z.to_nat dotIndex) p)
  else (p, []).

End PyStr.

Import PyStr.

Arguments u : simpl never.

(** ** Exceptions and outcomes *)

(** The exceptions the program tells apart: [UnicodeDecodeError] has a
    handler of its own in [load_password_book]; every other exception is
    caught as [Exception] and only its text [str(e)] is used. *)
Inductive exn : Type :=
  | Exception (msg : str)
  | UnicodeDecodeError (msg : str).

(** [str(e)] *)
Definition exn_msg (e : exn) : str :=
  match e with
  | Exception msg => msg
  | UnicodeDecodeError msg => msg
  end.

Inductive outcome (A : Type) : Type :=
  | Return (a : A)
  | Raise (e : exn).
Arguments Return {A} a.
Arguments Raise {A} e.

Definition raised {A} (o : outcome A) : option exn :=
  match o with
  | Return _ => None
  | Raise e => Some e
  end.

(** ** The batch engine's data *)

(** One entry of [file_list], the dict built by [get_selected_files]. *)
Record file_info : Type := {
  filename : str;
  new_filename : str;
  password : str;
  notes : str
}.

(** One entry of [results['failed_files']]. *)
Record failed_file : Type := {
  failed_filename : str;
  failed_error : str
}.

(** The [results] dict of [run]. *)
Record results : Type := {
  success_count : nat;
  total_count : nat;
  failed_files : list failed_file
}.

(** What a per-file operation returns: [(ok, status, notes)]. *)
Definition file_result : Type := bool * str * str.

(** ** Actions on the outside world *)

Inductive pyval : Type :=
  | PyBool (b : bool)
  | PyInt (z : Z).

(** The calls that leave the program.  A workbook is only ever held in the
    local [wb], at most one at a time, so the workbook calls do not name
    it. *)
Inductive call : Type :=
  | CoInitialize
  | CoUninitialize
  | Dispatch (prog_id : string)
  | SetAppProperty (name : string) (value : pyval)
  | ExcelQuit
  | OsListdir (path : str)
  | OsRemove (path : str)
  | OsStat (path : str)
  | OsMakedirs (path : str)
  | WorkbooksOpen (path : str) (read_only : bool) (password : option str)
  | SetPassword (value : str)
  | SetWritePassword (value : str)
  | SaveAs (path : str)
  | WbClose
  | AskQuestion (title text : str).

Definition reply (c : call) : Type :=
  match c with
  | OsListdir _ => list str
  | AskQuestion _ _ => bool
  | _ => unit
  end.

(** The Qt signals of [ProcessingThread]. *)
Inductive signal : Type :=
  | progress_signal (done total : nat)
  | log_signal (text level : str)
  | file_status_signal (name status : str) (ok : bool) (note : str)
  | finished_signal (r : results).

(** What the interface thread shows on its own. *)
Inductive dialog : Type :=
  | Warning (title text : str)
  | Print (text : str).

(** A trace entry: a call together with the exception it raised, if any; a
    signal emitted; a dialog shown. *)
Inductive event : Type :=
  | Ext (c : call) (err : option exn)
  | Emit (s : signal)
  | Show (d : dialog).

(** ** The platform *)

(** Everything the program relies on and does not define.  [env] answers a
    call in a state of the world and gives the next state; any call may
    raise.  [unicode_lower] is [str.lower] on strings that are not pure
    ASCII; [format_exc] is [traceback.format_exc]. *)
Class Platform : Type := {
  World : Type;
  env : forall c : call, World -> World * outcome (reply c);
  path_join : str -> str -> str;
  path_dirname : str -> str;
  path_abspath : str -> str;
  unicode_lower : str -> str;
  format_exc : exn -> str
}.

(** [s.lower()] *)
Definition lower `{Platform} (s : str) : str :=
  if forallb is_ascii s then map ascii_lower s else unicode_lower s.

(** ** The monad of the program: state of the world, trace, exceptions *)

Record exec `{Platform} (A : Type) : Type := {
  final : World;
  trace : list event;
  result : outcome A
}.
Arguments final {_ A} _.
Arguments trace {_ A} _.
Arguments result {_ A} _.
Arguments Build_exec {_ A} _ _ _.

Definition M `{Platform} (A : Type) : Type := World -> exec A.

Section Monad.
Context `{Platform}.

Definition ret {A} (a : A) : M A :=
  fun w => Build_exec w [] (Return a).

Definition raise {A} (e : exn) : M A :=
  fun w => Build_exec w [] (Raise e).

Definition bind {A B} (m : M A) (k : A -> M B) : M B :=
  fun w =>
    let r := m w in
    match result r with
    | Return a =>
        let r' := k a (final r) in
        Build_exec (final r') (trace r ++ trace r') (result r')
    | Raise e => Build_exec (final r) (trace r) (Raise e)
    end.

(** A call to the outside, written to the trace with its failure. *)
Definition do_call (c : call) : M (reply c) :=
  fun w =>
    let '(w', o) := env c w in
    Build_exec w' [Ext c (raised o)] o.

Definition emit (s : signal) : M unit :=
  fun w => Build_exec w [Emit s] (Return tt).

Definition show (d : dialog) : M unit :=
  fun w => Build_exec w [Show d] (Return tt).

(** The body of a [try]: run [m] and hand its outcome to the handlers. *)
Definition attempt {A} (m : M A) : M (outcome A) :=
  fun w =>
    let r := m w in
    Build_exec (final r) (trace r) (Return (result r)).

End Monad.

Declare Scope py_scope.
Delimit Scope py_scope with py.
Notation "x <- m ;; k" := (bind m (fun x => k))
  (at level 100, m at next level, right associativity) : py_scope.
Notation "m ;; k" := (bind m (fun _ => k))
  (at level 100, right associativity) : py_scope.
Local Open Scope py_scope.

Section Control.
Context `{Platform}.

(** [try: m  except Exception as e: handler e] *)
Definition try_except {A} (m : M A) (handler : exn -> M A) : M A :=
  o <- attempt m ;;
  match o with
  | Return a => ret a
  | Raise e => handler e
  end.

(** [try: m  except: pass] *)
Definition try_pass (m : M unit) : M unit :=
  try_except m (fun _ => ret tt).

(** [try: m  finally: cleanup] *)
Definition try_finally {A} (m : M A) (cleanup : M unit) : M A :=
  o <- attempt m ;;
  cleanup ;;
  match o with
  | Return a => ret a
  | Raise e => raise e
  end.

(** [os.path.exists]: [os.stat] succeeded. *)
Definition path_exists (path : str) : M bool :=
  o <- attempt (do_call (OsStat path)) ;;
  ret (match o with Return _ => true | Raise _ => false end).

End Control.

(** ** class ProcessingThread *)

(** The fields set by [__init__].  The flag [self.is_cancelled] is written
    by the interface thread while [run] executes; [run] reads it once per
    iteration, so a run is given the values it reads: [is_cancelled i] is
    the flag as read at the top of iteration [i]. *)
Record ProcessingThread : Type := {
  input_path : str;
  output_path : str;
  file_list : list file_info;
  is_encrypt : bool
}.

Section ProcessingThread.
Context `{Platform}.

(** [ProcessingThread(input_path, output_path, file_list, is_encrypt)] *)
Definition new_thread (input output : str) (files : list file_info)
    (encrypt : bool) : ProcessingThread :=
  {| input_path := path_abspath input;
     output_path := path_abspath output;
     file_list := files;
     is_encrypt := encrypt |}.

(** [for x in l: body x] *)
Fixpoint for_each {A} (l : list A) (body : A -> M unit) : M unit :=
  match l with
  | [] => ret tt
  | x :: rest => body x ;; for_each rest body
  end.

Definition clean_temp_files (t : ProcessingThread) : M unit :=
  names <- do_call (OsListdir (input_path t)) ;;
  for_each names (fun f =>
    if startswith (u "~$") f
    then try_pass (do_call (OsRemove (path_join (input_path t) f)))
    else ret tt).

(** ["password" in error_msg.lower() or "密码" in error_msg] *)
Definition mentions_password (error_msg : str) : bool :=
  contains (u "password") (lower error_msg)
  || contains (u "密码") error_msg.

(** The [except Exception as e] clause of the inner [try] of
    [encrypt_file]. *)
Definition encrypt_error (e : exn) : file_result :=
  let error_msg := exn_msg e in
  if mentions_password error_msg
  then (false, u "密码设置错误", u "密码设置失败")
  else (false, u "加密失败: " ++ slice_to 50 error_msg, u "加密异常").

(** [output_dir = os.path.dirname(output_filepath)] and the [makedirs]
    that follows. *)
Definition ensure_output_dir (output_filepath : str) : M unit :=
  let output_dir := path_dirname output_filepath in
  present <- path_exists output_dir ;;
  if present then ret tt else do_call (OsMakedirs output_dir).

Definition encrypt_file (filename input_filepath output_filepath
    password notes : str) : M file_result :=
  try_except
    (if negb (truthy password)
     then ret (false, u "未设置密码", u "密码为空")
     else
       found <- path_exists input_filepath ;;
       if negb found
       then ret (false, u "输入文件不存在", u "文件路径错误")
       else
         ensure_output_dir output_filepath ;;
         (* wb = None; try: *)
         opened <- attempt (do_call (WorkbooksOpen input_filepath false None)) ;;
         match opened with
         | Raise e =>
             (* wb is still None: the finally clause closes nothing *)
             ret (encrypt_error e)
         | Return _ =>
             try_finally
               (try_except
                  (do_call (SetPassword password) ;;
                   do_call (SetWritePassword password) ;;
                   do_call (SaveAs output_filepath) ;;
                   saved <- path_exists output_filepath ;;
                   if saved
                   then ret (true, u "加密成功", notes)
                   else ret (false, u "保存失败", u "文件未创建"))
                  (fun e => ret (encrypt_error e)))
               (try_pass (do_call WbClose))
         end)
    (fun e =>
       ret (false, u "加密失败: " ++ slice_to 50 (exn_msg e), u "系统错误")).

(** The three ways [decrypt_file] reports that it has no open workbook. *)
Definition source_missing : file_result :=
  (false, u "输入文件不存在", u "文件路径错误").

Definition wrong_password : file_result :=
  (false, u "密码错误或密码不匹配", u "密码不正确").

Definition open_failure (error_msg : str) : file_result :=
  (false, u "无法打开文件: " ++ slice_to 50 error_msg, u "打开失败").

(** The [except Exception as open_error] clause of [decrypt_file]. *)
Definition open_error (e : exn) : file_result :=
  let error_msg := exn_msg e in
  if mentions_password error_msg
  then wrong_password
  else open_failure error_msg.

Definition decrypt_file (filename input_filepath output_filepath
    password notes : str) : M file_result :=
  try_except
    (found <- path_exists input_filepath ;;
     if negb found
     then ret source_missing
     else
       ensure_output_dir output_filepath ;;
       (* wb = None; try: try: *)
       opened <- attempt
         (if truthy password
          then do_call (WorkbooksOpen input_filepath true (Some password))
          else do_call (WorkbooksOpen input_filepath false None)) ;;
       match opened with
       | Raise e =>
           (* wb is still None: the finally clause closes nothing *)
           ret (open_error e)
       | Return _ =>
           try_finally
             (try_pass
                (do_call (SetPassword []) ;;
                 do_call (SetWritePassword [])) ;;
              try_except
                (stale <- path_exists output_filepath ;;
                 (if stale
                  then try_pass (do_call (OsRemove output_filepath))
                  else ret tt) ;;
                 do_call (SaveAs output_filepath) ;;
                 saved <- path_exists output_filepath ;;
                 if saved
                 then ret (true, u "解密成功", notes)
                 else ret (false, u "保存失败", u "文件未创建"))
                (fun e =>
                   ret (false, u "保存失败: " ++ exn_msg e, u "保存错误")))
             (try_pass (do_call WbClose))
       end)
    (fun e =>
       ret (false, u "解密失败: " ++ slice_to 50 (exn_msg e), u "系统错误")).

(** The per-file call of the loop of [run], with the two paths it
    computes. *)
Definition process_file (t : ProcessingThread) (fi : file_info)
    : M file_result :=
  let input_filepath := path_join (input_path t) (filename fi) in
  let output_filepath := path_join (output_path t) (new_filename fi) in
  if is_encrypt t
  then encrypt_file (filename fi) input_filepath output_filepath
         (password fi) (notes fi)
  else decrypt_file (filename fi) input_filepath output_filepath
         (password fi) (notes fi).

Definition finished_processing (t : ProcessingThread) (r : results)
    : M unit :=
  emit (progress_signal (length (file_list t)) (length (file_list t))) ;;
  emit (finished_signal r).

(** The [for i, file_info in enumerate(self.file_list)] loop of [run],
    from iteration [i] on, with [files] the entries still to visit; it
    returns [success_count] and [results['failed_files']].  [op] is the
    per-file call, [process_file t] in [run]; the loop is written over any
    [op] because its [except Exception] clause is about an [op] that
    raises. *)
Fixpoint process_files (op : file_info -> M file_result)
    (is_cancelled : nat -> bool) (total i : nat) (files : list file_info)
    (success_count : nat) (failed : list failed_file)
    : M (nat * list failed_file) :=
  match files with
  | [] => ret (success_count, failed)
  | fi :: rest =>
      if is_cancelled i
      then
        emit (log_signal (u "处理已取消") (u "warning")) ;;
        ret (success_count, failed)
      else
        emit (progress_signal (i + 1) total) ;;
        o <- attempt (op fi) ;;
        match o with
        | Return (true, status, note) =>
            emit (file_status_signal (filename fi) status true note) ;;
            emit (log_signal
                    (filename fi ++ u ": " ++ status ++ u " → "
                     ++ new_filename fi) (u "success")) ;;
            process_files op is_cancelled total (S i) rest
              (S success_count) failed
        | Return (false, status, note) =>
            emit (file_status_signal (filename fi) status false note) ;;
            emit (log_signal (filename fi ++ u ": " ++ status) (u "error")) ;;
            process_files op is_cancelled total (S i) rest success_count
              (failed ++ [{| failed_filename := filename fi;
                             failed_error := status |}])
        | Raise e =>
            let error_msg := exn_msg e in
            emit (file_status_signal (filename fi)
                    (u "错误: " ++ slice_to 50 error_msg) false
                    (u "处理异常")) ;;
            emit (log_signal
                    (filename fi ++ u ": 处理失败 - " ++ error_msg)
                    (u "error")) ;;
            process_files op is_cancelled total (S i) rest success_count
              (failed ++ [{| failed_filename := filename fi;
                             failed_error := error_msg |}])
        end
  end.

(** The silent-mode settings of the Excel application. *)
Definition excel_settings : list (string * pyval) :=
  [ ("Visible"%string, PyBool false);
    ("DisplayAlerts"%string, PyBool false);
    ("AskToUpdateLinks"%string, PyBool false);
    ("AlertBeforeOverwriting"%string, PyBool false);
    ("AutomationSecurity"%string, PyInt 1);
    ("EnableEvents"%string, PyBool false);
    ("Interactive"%string, PyBool false);
    ("ScreenUpdating"%string, PyBool false) ].

(** The statements of [run] before the loop. *)
Definition start_excel (t : ProcessingThread) : M unit :=
  do_call CoInitialize ;;
  do_call (Dispatch "Excel.Application") ;;
  for_each excel_settings
    (fun kv => do_call (SetAppProperty (fst kv) (snd kv))) ;;
  clean_temp_files t ;;
  emit (progress_signal 0 (length (file_list t))).

Definition run (t : ProcessingThread) (is_cancelled : nat -> bool)
    : M unit :=
  let total := length (file_list t) in
  try_finally
    (try_except
       (start_excel t ;;
        counted <- process_files (process_file t) is_cancelled total 0
                     (file_list t) 0 [] ;;
        try_pass (do_call ExcelQuit) ;;
        finished_processing t
          {| success_count := fst counted;
             total_count := total;
             failed_files := snd counted |})
       (fun e =>
          emit (log_signal (u "线程错误: " ++ exn_msg e) (u "error")) ;;
          emit (log_signal (format_exc e) (u "error"))))
    (try_pass (do_call CoUninitialize)).

End ProcessingThread.

(** ** class ExcelProtectorGUI *)

(** A row of [files_table]: the check box of column 0 and the texts of
    columns 1 to 5. *)
Record table_row : Type := {
  checked : bool;
  col_filename : str;
  col_status : str;
  col_password : str;
  col_notes : str;
  col_new_filename : str
}.

(** The widgets and fields the modelled methods read or write. *)
Record ExcelProtectorGUI : Type := {
  is_processing : bool;
  input_folder_edit : str;
  output_folder_edit : str;
  suffix_edit : str;
  encrypt_radio : bool;
  auto_match_check : bool;
  password_book_edit : str;
  files_table : list table_row;
  password_dict : gmap str str
}.

Definition set_files_table (g : ExcelProtectorGUI) (rows : list table_row)
    : ExcelProtectorGUI :=
  {| is_processing := is_processing g;
     input_folder_edit := input_folder_edit g;
     output_folder_edit := output_folder_edit g;
     suffix_edit := suffix_edit g;
     encrypt_radio := encrypt_radio g;
     auto_match_check := auto_match_check g;
     password_book_edit := password_book_edit g;
     files_table := rows;
     password_dict := password_dict g |}.

Definition set_password_dict (g : ExcelProtectorGUI) (d : gmap str str)
    : ExcelProtectorGUI :=
  {| is_processing := is_processing g;
     input_folder_edit := input_folder_edit g;
     output_folder_edit := output_folder_edit g;
     suffix_edit := suffix_edit g;
     encrypt_radio := encrypt_radio g;
     auto_match_check := auto_match_check g;
     password_book_edit := password_book_edit g;
     files_table := files_table g;
     password_dict := d |}.

Definition newline : str := [10%N].
Definition tab : str := [9%N].
Definition comma : str := [44%N].

(** [str(n)] for a non-negative integer *)
Definition str_of_nat (n : nat) : str :=
  map N_of_ascii (list_ascii_of_string (NilZero.string_of_uint (Nat.to_uint n))).

(** *** Renaming *)

(** The body of the loop of [preview_new_filenames] for one file name, with
    [suffix] the local variable of that name (the text of the suffix box,
    stripped); the spec's [rename]. *)
Definition rename (filename suffix : str) : str :=
  let '(name, ext) := splitext filename in
  if truthy suffix then name ++ suffix ++ ext else filename.

Definition preview_new_filenames (g : ExcelProtectorGUI) : ExcelProtectorGUI :=
  let suffix := strip (suffix_edit g) in
  set_files_table g
    (map (fun row =>
            {| checked := checked row;
               col_filename := col_filename row;
               col_status := col_status row;
               col_password := col_password row;
               col_notes := col_notes row;
               col_new_filename := rename (col_filename row) suffix |})
         (files_table g)).

(** *** The password book *)

(** The text layer's view of the chosen file.  [read_first_line enc] is
    what [open(path, 'r', encoding=enc, newline='')] followed by
    [f.readline()] gives.  [csv_rows enc delimiter] is what iterating
    [csv.reader(f, delimiter=delimiter)] gives after [f.seek(0)]: the rows
    it yields, in order, and then the end of the file ([None]) or the
    exception that interrupts the iteration.  The file is decoded chunk by
    chunk as it is read, so rows can be yielded before a later chunk fails
    to decode. *)
Record csv_reading : Type := {
  rows : list (list str);
  interrupted : option exn
}.

Record book_file : Type := {
  read_first_line : string -> outcome str;
  csv_rows : string -> str -> csv_reading
}.

Definition encodings : list string :=
  [ "utf-8-sig"; "utf-8"; "gbk"; "gb2312"; "latin1"; "cp936" ]%string.

(** What the GUI's [log_message] appends to the log pane. *)
Record log_entry : Type := {
  log_text : str;
  log_type : str
}.

(** The body of [for row in reader], on [self.password_dict] and
    [row_count]. *)
Definition add_row (acc : gmap str str * nat) (row : list str)
    : gmap str str * nat :=
  match row with
  | [] => acc
  | field0 :: fields =>
      if startswith (u "#") (strip field0) then acc
      else
        match fields with
        | [] => acc
        | field1 :: _ =>
            let filename := strip field0 in
            let password := strip field1 in
            if truthy filename
            then (<[filename := password]> (fst acc), S (snd acc))
            else acc
        end
  end.

(** ['\t' if '\t' in first_line else ','] *)
Definition detect_delimiter (first_line : str) : str :=
  if contains tab first_line then tab else comma.

(** The outcome of the [for encoding in encodings] loop: the dictionary and
    [row_count] as it leaves them, what it logged, and whether it left by
    [break] ([false]: the [else] clause raises). *)
Record book_loading : Type := {
  loaded_dict : gmap str str;
  loaded_count : nat;
  loaded_log : list log_entry;
  loaded_ok : bool
}.

Definition read_failed_entry (encoding : string) (e : exn) : list log_entry :=
  match e with
  | UnicodeDecodeError _ => []
  | Exception msg =>
      [ {| log_text := u "编码 " ++ u encoding ++ u " 读取失败: " ++ msg;
           log_type := u "warning" |} ]
  end.

Fixpoint try_encodings (book : book_file) (encs : list string)
    (acc : gmap str str * nat) (log : list log_entry) : book_loading :=
  match encs with
  | [] =>
      {| loaded_dict := fst acc; loaded_count := snd acc;
         loaded_log := log; loaded_ok := false |}
  | encoding :: rest =>
      match read_first_line book encoding with
      | Raise e =>
          try_encodings book rest acc (log ++ read_failed_entry encoding e)
      | Return first_line =>
          let reading := csv_rows book encoding (detect_delimiter first_line) in
          let acc' := fold_left add_row (rows reading) acc in
          match interrupted reading with
          | Some e =>
              try_encodings book rest acc'
                (log ++ read_failed_entry encoding e)
          | None =>
              {| loaded_dict := fst acc'; loaded_count := snd acc';
                 loaded_log :=
                   log ++
                   [ {| log_text :=
                          u "使用编码 " ++ u encoding ++ u " 读取成功，共 "
                          ++ str_of_nat (snd acc') ++ u " 条记录";
                        log_type := u "success" |} ];
                 loaded_ok := true |}
          end
      end
  end.

(** [match_passwords_from_book]: the table after the matching, and
    [match_count]. *)
Definition match_row (d : gmap str str) (row : table_row) : table_row * nat :=
  match d !! col_filename row with
  | Some password =>
      ({| checked := checked row;
          col_filename := col_filename row;
          col_status := col_status row;
          col_password := password;
          col_notes := u "来自密码本";
          col_new_filename := col_new_filename row |}, 1)
  | None => (row, 0)
  end.

Definition match_passwords_from_book (g : ExcelProtectorGUI)
    : ExcelProtectorGUI * nat :=
  let matched := map (match_row (password_dict g)) (files_table g) in
  (set_files_table g (map fst matched), list_sum (map snd matched)).

(** [load_password_book].  [path_found] is the answer of [os.path.exists]
    for the chosen path and [book] the file there.  It returns the
    interface after the call, what was logged, and the text of the warning
    or error box shown, if any. *)
Definition load_password_book (g : ExcelProtectorGUI) (path_found : bool)
    (book : book_file) : ExcelProtectorGUI * list log_entry * option str :=
  if negb (truthy (password_book_edit g)) || negb path_found
  then (g, [], Some (u "请先选择有效的密码本文件！"))
  else
    let loading := try_encodings book encodings (∅, 0) [] in
    let g' := set_password_dict g (loaded_dict loading) in
    if loaded_ok loading
    then
      if auto_match_check g'
      then
        let '(g'', match_count) := match_passwords_from_book g' in
        (g'', loaded_log loading ++
              [ {| log_text :=
                     u "自动匹配完成，成功匹配 " ++ str_of_nat match_count
                     ++ u " 个文件";
                   log_type := u "success" |} ], None)
      else (g', loaded_log loading, None)
    else
      let error_msg := u "无法解码CSV文件，请检查文件编码或格式" in
      (g', loaded_log loading ++
           [ {| log_text := u "加载密码本失败: " ++ error_msg;
                log_type := u "error" |} ],
       Some (u "加载密码本失败:" ++ newline ++ error_msg ++ newline ++ newline
             ++ u "请确保CSV文件格式正确：" ++ newline
             ++ u "1. 使用UTF-8或GBK编码" ++ newline
             ++ u "2. 第一列是文件名，第二列是密码" ++ newline
             ++ u "3. 使用逗号或制表符分隔")).

(** The spec's [lookup]: [self.password_dict[filename]] guarded by
    [filename in self.password_dict]. *)
Definition lookup_password (g : ExcelProtectorGUI) (filename : str)
    : option str :=
  password_dict g !! filename.

(** *** Selection, validation and start *)

Definition get_selected_files (g : ExcelProtectorGUI) : list file_info :=
  map (fun row =>
         {| filename := col_filename row;
            new_filename := col_new_filename row;
            password := col_password row;
            notes := col_notes row |})
      (filter (fun row => checked row = true) (files_table g)).

Section Start.
Context `{Platform}.

(** The text listing the files without a password: the first five names,
    then the count when there are more. *)
Definition empty_password_text (empty_password_files : list str) : str :=
  let file_list := join newline (take 5 empty_password_files) in
  let file_list :=
    if 5 <? length empty_password_files
    then file_list ++ newline ++ u "...等 "
         ++ str_of_nat (length empty_password_files) ++ u " 个文件"
    else file_list in
  u "以下文件没有设置密码：" ++ newline ++ file_list.

Definition validate_selection (g : ExcelProtectorGUI) : M (bool * str) :=
  let selected_files := get_selected_files g in
  match selected_files with
  | [] => ret (false, u "请至少选择一个文件！")
  | _ :: _ =>
      let output_path := output_folder_edit g in
      if negb (truthy output_path)
      then ret (false, u "请设置输出文件夹！")
      else
        made <- attempt (do_call (OsMakedirs output_path)) ;;
        match made with
        | Raise e => ret (false, u "无法创建输出文件夹: " ++ exn_msg e)
        | Return _ =>
            let empty_password_files :=
              if encrypt_radio g
              then map filename
                     (filter (fun fi => truthy (password fi) = false)
                        selected_files)
              else [] in
            match empty_password_files with
            | _ :: _ => ret (false, empty_password_text empty_password_files)
            | [] => ret (true, [])
            end
        end
  end.

Definition confirm_text (g : ExcelProtectorGUI)
    (selected_files : list file_info) : str :=
  let action := if encrypt_radio g then u "加密" else u "解密" in
  let suffix := strip (suffix_edit g) in
  u "确定要开始批量" ++ action ++ u "吗？" ++ newline ++ newline
  ++ u "处理文件数: " ++ str_of_nat (length selected_files) ++ newline
  ++ u "输入文件夹: " ++ input_folder_edit g ++ newline
  ++ u "输出文件夹: " ++ output_folder_edit g ++ newline
  ++ (if truthy suffix then u "文件名后缀: " ++ suffix ++ newline else [])
  ++ newline
  ++ u "重要：原文件不会被修改，处理后的文件将保存到输出文件夹！".

(** [start_processing]: the thread it creates and starts, or [None] when
    it returns before that.  (Enabling and disabling the widgets is left
    out.) *)
Definition start_processing (g : ExcelProtectorGUI)
    : M (option ProcessingThread) :=
  if is_processing g
  then
    show (Warning (u "警告") (u "处理正在进行中，请等待完成或取消！")) ;;
    ret None
  else
    let input_path := input_folder_edit g in
    show (Print input_path) ;;
    found <- path_exists input_path ;;
    if negb found
    then
      show (Warning (u "警告") (u "请选择有效的输入文件夹！")) ;;
      ret None
    else
      checked <- validate_selection g ;;
      if negb (fst checked)
      then
        show (Warning (u "警告") (snd checked)) ;;
        ret None
      else
        let selected_files := get_selected_files g in
        let output_path := output_folder_edit g in
        reply <- do_call (AskQuestion (u "确认开始")
                            (confirm_text g selected_files)) ;;
        if negb reply
        then ret None
        else
          ret (Some (new_thread input_path output_path selected_files
                       (encrypt_radio g))).

(** A submission: [start_processing], then [run] in the thread it
    started, if any. *)
Definition submit (g : ExcelProtectorGUI) (is_cancelled : nat -> bool)
    : M unit :=
  started <- start_processing g ;;
  match started with
  | Some t => run t is_cancelled
  | None => ret tt
  end.

End Start.

(** ** A small concrete platform

    A file system given by the files (each with the password that protects
    it, empty when it has none) and the folders that exist, and an Excel
    that opens a protected workbook only with its password.  It serves to
    run the program on concrete inputs. *)
Module Sim.

Record world : Type := {
  files : list (str * str);
  folders : list str;
  open_workbook : option str
}.

Definition sep : str := [backslash].

Definition join_path (a b : str) : str := a ++ sep ++ b.

Definition dirname (p : str) : str := take (Z.to_nat (rfind backslash p)) p.

Fixpoint find_file (p : str) (fs : list (str * str)) : option str :=
  match fs with
  | [] => None
  | (q, protection) :: rest =>
      if bool_decide (q = p) then Some protection else find_file p rest
  end.

Definition remove_file (p : str) (fs : list (str * str)) : list (str * str) :=
  filter (fun entry => fst entry ≠ p) fs.

Definition listing (d : str) (fs : list (str * str)) : list str :=
  omap (fun entry : str * str =>
          if startswith (d ++ sep) (fst entry)
          then Some (drop (length (d ++ sep)) (fst entry))
          else None) fs.

Definition answer (c : call) (w : world) : world * outcome (reply c) :=
  match c return world * outcome (reply c) with
  | OsListdir d =>
      if bool_decide (d ∈ folders w)
      then (w, Return (listing d (files w)))
      else (w, Raise (Exception
                 (u "[WinError 3] The system cannot find the path specified")))
  | OsRemove p =>
      match find_file p (files w) with
      | Some _ =>
          ({| files := remove_file p (files w); folders := folders w;
              open_workbook := open_workbook w |}, Return tt)
      | None =>
          (w, Raise (Exception
                 (u "[WinError 2] The system cannot find the file specified")))
      end
  | OsStat p =>
      match find_file p (files w) with
      | Some _ => (w, Return tt)
      | None =>
          if bool_decide (p ∈ folders w)
          then (w, Return tt)
          else (w, Raise (Exception
                     (u "[WinError 2] The system cannot find the file specified")))
      end
  | OsMakedirs p =>
      ({| files := files w; folders := p :: folders w;
          open_workbook := open_workbook w |}, Return tt)
  | WorkbooksOpen p _ given =>
      match find_file p (files w) with
      | None => (w, Raise (Exception (u "Sorry, we could not find the file.")))
      | Some protection =>
          if bool_decide (protection = [])
             || bool_decide (given = Some protection)
          then ({| files := files w; folders := folders w;
                   open_workbook := Some protection |}, Return tt)
          else (w, Raise (Exception
                     (u "The password you supplied is not correct.")))
      end
  | SetPassword v =>
      ({| files := files w; folders := folders w;
          open_workbook := Some v |}, Return tt)
  | SaveAs p =>
      match open_workbook w with
      | Some protection =>
          ({| files := (p, protection) :: remove_file p (files w);
              folders := folders w;
              open_workbook := open_workbook w |}, Return tt)
      | None => (w, Raise (Exception (u "No workbook is open.")))
      end
  | WbClose =>
      ({| files := files w; folders := folders w; open_workbook := None |},
       Return tt)
  | AskQuestion _ _ => (w, Return true)
  | CoInitialize | CoUninitialize | Dispatch _ | SetAppProperty _ _
  | ExcelQuit | SetWritePassword _ => (w, Return tt)
  end.

Definition platform : Platform :=
  {| World := world;
     env := answer;
     path_join := join_path;
     path_dirname := dirname;
     path_abspath := fun p => p;
     unicode_lower := fun s => s;
     format_exc := fun e => u "Traceback (most recent call last): " ++ exn_msg e |}.

Definition never_cancelled : nat -> bool := fun _ => false.

(** Cancellation requested while file number [n] (from 0) is processed:
    the flag is seen set from iteration [n + 1] on. *)
Definition cancelled_after (n : nat) : nat -> bool := fun i => n <? i.

Definition job (name new_name pw : string) : file_info :=
  {| filename := u name; new_filename := u new_name;
     password := u pw; notes := [] |}.

Definition thread (files : list file_info) (encrypt : bool)
    : ProcessingThread :=
  {| input_path := u "C:\in"; output_path := u "C:\out";
     file_list := files; is_encrypt := encrypt |}.

(** The payloads of [finished_signal] in a trace. *)
Definition finished_results (tr : list event) : list results :=
  omap (fun ev => match ev with
                  | Emit (finished_signal r) => Some r
                  | _ => None
                  end) tr.

End Sim.

(** ** What the loop of [run] is meant to do *)

Section LoopSpec.
Context `{Platform}.

(** The number of entries visited from iteration [i] on when [n] remain:
    the loop stops at the first iteration that reads the flag set. *)
Fixpoint attempted (is_cancelled : nat -> bool) (i n : nat) : nat :=
  match n with
  | O => O
  | S n' => if is_cancelled i then O else S (attempted is_cancelled (S i) n')
  end.

(** The per-file call made on each entry of [files] in turn, each in the
    world its predecessor left: the entries with their outcomes. *)
Fixpoint attempt_each (op : file_info -> M file_result)
    (files : list file_info) (w : World)
    : list (file_info * outcome file_result) :=
  match files with
  | [] => []
  | fi :: rest =>
      let r := op fi w in
      (fi, result r) :: attempt_each op rest (final r)
  end.

Fixpoint world_after (op : file_info -> M file_result)
    (files : list file_info) (w : World) : World :=
  match files with
  | [] => w
  | fi :: rest => world_after op rest (final (op fi w))
  end.

(** A processing that fails: a result whose first component is false, or
    an exception.  [failure_reason] is its error reason. *)
Definition failure_reason (o : outcome file_result) : option str :=
  match o with
  | Return (true, _, _) => None
  | Return (false, status, _) => Some status
  | Raise e => Some (exn_msg e)
  end.

Definition failure_entry (a : file_info * outcome file_result)
    : option failed_file :=
  match failure_reason (snd a) with
  | Some reason =>
      Some {| failed_filename := filename (fst a); failed_error := reason |}
  | None => None
  end.

Definition successes (outs : list (file_info * outcome file_result)) : nat :=
  length (filter (fun a => failure_reason (snd a) = None) outs).

End LoopSpec.

(** The [file_status_signal]s of a trace. *)
Definition is_file_status (ev : event) : bool :=
  match ev with
  | Emit (file_status_signal _ _ _ _) => true
  | _ => false
  end.

Definition is_quit (ev : event) : bool :=
  match ev with
  | Ext ExcelQuit _ => true
  | _ => false
  end.

(** How many events of a trace satisfy [p]. *)
Fixpoint count_if (p : event -> bool) (tr : list event) : nat :=
  match tr with
  | [] => 0
  | ev :: tr' => (if p ev then 1 else 0) + count_if p tr'
  end.

(** ** Concrete inputs *)

Module Scenario.

(** An input folder with two workbooks and the lock file Excel left for
    one of them; an empty output folder. *)
Definition two_workbooks : Sim.world :=
  {| Sim.files := [ (u "C:\in\A.xlsx", []); (u "C:\in\B.xlsx", []);
                    (u "C:\in\~$A.xlsx", []) ];
     Sim.folders := [ u "C:\in"; u "C:\out" ];
     Sim.open_workbook := None |}.

(** Encrypt both with the password pw1 and the suffix _enc. *)
Definition encrypt_both : ProcessingThread :=
  Sim.thread [ Sim.job "A.xlsx" "A_enc.xlsx" "pw1";
               Sim.job "B.xlsx" "B_enc.xlsx" "pw1" ] true.

(** [C.xlsx] is protected by the password secret, [D.xlsx] is not
    protected. *)
Definition protected_workbook : Sim.world :=
  {| Sim.files := [ (u "C:\in\C.xlsx", u "secret"); (u "C:\in\D.xlsx", []) ];
     Sim.folders := [ u "C:\in"; u "C:\out" ];
     Sim.open_workbook := None |}.

(** Decrypt [C.xlsx] with the password wrong, then [D.xlsx]. *)
Definition decrypt_with_wrong_password : ProcessingThread :=
  Sim.thread [ Sim.job "C.xlsx" "C.xlsx" "wrong";
               Sim.job "D.xlsx" "D.xlsx" "" ] false.

(** The input folder is gone when the thread starts. *)
Definition input_folder_gone : Sim.world :=
  {| Sim.files := [];
     Sim.folders := [ u "C:\out" ];
     Sim.open_workbook := None |}.

End Scenario.

(** ** Predicates on traces *)

Section TracePredicates.
Context `{Platform}.

(** Every event of every trace of [m] satisfies [P]. *)
Definition trace_all {A} (P : event -> Prop) (m : M A) : Prop :=
  forall w, Forall P (trace (m w)).

(** The events of the statements before the loop. *)
Definition startup_event (t : ProcessingThread) (ev : event) : Prop :=
  match ev with
  | Ext CoInitialize _ | Ext (Dispatch _) _ | Ext (SetAppProperty _ _) _ => True
  | Ext (OsListdir p) _ => p = input_path t
  | Ext (OsRemove p) _ =>
      exists f, startswith (u "~$") f = true /\ p = path_join (input_path t) f
  | Emit (progress_signal _ _) => True
  | _ => False
  end.

End TracePredicates.

(** A call to the outside. *)
Definition is_ext (ev : event) : Prop :=
  match ev with
  | Ext _ _ => True
  | _ => False
  end.

(** ** Where the engine writes and what it removes *)

Section Confinement.
Context `{Platform}.

(** The output path of an entry of the list. *)
Definition output_of (t : ProcessingThread) (p : str) : Prop :=
  exists fi, fi ∈ file_list t
             /\ p = path_join (output_path t) (new_filename fi).


(** What the code does: it also removes the entries of the input folder
    whose name starts with [~$]; the only folders it creates are those of
    the outputs; the workbooks it opens are the inputs. *)
Definition confined (t : ProcessingThread) (ev : event) : Prop :=
  match ev with
  | Ext (OsRemove p) _ =>
      (exists f, startswith (u "~$") f = true
                 /\ p = path_join (input_path t) f)
      \/ output_of t p
  | Ext (SaveAs p) _ => output_of t p
  | Ext (OsMakedirs p) _ => exists q, output_of t q /\ p = path_dirname q
  | Ext (WorkbooksOpen p _ _) _ =>
      exists fi, fi ∈ file_list t
                 /\ p = path_join (input_path t) (filename fi)
  | _ => True
  end.

End Confinement.

(** An open that failed. *)
Definition failed_open (ev : event) : Prop :=
  match ev with
  | Ext (WorkbooksOpen _ _ _) (Some _) => True
  | _ => False
  end.

(** What a submission may do before the thread exists: show dialogs, test
    the input folder, create the output folder. *)
Definition validation_event (g : ExcelProtectorGUI) (ev : event) : Prop :=
  match ev with
  | Show _ => True
  | Ext (OsStat p) _ => p = input_folder_edit g
  | Ext (OsMakedirs p) _ => p = output_folder_edit g
  | _ => False
  end.

Module Interface.

Definition row (name pw : string) : table_row :=
  {| checked := true; col_filename := u name; col_status := u "待处理";
     col_password := u pw; col_notes := []; col_new_filename := u name |}.

(** Encrypt mode; [A.xlsx] has the password pw1 from the password book,
    [B.xlsx] has none. *)
Definition one_password_missing : ExcelProtectorGUI :=
  {| is_processing := false;
     input_folder_edit := u "C:\in";
     output_folder_edit := u "C:\out";
     suffix_edit := [];
     encrypt_radio := true;
     auto_match_check := true;
     password_book_edit := u "C:\book.csv";
     files_table := [ row "A.xlsx" "pw1"; row "B.xlsx" "" ];
     password_dict := {[ u "A.xlsx" := u "pw1" ]} |}.

End Interface.

(** ** What loading a password book is meant to give *)

(** The rows read under [encoding] when the whole file reads without an
    exception. *)
Definition clean_rows (book : book_file) (encoding : string)
    : option (list (list str)) :=
  match read_first_line book encoding with
  | Raise _ => None
  | Return first_line =>
      let reading := csv_rows book encoding (detect_delimiter first_line) in
      match interrupted reading with
      | None => Some (rows reading)
      | Some _ => None
      end
  end.

(** The first encoding of the list under which the file reads without an
    exception, and the rows read under it. *)
Fixpoint first_clean (book : book_file) (encs : list string)
    : option (string * list (list str)) :=
  match encs with
  | [] => None
  | encoding :: rest =>
      match clean_rows book encoding with
      | Some rs => Some (encoding, rs)
      | None => first_clean book rest
      end
  end.

(** The mapping that a list of rows gives on its own. *)
Definition dict_of_rows (rs : list (list str)) : gmap str str :=
  fst (fold_left add_row rs (∅, 0)).

(** The spec's reading of a row: its first field is the file name and its
    second the password, as they stand.  [stated_password q rs] is the
    password of the last row of [rs] whose file name field equals [q]. *)
Definition stated_entry (row : list str) : option (str * str) :=
  match row with
  | name :: pw :: _ => Some (name, pw)
  | _ => None
  end.

Definition password_for (entry_of : list str -> option (str * str))
    (q : str) (row : list str) : option str :=
  match entry_of row with
  | Some (name, pw) => if bool_decide (name = q) then Some pw else None
  | None => None
  end.

Definition stated_password (q : str) (rs : list (list str)) : option str :=
  last (omap (password_for stated_entry q) rs).

(** The code's reading of a row: a data row is a row of at least two
    fields whose first field, stripped, is not empty and does not start
    with [#]; its entry is the pair of its first two fields, stripped. *)
Definition data_entry (row : list str) : option (str * str) :=
  match row with
  | field0 :: field1 :: _ =>
      if startswith (u "#") (strip field0) || negb (truthy (strip field0))
      then None
      else Some (strip field0, strip field1)
  | _ => None
  end.

Definition last_password (q : str) (rs : list (list str)) : option str :=
  last (omap (password_for data_entry q) rs).

Module Book.

(** A file that reads the same, without an exception, under every
    encoding. *)
Definition plain (first_line : str) (rs : list (list str)) : book_file :=
  {| read_first_line := fun _ => Return first_line;
     csv_rows := fun _ _ => {| rows := rs; interrupted := None |} |}.

(** Two rows for [a.xlsx]; the second is written with blanks around the
    comma. *)
Definition padded_rows : list (list str) :=
  [ [u "a.xlsx"; u "first"]; [u "a.xlsx "; u " second"] ].

Definition padded : book_file := plain (u "a.xlsx,first") padded_rows.

(** A file of more than one chunk (8192 bytes).  Its first row is
    [é.xlsx,pw] in UTF-8 (bytes C3 A9 for the first letter); comment lines
    fill the first chunk; a later row starts with the byte FF, which is
    valid in none of UTF-8, GBK and GB2312.  Under these four encodings the
    reader yields the first row, decoded as that encoding decodes it, and
    raises [UnicodeDecodeError] at the later chunk; under latin1 every byte
    decodes, and the file reads to its end. *)
Definition decode_error (codec : string) : exn :=
  UnicodeDecodeError
    (u "'" ++ u codec ++ u "' codec can't decode byte 0xff: invalid start byte").

Definition mixed_rows (encoding : string) : csv_reading :=
  if bool_decide (encoding = "utf-8-sig"%string)
     || bool_decide (encoding = "utf-8"%string)
  then {| rows := [ [u "é.xlsx"; u "pw"] ];
          interrupted := Some (decode_error "utf-8") |}
  else if bool_decide (encoding = "gbk"%string)
          || bool_decide (encoding = "gb2312"%string)
  then {| rows := [ [u "茅.xlsx"; u "pw"] ];
          interrupted := Some (decode_error encoding) |}
  else {| rows := [ [u "Ã©.xlsx"; u "pw"]; [u "# filler"];
                    [u "ÿ.xlsx"; u "pw2"] ];
          interrupted := None |}.

Definition mixed : book_file :=
  {| read_first_line := fun encoding =>
       Return (hd [] (hd [] (rows (mixed_rows encoding))) ++ u ",pw");
     csv_rows := fun encoding _ => mixed_rows encoding |}.

Definition latin1_rows : list (list str) := rows (mixed_rows "latin1").

End Book.

(** A string that neither starts nor ends with white space. *)
Definition no_outer_space (s : str) : bool :=
  match head s with Some c => negb (isspace c) | None => true end
  && match last s with Some c => negb (isspace c) | None => true end.

(** ** Scanning the input folder *)

Section Scan.
Context `{Platform}.

(** [s.endswith(suffix)] *)
Definition endswith (suffix s : str) : bool :=
  startswith (reverse suffix) (reverse s).

(** The test of [scan_files] on an entry of the input folder. *)
Definition is_excel_file (filename : str) : bool :=
  existsb (fun ext => endswith ext (lower filename))
    [u ".xlsx"; u ".xls"; u ".xlsm"; u ".xlsb"]
  && negb (startswith (u "~$") filename)
  && negb (startswith (u "~") filename).

(** The list [excel_files] of [scan_files]. *)
Definition excel_files (entries : list str) : list str :=
  filter (fun filename => is_excel_file filename = true) entries.

End Scan.

Module Runs.

(** Three unprotected workbooks to encrypt. *)
Definition three_workbooks : Sim.world :=
  {| Sim.files := [ (u "C:\in\A.xlsx", []); (u "C:\in\B.xlsx", []);
                    (u "C:\in\C.xlsx", []) ];
     Sim.folders := [ u "C:\in"; u "C:\out" ];
     Sim.open_workbook := None |}.

Definition encrypt_three : ProcessingThread :=
  Sim.thread [ Sim.job "A.xlsx" "A.xlsx" "pw"; Sim.job "B.xlsx" "B.xlsx" "pw";
               Sim.job "C.xlsx" "C.xlsx" "pw" ] true.

(** Encrypt mode, both rows with a password, the suffix box holding the
    suffix between blanks. *)
Definition both_passwords : ExcelProtectorGUI :=
  {| is_processing := false;
     input_folder_edit := u "C:\in";
     output_folder_edit := u "C:\out";
     suffix_edit := u " _enc ";
     encrypt_radio := true;
     auto_match_check := false;
     password_book_edit := [];
     files_table := [ Interface.row "A.xlsx" "pw1"; Interface.row "B.xlsx" "pw1" ];
     password_dict := ∅ |}.

End Runs.

(** ** Executions *)

Section Executions.
Context `{Platform}.

(** Every execution of [m] has a trace and a result related by [Q]. *)
Definition holds {A} (m : M A) (Q : list event -> outcome A -> Prop) : Prop :=
  forall w, Q (trace (m w)) (result (m w)).

End Executions.

(** ** The order of the calls to Excel *)

(** How far the application object got: not dispatched, in use, or after
    the call of [Quit], with whether that call returned. *)
Inductive stage : Type :=
  | NoApplication
  | Application
  | AfterQuit (returned : bool).

(** What a run holds of Excel: the stage of the application; whether the
    local [wb] refers to a workbook that was opened and not yet passed to
    [Close]; and how many workbooks were opened and not closed, a [Close]
    that raises leaving its workbook open. *)
Record session : Type := {
  stage_of : stage;
  holding : bool;
  left_open : nat
}.

Definition no_session : session :=
  {| stage_of := NoApplication; holding := false; left_open := 0 |}.

(** The calls a state allows and the state they lead to; an error matters
    for every call.  A call that is not made to Excel leaves the state as
    it is. *)
Definition session_step (s : session) (ev : event) : option session :=
  match ev with
  | Ext (Dispatch _) err =>
      match stage_of s, err with
      | NoApplication, None =>
          Some {| stage_of := Application; holding := holding s;
                  left_open := left_open s |}
      | NoApplication, Some _ => Some s
      | _, _ => None
      end
  | Ext (SetAppProperty _ _) _ =>
      match stage_of s with Application => Some s | _ => None end
  | Ext (WorkbooksOpen _ _ _) err =>
      match stage_of s, holding s, err with
      | Application, false, None =>
          Some {| stage_of := Application; holding := true;
                  left_open := S (left_open s) |}
      | Application, false, Some _ => Some s
      | _, _, _ => None
      end
  | Ext (SetPassword _) _ | Ext (SetWritePassword _) _ | Ext (SaveAs _) _ =>
      match stage_of s, holding s with
      | Application, true => Some s
      | _, _ => None
      end
  | Ext WbClose err =>
      match stage_of s, holding s with
      | Application, true =>
          Some {| stage_of := Application; holding := false;
                  left_open := match err with
                               | None => pred (left_open s)
                               | Some _ => left_open s
                               end |}
      | _, _ => None
      end
  | Ext ExcelQuit err =>
      match stage_of s, holding s with
      | Application, false =>
          Some {| stage_of := AfterQuit match err with
                                        | None => true
                                        | Some _ => false
                                        end;
                  holding := false; left_open := left_open s |}
      | _, _ => None
      end
  | _ => Some s
  end.

Fixpoint session_after (s : session) (tr : list event) : option session :=
  match tr with
  | [] => Some s
  | ev :: tr' =>
      match session_step s ev with
      | Some s' => session_after s' tr'
      | None => None
      end
  end.

(** A [Close], a [Quit] that raised. *)
Definition is_failed_close (ev : event) : bool :=
  match ev with Ext WbClose (Some _) => true | _ => false end.

Definition is_failed_quit (ev : event) : bool :=
  match ev with Ext ExcelQuit (Some _) => true | _ => false end.

Definition is_co_initialize (ev : event) : bool :=
  match ev with Ext CoInitialize _ => true | _ => false end.

Definition is_co_uninitialize (ev : event) : bool :=
  match ev with Ext CoUninitialize _ => true | _ => false end.

(** ** What a run does in each mode *)

Section Modes.
Context `{Platform}.

(** Encrypting: a workbook is opened for writing and without a password,
    the passwords set are non-empty passwords of entries of the list, and
    nothing is removed but lock files of the input folder. *)
Definition encrypt_event (t : ProcessingThread) (ev : event) : Prop :=
  match ev with
  | Ext (WorkbooksOpen _ read_only given) _ =>
      read_only = false /\ given = None
  | Ext (SetPassword v) _ | Ext (SetWritePassword v) _ =>
      v <> [] /\ exists fi, fi ∈ file_list t /\ v = password fi
  | Ext (OsRemove p) _ =>
      exists f, startswith (u "~$") f = true /\ p = path_join (input_path t) f
  | _ => True
  end.

(** Decrypting: a workbook is opened read-only with the password of its
    entry, or for writing and without one when the entry has no password;
    the passwords set are empty. *)
Definition decrypt_event (t : ProcessingThread) (ev : event) : Prop :=
  match ev with
  | Ext (WorkbooksOpen p read_only given) _ =>
      exists fi, fi ∈ file_list t
                 /\ p = path_join (input_path t) (filename fi)
                 /\ if truthy (password fi)
                    then read_only = true /\ given = Some (password fi)
                    else read_only = false /\ given = None
  | Ext (SetPassword v) _ | Ext (SetWritePassword v) _ => v = []
  | _ => True
  end.

End Modes.

(** ** More of the interface *)

Definition set_output_folder_edit (g : ExcelProtectorGUI) (text : str)
    : ExcelProtectorGUI :=
  {| is_processing := is_processing g;
     input_folder_edit := input_folder_edit g;
     output_folder_edit := text;
     suffix_edit := suffix_edit g;
     encrypt_radio := encrypt_radio g;
     auto_match_check := auto_match_check g;
     password_book_edit := password_book_edit g;
     files_table := files_table g;
     password_dict := password_dict g |}.

Definition set_is_processing (g : ExcelProtectorGUI) (b : bool)
    : ExcelProtectorGUI :=
  {| is_processing := b;
     input_folder_edit := input_folder_edit g;
     output_folder_edit := output_folder_edit g;
     suffix_edit := suffix_edit g;
     encrypt_radio := encrypt_radio g;
     auto_match_check := auto_match_check g;
     password_book_edit := password_book_edit g;
     files_table := files_table g;
     password_dict := password_dict g |}.

(** [on_same_folder_changed(state)], with [same] for
    [state == Qt.Checked].  (Enabling and disabling the widgets is left
    out.) *)
Definition on_same_folder_changed (g : ExcelProtectorGUI) (same : bool)
    : ExcelProtectorGUI :=
  if same then set_output_folder_edit g (input_folder_edit g) else g.

(** [on_unified_password_changed(text)]; [single_password_enabled] is
    [self.single_password_edit.isEnabled()].  It returns the interface
    after the call and what was logged. *)
Definition on_unified_password_changed (g : ExcelProtectorGUI)
    (single_password_enabled : bool) (text : str)
    : ExcelProtectorGUI * list log_entry :=
  if negb (truthy text) || negb single_password_enabled then (g, [])
  else if auto_match_check g then (g, [])
  else
    let updated_count :=
      length (filter (fun row => checked row = true) (files_table g)) in
    (set_files_table g
       (map (fun row =>
               if checked row
               then {| checked := checked row;
                       col_filename := col_filename row;
                       col_status := col_status row;
                       col_password := text;
                       col_notes := u "统一密码";
                       col_new_filename := col_new_filename row |}
               else row)
          (files_table g)),
     if 0 <? updated_count
     then [ {| log_text := u "已为 " ++ str_of_nat updated_count
                           ++ u " 个选中文件更新统一密码";
               log_type := u "info" |} ]
     else []).

(** The row [scan_files] makes for a file. *)
Definition pending_row (filename : str) : table_row :=
  {| checked := true; col_filename := filename; col_status := u "待处理";
     col_password := []; col_notes := []; col_new_filename := [] |}.

Section ScanFiles.
Context `{Platform}.

Definition no_excel_text (folder_path : str) : str :=
  u "在文件夹中未找到Excel文件：" ++ newline ++ folder_path ++ newline
  ++ newline ++ u "请检查：" ++ newline ++ u "1. 文件夹路径是否正确"
  ++ newline ++ u "2. 文件夹中是否有Excel文件（.xlsx, .xls）".

(** [scan_files]: the interface after the call and what was logged.  An
    exception of [os.listdir] leaves the method, after the table was
    emptied.  (The message of the status bar is left out.) *)
Definition scan_files (g : ExcelProtectorGUI)
    : M (ExcelProtectorGUI * list log_entry) :=
  let folder_path := input_folder_edit g in
  found <- path_exists folder_path ;;
  if negb found
  then
    show (Warning (u "警告") (u "输入文件夹不存在！")) ;;
    ret (g, [])
  else
    let output_path := output_folder_edit g in
    present <- path_exists output_path ;;
    made_log <-
      (if negb present
       then
         made <- attempt (do_call (OsMakedirs output_path)) ;;
         match made with
         | Return _ =>
             ret [ {| log_text := u "创建输出文件夹: " ++ output_path;
                      log_type := u "info" |} ]
         | Raise e =>
             ret [ {| log_text := u "创建输出文件夹失败: " ++ exn_msg e;
                      log_type := u "error" |} ]
         end
       else ret []) ;;
    entries <- do_call (OsListdir folder_path) ;;
    let excel_files := excel_files entries in
    none_log <-
      match excel_files with
      | [] =>
          show (Warning (u "提示") (no_excel_text folder_path)) ;;
          ret [ {| log_text := u "警告：在文件夹 " ++ folder_path
                               ++ u " 中未找到Excel文件";
                   log_type := u "warning" |} ]
      | _ :: _ => ret []
      end ;;
    let g1 := set_files_table g (map pending_row excel_files) in
    let found_log :=
      [ {| log_text := u "扫描完成，找到 "
                       ++ str_of_nat (length excel_files)
                       ++ u " 个Excel文件";
           log_type := u "success" |} ] in
    let matched :=
      if negb (bool_decide (password_dict g1 = ∅)) && auto_match_check g1
      then
        let '(g2, match_count) := match_passwords_from_book g1 in
        (g2, if 0 <? match_count
             then [ {| log_text := u "自动匹配完成，成功匹配 "
                                   ++ str_of_nat match_count
                                   ++ u " 个文件";
                       log_type := u "success" |} ]
             else [])
      else (g1, []) in
    ret (preview_new_filenames (fst matched),
         made_log ++ none_log ++ found_log ++ snd matched).

End ScanFiles.

(** [update_file_status(filename, status, is_success, notes)] on the rows
    of the table: the first row with that file name gets the status, and
    the notes when they are not empty. *)
Fixpoint update_file_status_rows (rows : list table_row)
    (filename status notes : str) : list table_row :=
  match rows with
  | [] => []
  | row :: rest =>
      if bool_decide (col_filename row = filename)
      then {| checked := checked row;
              col_filename := col_filename row;
              col_status := status;
              col_password := col_password row;
              col_notes := if truthy notes then notes else col_notes row;
              col_new_filename := col_new_filename row |} :: rest
      else row :: update_file_status_rows rest filename status notes
  end.

Definition update_file_status (g : ExcelProtectorGUI)
    (filename status : str) (is_success : bool) (notes : str)
    : ExcelProtectorGUI :=
  set_files_table g
    (update_file_status_rows (files_table g) filename status notes).

(** [str(z)] for an integer *)
Definition str_of_Z (z : Z) : str :=
  if (z <? 0)%Z
  then u "-" ++ str_of_nat (Z.abs_nat z)
  else str_of_nat (Z.abs_nat z).

(** The message box of [processing_finished]. *)
Record message_box : Type := {
  box_text : str;
  box_details : option str
}.

(** [total_count - success_count], the number the box shows as failed *)
Definition failed_shown (r : results) : Z :=
  (Z.of_nat (total_count r) - Z.of_nat (success_count r))%Z.

(** [processing_finished(results)]: the interface after the call, the box
    it shows and what it logs.  (The message of the status bar is left
    out.) *)
Definition processing_finished (g : ExcelProtectorGUI) (r : results)
    : ExcelProtectorGUI * message_box * list log_entry :=
  (set_is_processing g false,
   {| box_text :=
        u "处理完成！" ++ newline
        ++ u "总文件数：" ++ str_of_nat (total_count r) ++ newline
        ++ u "成功处理：" ++ str_of_nat (success_count r) ++ newline
        ++ u "失败：" ++ str_of_Z (failed_shown r);
      box_details :=
        match failed_files r with
        | [] => None
        | _ :: _ =>
            Some (join newline
                    (map (fun f => failed_filename f ++ u ": "
                                   ++ failed_error f)
                       (failed_files r)))
        end |},
   [ {| log_text := u "处理完成！成功：" ++ str_of_nat (success_count r)
                    ++ u "/" ++ str_of_nat (total_count r);
        log_type := u "success" |} ]).

(** What a run saves onto or removes, when told of the inputs: the input
    file of an entry of the list, or a lock file of the input folder. *)
Section Overwriting.
Context `{Platform}.

Definition input_of (t : ProcessingThread) (p : str) : Prop :=
  exists fi, fi ∈ file_list t /\ p = path_join (input_path t) (filename fi).

Definition onto_inputs (t : ProcessingThread) (ev : event) : Prop :=
  match ev with
  | Ext (SaveAs p) _ => input_of t p
  | Ext (OsRemove p) _ =>
      (exists f, startswith (u "~$") f = true
                 /\ p = path_join (input_path t) f)
      \/ input_of t p
  | _ => True
  end.

End Overwriting.

Module Cases.

(** Decrypt mode, the protected workbook checked with its password, no
    suffix but blanks in the suffix box, the output folder box still
    naming another folder. *)
Definition decrypt_in_place : ExcelProtectorGUI :=
  {| is_processing := false;
     input_folder_edit := u "C:\in";
     output_folder_edit := u "C:\out";
     suffix_edit := u "  ";
     encrypt_radio := false;
     auto_match_check := false;
     password_book_edit := [];
     files_table := [ Interface.row "C.xlsx" "secret" ];
     password_dict := ∅ |}.

(** Automatic matching on, a book chosen, and a row for [a.xlsx] with a
    password typed by hand. *)
Definition typed_by_hand : ExcelProtectorGUI :=
  {| is_processing := false;
     input_folder_edit := u "C:\in";
     output_folder_edit := u "C:\out";
     suffix_edit := [];
     encrypt_radio := false;
     auto_match_check := true;
     password_book_edit := u "C:\book.csv";
     files_table := [ Interface.row "a.xlsx" "typed"; Interface.row "b.xlsx" "" ];
     password_dict := ∅ |}.

End Cases.

(** ** What the interface receives from a run *)

(** The signals of a trace, in order. *)
Fixpoint signals (tr : list event) : list signal :=
  match tr with
  | [] => []
  | Emit s :: tr' => s :: signals tr'
  | _ :: tr' => signals tr'
  end.

Section VisitSignals.
Context `{Platform}.

(** The [file_status_signal] and the [log_signal] of an entry visited,
    given the outcome of its per-file call. *)
Definition status_of_outcome (a : file_info * outcome file_result) : signal :=
  match snd a with
  | Return (ok, status, note) =>
      file_status_signal (filename (fst a)) status ok note
  | Raise e =>
      file_status_signal (filename (fst a))
        (u "错误: " ++ slice_to 50 (exn_msg e)) false (u "处理异常")
  end.

Definition log_of_outcome (a : file_info * outcome file_result) : signal :=
  match snd a with
  | Return (true, status, _) =>
      log_signal (filename (fst a) ++ u ": " ++ status ++ u " → "
                  ++ new_filename (fst a)) (u "success")
  | Return (false, status, _) =>
      log_signal (filename (fst a) ++ u ": " ++ status) (u "error")
  | Raise e =>
      log_signal (filename (fst a) ++ u ": 处理失败 - " ++ exn_msg e)
        (u "error")
  end.

(** Three signals per entry visited, from iteration [i] on. *)
Fixpoint visit_signals (total i : nat)
    (outs : list (file_info * outcome file_result)) : list signal :=
  match outs with
  | [] => []
  | a :: rest =>
      progress_signal (i + 1) total :: status_of_outcome a
      :: log_of_outcome a :: visit_signals total (S i) rest
  end.

End VisitSignals.

(** A call that writes to a workbook, saves it, closes it, or removes a
    file. *)
Definition touches (ev : event) : Prop :=
  match ev with
  | Ext (SetPassword _) _ | Ext (SetWritePassword _) _ | Ext (SaveAs _) _
  | Ext WbClose _ | Ext (OsRemove _) _ => True
  | _ => False
  end.

(** ** The interface during a run *)

(** The slots connected to the signals of the thread: [update_file_status]
    for [file_status_signal], [processing_finished] for [finished_signal];
    the progress bar and the log pane, which the other two signals reach,
    are not part of the state modelled. *)
Definition receive (g : ExcelProtectorGUI) (s : signal) : ExcelProtectorGUI :=
  match s with
  | file_status_signal filename status is_success notes =>
      update_file_status g filename status is_success notes
  | finished_signal r => (processing_finished g r).1.1
  | _ => g
  end.

(** A row after the status and the notes of a [file_status_signal] were
    written to it. *)
Definition row_with_status (row : table_row) (s : signal) : table_row :=
  match s with
  | file_status_signal _ status _ notes =>
      {| checked := checked row;
         col_filename := col_filename row;
         col_status := status;
         col_password := col_password row;
         col_notes := if truthy notes then notes else col_notes row;
         col_new_filename := col_new_filename row |}
  | _ => row
  end.

(** The entry of that name among the entries visited, with its outcome. *)
Definition outcome_for (name : str)
    (outs : list (file_info * outcome file_result))
    : option (file_info * outcome file_result) :=
  find (fun a => bool_decide (filename a.1 = name)) outs.

(** What [start_processing] itself does: the events of the validation, and
    the question. *)
Definition submission_event (g : ExcelProtectorGUI) (ev : event) : Prop :=
  match ev with
  | Ext (AskQuestion _ _) _ => True
  | _ => validation_event g ev
  end.

Section LockFiles.
Context `{Platform}.

(** The removal of a lock file of the input folder. *)
Definition lock_removal (t : ProcessingThread) (ev : event) : Prop :=
  match ev with
  | Ext (OsRemove p) _ =>
      exists f, startswith (u "~$") f = true /\ p = path_join (input_path t) f
  | _ => False
  end.

End LockFiles.

(** ** An Excel that words its errors in another language *)

Module Localised.

(** The message of a German Excel for a password that is rejected: it
    contains neither the word password nor 密码. *)
Definition reword (e : exn) : exn :=
  if bool_decide (exn_msg e = u "The password you supplied is not correct.")
  then Exception (u "Das eingegebene Kennwort ist ungültig.")
  else e.

Definition answer (c : call) (w : Sim.world) : Sim.world * outcome (reply c) :=
  match Sim.answer c w with
  | (w', Raise e) => (w', Raise (reword e))
  | (w', Return a) => (w', Return a)
  end.

Definition platform : Platform :=
  {| World := Sim.world;
     env := answer;
     path_join := Sim.join_path;
     path_dirname := Sim.dirname;
     path_abspath := fun p => p;
     unicode_lower := fun s => s;
     format_exc := fun e => u "Traceback (most recent call last): " ++ exn_msg e |}.

End Localised.

(** ** The entries of the input folder *)

Section InputFolder.
Context `{Platform}.



End InputFolder.

(** * Properties *)

(** ** The monad *)

Section MonadFacts.
Context `{Platform}.


Lemma trace_all_ret {A} P (a : A) : trace_all P (ret a).
Proof. intros w. constructor. Qed.

Lemma trace_all_raise {A} P e : trace_all P (raise (A := A) e).
Proof. intros w. constructor. Qed.

Lemma trace_all_bind {A B} P (m : M A) (k : A -> M B) :
  trace_all P m -> (forall a, trace_all P (k a)) -> trace_all P (bind m k).
Proof.
  intros Hm Hk w. unfold bind. specialize (Hm w).
  destruct (result (m w)) as [a|e]; simpl; [|done].
  apply Forall_app. split; [done|apply Hk].
Qed.

Lemma trace_all_attempt {A} P (m : M A) :
  trace_all P m -> trace_all P (attempt m).
Proof. intros Hm w. apply Hm. Qed.

Lemma trace_all_do_call P c :
  (forall err, P (Ext c err)) -> trace_all P (do_call c).
Proof.
  intros HP w. unfold do_call. destruct (env c w) as [w' o]. simpl.
  constructor; [apply HP|constructor].
Qed.

Lemma trace_all_emit P s : P (Emit s) -> trace_all P (emit s).
Proof. intros HP w. simpl. constructor; [done|constructor]. Qed.

Lemma trace_all_show P d : P (Show d) -> trace_all P (show d).
Proof. intros HP w. simpl. constructor; [done|constructor]. Qed.

Lemma trace_all_try_except {A} P (m : M A) handler :
  trace_all P m -> (forall e, trace_all P (handler e)) ->
  trace_all P (try_except m handler).
Proof.
  intros Hm Hh. apply trace_all_bind; [by apply trace_all_attempt|].
  intros [a|e]; [apply trace_all_ret|apply Hh].
Qed.

Lemma trace_all_try_pass P (m : M unit) :
  trace_all P m -> trace_all P (try_pass m).
Proof.
  intros Hm. apply trace_all_try_except; [done|].
  intros e. apply trace_all_ret.
Qed.

Lemma trace_all_try_finally {A} P (m : M A) cleanup :
  trace_all P m -> trace_all P cleanup -> trace_all P (try_finally m cleanup).
Proof.
  intros Hm Hc. apply trace_all_bind; [by apply trace_all_attempt|].
  intros o. apply trace_all_bind; [done|].
  intros _. destruct o; [apply trace_all_ret|apply trace_all_raise].
Qed.

Lemma trace_all_path_exists P path :
  (forall err, P (Ext (OsStat path) err)) -> trace_all P (path_exists path).
Proof.
  intros HP. apply trace_all_bind.
  - apply trace_all_attempt. by apply trace_all_do_call.
  - intros o. apply trace_all_ret.
Qed.

Lemma trace_all_for_each {A} P (l : list A) (body : A -> M unit) :
  (forall x, x ∈ l -> trace_all P (body x)) -> trace_all P (for_each l body).
Proof.
  induction l as [|x l IH]; intros Hbody; simpl.
  - apply trace_all_ret.
  - apply trace_all_bind.
    + apply Hbody. left.
    + intros _. apply IH. intros y Hy. apply Hbody. by right.
Qed.

(** [try: m except: pass] never raises. *)
Lemma try_pass_returns (m : M unit) w : result (try_pass m w) = Return tt.
Proof.
  unfold try_pass, try_except, bind, attempt. simpl.
  destruct (result (m w)) as [[]|e]; reflexivity.
Qed.

(** A [try] with a handler that returns never raises. *)
Lemma try_except_returns {A} (m : M A) (handler : exn -> A) w :
  exists a, result (try_except m (fun e => ret (handler e)) w) = Return a.
Proof.
  unfold try_except, bind, attempt. simpl.
  destruct (result (m w)) as [a|e]; simpl; eauto.
Qed.

End MonadFacts.

(** ** The loop of [run] *)

Section LoopFacts.
Context `{Platform}.

Lemma attempted_le c i n : attempted c i n <= n.
Proof.
  revert i. induction n as [|n IH]; intros i; simpl; [lia|].
  destruct (c i); [lia|]. specialize (IH (S i)). lia.
Qed.

Lemma successes_cons a outs :
  successes (a :: outs)
  = (if failure_reason (snd a) is None then 1 else 0) + successes outs.
Proof.
  unfold successes. rewrite filter_cons.
  destruct (decide (failure_reason (snd a) = None)) as [->|Hne]; [done|].
  by destruct (failure_reason (snd a)).
Qed.

(** The loop, from any iteration and any value of its two accumulators:
    it returns, having added to them the successes and the failures of
    the entries visited. *)
Lemma process_files_spec op c total files :
  forall i s f w,
    let n := attempted c i (length files) in
    let outs := attempt_each op (take n files) w in
    let r := process_files op c total i files s f w in
    result r = Return (s + successes outs, f ++ omap failure_entry outs)
    /\ final r = world_after op (take n files) w.
Proof.
  induction files as [|fi rest IH]; intros i s f w; simpl.
  - split; [|done]. unfold successes. simpl. f_equal. f_equal; [lia|].
    by rewrite app_nil_r.
  - destruct (c i) eqn:Hc; simpl.
    { split; [|done]. unfold successes. simpl. f_equal. f_equal; [lia|].
      by rewrite app_nil_r. }
    rewrite successes_cons. unfold failure_entry at 2. simpl.
    destruct (result (op fi w)) as [[[[] status] note]|e] eqn:Hop; simpl.
    + destruct (IH (S i) (S s) f (final (op fi w))) as [-> ->].
      split; [|done]. f_equal. f_equal. lia.
    + match goal with
      | |- context [process_files op c total (S i) rest s ?f' ?w'] =>
          destruct (IH (S i) s f' w') as [-> ->]
      end.
      split; [|done]. rewrite <- app_assoc. repeat f_equal; lia.
    + match goal with
      | |- context [process_files op c total (S i) rest s ?f' ?w'] =>
          destruct (IH (S i) s f' w') as [-> ->]
      end.
      split; [|done]. rewrite <- app_assoc. repeat f_equal; lia.
Qed.

End LoopFacts.

(** ** Traces of the engine *)


Ltac trace_step :=
  lazymatch goal with
  | |- trace_all _ (ret _) => apply trace_all_ret
  | |- trace_all _ (raise _) => apply trace_all_raise
  | |- trace_all _ (try_pass _) => apply trace_all_try_pass
  | |- trace_all _ (try_finally _ _) => apply trace_all_try_finally
  | |- trace_all _ (try_except _ _) => apply trace_all_try_except; [|intros ?]
  | |- trace_all _ (path_exists _) => apply trace_all_path_exists; intros ?
  | |- trace_all _ (attempt _) => apply trace_all_attempt
  | |- trace_all ?P (do_call ?c) => apply (trace_all_do_call P c); intros ?
  | |- trace_all _ (emit _) => apply trace_all_emit
  | |- trace_all _ (show _) => apply trace_all_show
  | |- trace_all _ (bind _ _) => apply trace_all_bind; [|intros ?]
  | |- trace_all _ (if ?b then _ else _) => destruct b
  | |- trace_all _ (match ?o with Return _ => _ | Raise _ => _ end) =>
      destruct o
  end.

Ltac trace_tac := repeat trace_step.

Section EngineTraces.
Context `{Platform}.

Lemma bind_trace {A B} (m : M A) (k : A -> M B) w :
  trace (bind m k w)
  = trace (m w)
    ++ match result (m w) with
       | Return a => trace (k a (final (m w)))
       | Raise _ => []
       end.
Proof.
  unfold bind. destruct (result (m w)); simpl; [done|by rewrite app_nil_r].
Qed.

Lemma bind_result {A B} (m : M A) (k : A -> M B) w :
  result (bind m k w)
  = match result (m w) with
    | Return a => result (k a (final (m w)))
    | Raise e => Raise e
    end.
Proof. unfold bind. by destruct (result (m w)). Qed.

Lemma try_except_trace {A} (m : M A) handler w :
  trace (try_except m handler w)
  = trace (m w)
    ++ match result (m w) with
       | Return _ => []
       | Raise e => trace (handler e (final (m w)))
       end.
Proof.
  unfold try_except. rewrite bind_trace. simpl. by destruct (result (m w)).
Qed.

Lemma try_finally_trace {A} (m : M A) cleanup w :
  trace (try_finally m cleanup w)
  = trace (m w) ++ trace (cleanup (final (m w))).
Proof.
  unfold try_finally. rewrite bind_trace. simpl. rewrite bind_trace. simpl.
  destruct (result (cleanup (final (m w)))); [|by rewrite app_nil_r].
  destruct (result (m w)); simpl; by rewrite app_nil_r.
Qed.

Lemma count_if_app p tr1 tr2 :
  count_if p (tr1 ++ tr2) = count_if p tr1 + count_if p tr2.
Proof. induction tr1 as [|ev tr1 IH]; simpl; [done|]. rewrite IH. lia. Qed.

Lemma count_if_none p tr :
  Forall (fun ev => p ev = false) tr -> count_if p tr = 0.
Proof. induction 1 as [|ev tr Hev _ IH]; simpl; [done|]. by rewrite Hev, IH. Qed.

(** The per-file operations talk to the outside and emit nothing. *)
Lemma ensure_output_dir_ext p : trace_all is_ext (ensure_output_dir p).
Proof. unfold ensure_output_dir. trace_tac; exact I. Qed.

Lemma encrypt_file_ext a b c d e : trace_all is_ext (encrypt_file a b c d e).
Proof.
  unfold encrypt_file. trace_tac; try exact I; apply ensure_output_dir_ext.
Qed.

Lemma decrypt_file_ext a b c d e : trace_all is_ext (decrypt_file a b c d e).
Proof.
  unfold decrypt_file. trace_tac; try exact I; apply ensure_output_dir_ext.
Qed.

Lemma process_file_ext t fi : trace_all is_ext (process_file t fi).
Proof.
  unfold process_file.
  destruct (is_encrypt t); [apply encrypt_file_ext|apply decrypt_file_ext].
Qed.

(** They return a result whatever the outside does. *)
Lemma process_file_returns t fi w :
  exists a, result (process_file t fi w) = Return a.
Proof.
  unfold process_file, encrypt_file, decrypt_file.
  destruct (is_encrypt t); apply try_except_returns.
Qed.

(** One [file_status_signal] per entry visited. *)
Lemma process_files_statuses op c total files :
  (forall fi, trace_all is_ext (op fi)) ->
  forall i s f w,
    count_if is_file_status (trace (process_files op c total i files s f w))
    = attempted c i (length files).
Proof.
  intros Hop.
  assert (Hnone : forall fi w, count_if is_file_status (trace (op fi w)) = 0).
  { intros fi w. apply count_if_none.
    eapply Forall_impl; [apply Hop|]. by intros [c0 err|s0|d0]. }
  induction files as [|fi rest IH]; intros i s f w; cbn; [done|].
  destruct (c i); cbn; [done|].
  rewrite count_if_app, Hnone.
  destruct (result (op fi w)) as [[[[] status] note]|e]; cbn;
    by rewrite IH.
Qed.

End EngineTraces.

(** ** The structure of a run *)

Section RunFacts.
Context `{Platform}.

Lemma bind_final {A B} (m : M A) (k : A -> M B) w :
  final (bind m k w)
  = match result (m w) with
    | Return a => final (k a (final (m w)))
    | Raise _ => final (m w)
    end.
Proof. unfold bind. by destruct (result (m w)). Qed.

Lemma try_except_result {A} (m : M A) handler w :
  result (try_except m handler w)
  = match result (m w) with
    | Return a => Return a
    | Raise e => result (handler e (final (m w)))
    end.
Proof.
  unfold try_except. rewrite bind_result. simpl. by destruct (result (m w)).
Qed.

Lemma try_except_final {A} (m : M A) handler w :
  final (try_except m handler w)
  = match result (m w) with
    | Return a => final (m w)
    | Raise e => final (handler e (final (m w)))
    end.
Proof.
  unfold try_except. rewrite bind_final. simpl. by destruct (result (m w)).
Qed.

Lemma emit_trace s w : trace (emit s w) = [Emit s].
Proof. done. Qed.

Lemma emit_result s w : result (emit s w) = Return tt.
Proof. done. Qed.

Lemma emit_final s w : final (emit s w) = w.
Proof. done. Qed.


Lemma clean_temp_files_events t :
  trace_all (startup_event t) (clean_temp_files t).
Proof.
  unfold clean_temp_files. trace_step; [by trace_step|].
  apply trace_all_for_each. intros f _.
  destruct (startswith (u "~$") f) eqn:Hf; trace_tac. by exists f.
Qed.

Lemma start_excel_events t : trace_all (startup_event t) (start_excel t).
Proof.
  unfold start_excel. trace_tac; try exact I.
  - apply trace_all_for_each. intros kv _. by trace_tac.
  - apply clean_temp_files_events.
Qed.

(** The loop emits no [finished_signal] and shows no dialog; its other
    events are those of the per-file calls. *)
Lemma process_files_trace_all (P : event -> Prop) op c total files :
  (forall fi, fi ∈ files -> trace_all P (op fi)) ->
  (forall s, (forall r, s <> finished_signal r) -> P (Emit s)) ->
  forall i s f, trace_all P (process_files op c total i files s f).
Proof.
  intros Hop HP.
  induction files as [|fi rest IH]; intros i s f; cbn.
  - apply trace_all_ret.
  - destruct (c i).
    { trace_tac. by apply HP. }
    assert (Hrest : forall i s f,
               trace_all P (process_files op c total i rest s f)).
    { apply IH. intros fi' Hfi'. apply Hop. by right. }
    apply trace_all_bind; [apply trace_all_emit; by apply HP|]. intros _.
    apply trace_all_bind; [apply trace_all_attempt, Hop; left|].
    intros [[[[] status] note]|e]; trace_tac;
      solve [by apply HP | apply Hrest].
Qed.

(** A run whose start-up succeeds: the loop, then [excel.Quit()], then
    the result, then [CoUninitialize]. *)
Lemma run_trace_started t c w :
  result (start_excel t w) = Return tt ->
  let w1 := final (start_excel t w) in
  let loop := process_files (process_file t) c (length (file_list t)) 0
                (file_list t) 0 [] w1 in
  exists counted,
    result loop = Return counted
    /\ trace (run t c w)
       = trace (start_excel t w) ++ trace loop
         ++ trace (try_pass (do_call ExcelQuit) (final loop))
         ++ [Emit (progress_signal (length (file_list t))
                     (length (file_list t)));
             Emit (finished_signal
                     {| success_count := fst counted;
                        total_count := length (file_list t);
                        failed_files := snd counted |})]
         ++ trace (try_pass (do_call CoUninitialize)
                     (final (try_pass (do_call ExcelQuit) (final loop)))).
Proof.
  intros Hstart w1 loop.
  destruct (process_files_spec (process_file t) c (length (file_list t))
              (file_list t) 0 0 [] w1) as [Hres _].
  fold loop in Hres. eexists. split; [exact Hres|].
  unfold run, finished_processing.
  rewrite try_finally_trace, try_except_trace, try_except_final.
  repeat (progress (rewrite ?bind_trace, ?bind_result, ?bind_final, ?Hstart,
                      ?try_pass_returns, ?emit_trace, ?emit_result,
                      ?emit_final;
                    fold w1; fold loop; rewrite ?Hres; cbv beta iota)).
  rewrite app_nil_r, <- !app_assoc. reflexivity.
Qed.

(** A run whose start-up raises: the two log lines, then
    [CoUninitialize]. *)
Lemma run_trace_fault t c w e :
  result (start_excel t w) = Raise e ->
  trace (run t c w)
  = trace (start_excel t w)
    ++ [Emit (log_signal (u "线程错误: " ++ exn_msg e) (u "error"));
        Emit (log_signal (format_exc e) (u "error"))]
    ++ trace (try_pass (do_call CoUninitialize) (final (start_excel t w))).
Proof.
  intros Hstart. unfold run.
  rewrite try_finally_trace, try_except_trace, try_except_final.
  repeat (progress (rewrite ?bind_trace, ?bind_result, ?bind_final, ?Hstart,
                      ?emit_trace, ?emit_result, ?emit_final;
                    cbv beta iota)).
  rewrite app_nil_r, <- !app_assoc. reflexivity.
Qed.

Lemma quit_trace w :
  exists err, trace (try_pass (do_call ExcelQuit) w) = [Ext ExcelQuit err].
Proof.
  unfold try_pass. rewrite try_except_trace. unfold do_call.
  destruct (env ExcelQuit w) as [w' [a|e]]; simpl; eauto.
Qed.

Lemma uninitialize_trace w :
  exists err,
    trace (try_pass (do_call CoUninitialize) w) = [Ext CoUninitialize err].
Proof.
  unfold try_pass. rewrite try_except_trace. unfold do_call.
  destruct (env CoUninitialize w) as [w' [a|e]]; simpl; eauto.
Qed.

Lemma attempt_each_length op files w :
  length (attempt_each op files w) = length files.
Proof.
  revert w. induction files as [|fi rest IH]; intros w; simpl; [done|].
  by rewrite IH.
Qed.

Lemma attempt_each_files op files w :
  map fst (attempt_each op files w) = files.
Proof.
  revert w. induction files as [|fi rest IH]; intros w; simpl; [done|].
  by rewrite IH.
Qed.

(** Every outcome is a success or a failure, never both. *)
Lemma successes_failures outs :
  successes outs + length (omap failure_entry outs) = length outs.
Proof.
  induction outs as [|a outs IH]; [done|].
  rewrite successes_cons. simpl. unfold failure_entry at 1.
  destruct (failure_reason (snd a)); simpl;
    change (list_omap _ _ failure_entry outs) with (omap failure_entry outs);
    lia.
Qed.

End RunFacts.

(** ** The batch engine: failures and counts *)

Section BatchResults.
Context `{Platform}.

(** C1.  Whatever the per-file call does -- return a success, return a
    failure, raise -- the loop of [run] itself returns.  The entries it
    visits are the first [n] of the list, where [n] depends on the
    cancellation flag alone, each visited in the world its predecessor
    left; and [failed_files] holds, in order, one entry
    [{filename, error reason}] for every visited entry whose processing
    failed. *)
Theorem failures_recorded_and_batch_continues
    (op : file_info -> M file_result) (is_cancelled : nat -> bool)
    (total : nat) (files : list file_info) (w : World) :
  let n := attempted is_cancelled 0 (length files) in
  let outs := attempt_each op (take n files) w in
  let r := process_files op is_cancelled total 0 files 0 [] w in
  result r = Return (successes outs, omap failure_entry outs)
  /\ map fst outs = take n files
  /\ final r = world_after op (take n files) w.
Proof.
  intros n outs r.
  destruct (process_files_spec op is_cancelled total files 0 0 [] w)
    as [Hres Hfinal].
  split; [exact Hres|]. split; [apply attempt_each_files|exact Hfinal].
Qed.

Lemma not_finished_startup t ev :
  startup_event t ev -> forall r, ev <> Emit (finished_signal r).
Proof. by destruct ev as [c0 err|[]|d0]. Qed.

Lemma startup_no_status t ev :
  startup_event t ev -> is_file_status ev = false.
Proof. by destruct ev as [c0 err|[]|d0]. Qed.

(** C2.  The result a run hands over with [finished_signal] counts every
    entry visited exactly once: [success_count] and the length of
    [failed_files] add up to the number [n] of entries visited (which is
    also the number of [file_status_signal]s of the run), and with the
    entries skipped after a cancellation they add up to [total_count]. *)
Theorem run_result_counts (t : ProcessingThread) (is_cancelled : nat -> bool)
    (w : World) (r : results) :
  Emit (finished_signal r) ∈ trace (run t is_cancelled w) ->
  let n := attempted is_cancelled 0 (length (file_list t)) in
  let outs := attempt_each (process_file t) (take n (file_list t))
                (final (start_excel t w)) in
  count_if is_file_status (trace (run t is_cancelled w)) = n
  /\ success_count r + length (failed_files r) = n
  /\ success_count r + length (failed_files r) + (length (file_list t) - n)
     = total_count r
  /\ success_count r = successes outs
  /\ failed_files r = omap failure_entry outs.
Proof.
  intros Hin n outs0.
  pose proof (start_excel_events t w) as Hstart_events.
  destruct (result (start_excel t w)) as [[]|e] eqn:Hstart.
  - destruct (run_trace_started t is_cancelled w Hstart)
      as (counted & Hres & Htrace).
    destruct (quit_trace
                (final (process_files (process_file t) is_cancelled
                          (length (file_list t)) 0 (file_list t) 0 []
                          (final (start_excel t w))))) as [errq Hquit].
    destruct (uninitialize_trace
                (final (try_pass (do_call ExcelQuit)
                   (final (process_files (process_file t) is_cancelled
                             (length (file_list t)) 0 (file_list t) 0 []
                             (final (start_excel t w))))))) as [erru Huninit].
    rewrite Hquit, Huninit in Htrace. clear Hquit Huninit.
    assert (Hloop_events :
              Forall (fun ev => forall r, ev <> Emit (finished_signal r))
                (trace (process_files (process_file t) is_cancelled
                          (length (file_list t)) 0 (file_list t) 0 []
                          (final (start_excel t w))))).
    { apply process_files_trace_all.
      - intros fi _ w'. eapply Forall_impl; [apply process_file_ext|].
        by intros [c0 err|s0|d0].
      - intros s0 Hs0 r0 [= ->]. by apply (Hs0 r0). }
    assert (Hr : r = {| success_count := fst counted;
                        total_count := length (file_list t);
                        failed_files := snd counted |}).
    { rewrite Htrace in Hin.
      rewrite !elem_of_app in Hin.
      destruct Hin as [Hin|[Hin|[Hin|[Hin|Hin]]]].
      - rewrite Forall_forall in Hstart_events.
        by destruct (not_finished_startup t _ (Hstart_events _ Hin) r).
      - rewrite Forall_forall in Hloop_events.
        by destruct (Hloop_events _ Hin r).
      - by apply list_elem_of_singleton in Hin.
      - apply elem_of_cons in Hin as [Hin|Hin]; [done|].
        apply list_elem_of_singleton in Hin. by injection Hin.
      - by apply list_elem_of_singleton in Hin. }
    destruct (process_files_spec (process_file t) is_cancelled
                (length (file_list t)) (file_list t) 0 0 []
                (final (start_excel t w))) as [Hspec _].
    rewrite Hspec in Hres. injection Hres as <-. subst r. cbn [fst snd
      success_count failed_files total_count].
    fold n.
    pose proof (attempted_le is_cancelled 0 (length (file_list t))) as Hle.
    fold n in Hle.
    set (outs := attempt_each (process_file t) (take n (file_list t))
                   (final (start_excel t w))).
    pose proof (successes_failures outs) as Hsum.
    assert (Hlen : length outs = n).
    { unfold outs. rewrite attempt_each_length, length_take. lia. }
    split; [|simpl; repeat split; lia || done].
    rewrite Htrace, !count_if_app.
    rewrite (count_if_none _ (trace (start_excel t w))).
    2:{ eapply Forall_impl; [exact Hstart_events|]. apply startup_no_status. }
    rewrite process_files_statuses by apply process_file_ext.
    fold n. simpl. lia.
  - rewrite (run_trace_fault t is_cancelled w e Hstart) in Hin.
    destruct (uninitialize_trace (final (start_excel t w))) as [erru Huninit].
    rewrite Huninit in Hin.
    rewrite !elem_of_app in Hin. destruct Hin as [Hin|[Hin|Hin]].
    + rewrite Forall_forall in Hstart_events.
      by destruct (not_finished_startup t _ (Hstart_events _ Hin) r).
    + apply elem_of_cons in Hin as [Hin|Hin]; [done|].
      by apply list_elem_of_singleton in Hin.
    + by apply list_elem_of_singleton in Hin.
Qed.

(** A run that is never cancelled visits every entry. *)
Lemma attempted_all c i n :
  (forall j, c j = false) -> attempted c i n = n.
Proof.
  intros Hc. revert i. induction n as [|n IH]; intros i; simpl; [done|].
  by rewrite Hc, IH.
Qed.

End BatchResults.

Lemma run_result_counts_witness :
  let r := {| success_count := 1; total_count := 2; failed_files := [] |} in
  let tr := trace (run (H := Sim.platform) Scenario.encrypt_both
                     (Sim.cancelled_after 0) Scenario.two_workbooks) in
  Emit (finished_signal r) ∈ tr
  /\ count_if is_file_status tr = 1
  /\ success_count r + length (failed_files r) = 1
  /\ success_count r + length (failed_files r) + (2 - 1) = total_count r
  /\ success_count r = 1
  /\ failed_files r = [].
Proof.
  intros r tr.
  assert (Hin : Emit (finished_signal r) ∈ tr).
  { vm_compute. repeat constructor. }
  split; [exact Hin|].
  exact (run_result_counts (H := Sim.platform) Scenario.encrypt_both
           (Sim.cancelled_after 0) Scenario.two_workbooks r Hin).
Defined.

(** ** The Excel session *)

Section Session.
Context `{Platform}.

(** A run whose start-up succeeds ends the session it acquired exactly
    once, cancelled or not, and does so after the last per-file call. *)
Lemma run_quits_once_when_started t c w :
  result (start_excel t w) = Return tt ->
  count_if is_quit (trace (run t c w)) = 1.
Proof.
  intros Hstart.
  destruct (run_trace_started t c w Hstart) as (counted & _ & ->).
  match goal with
  | |- context [try_pass (do_call CoUninitialize) ?w'] =>
      destruct (uninitialize_trace w') as [erru ->]
  end.
  match goal with
  | |- context [try_pass (do_call ExcelQuit) ?w'] =>
      destruct (quit_trace w') as [errq ->]
  end.
  rewrite !count_if_app.
  rewrite (count_if_none _ (trace (start_excel t w))).
  2:{ eapply Forall_impl; [apply start_excel_events|].
      by intros [[] err|[]|d0]. }
  rewrite (count_if_none _ (trace (process_files _ _ _ _ _ _ _ _))).
  2:{ apply process_files_trace_all.
      - intros fi _. unfold process_file, encrypt_file, decrypt_file,
          ensure_output_dir.
        destruct (is_encrypt t); trace_tac; done.
      - by intros []. }
  reflexivity.
Qed.

End Session.

(** C9.  The session is not ended on every way a run can end.  Here the
    input folder cannot be listed when the thread starts: [run] acquires
    the Excel application, [clean_temp_files] raises, control goes to the
    [except] clause of [run], and [excel.Quit()] is never reached; only
    [CoUninitialize] runs in the [finally] clause, and no result is handed
    over. *)
Theorem session_left_running_after_fault :
  let tr := trace (run (H := Sim.platform) Scenario.encrypt_both
                     Sim.never_cancelled Scenario.input_folder_gone) in
  Ext (Dispatch "Excel.Application") None ∈ tr
  /\ count_if is_quit tr = 0
  /\ last tr = Some (Ext CoUninitialize None)
  /\ Sim.finished_results tr = [].
Proof.
  split; [|by vm_compute].
  vm_compute. repeat constructor.
Qed.

(** ** Confinement of the engine's writes and removals *)

Section ConfinementFacts.
Context `{Platform}.

Lemma process_file_confined t fi :
  fi ∈ file_list t -> trace_all (confined t) (process_file t fi).
Proof.
  intros Hfi.
  assert (Hout : output_of t (path_join (output_path t) (new_filename fi)))
    by (by exists fi).
  unfold process_file, encrypt_file, decrypt_file, ensure_output_dir.
  destruct (is_encrypt t); trace_tac;
    first [ exact I
          | exact Hout
          | right; exact Hout
          | by exists fi
          | eexists; split; [exact Hout|reflexivity] ].
Qed.



End ConfinementFacts.



(** ** Classification of open failures in [decrypt_file] *)

Section OpenFailures.
Context `{Platform}.

Lemma path_exists_returns p w :
  exists b, result (path_exists p w) = Return b.
Proof.
  unfold path_exists. rewrite bind_result. simpl.
  destruct (result (do_call (OsStat p) w)); eauto.
Qed.

Lemma path_exists_no_open p : trace_all (fun ev => ~ failed_open ev) (path_exists p).
Proof. trace_tac. simpl. tauto. Qed.

Lemma do_call_trace c w : trace (do_call c w) = [Ext c (raised (result (do_call c w)))].
Proof. unfold do_call. by destruct (env c w). Qed.

(** The ways [decrypt_file] can go, seen from the open: either no open
    failed, or the (only) open failed with [e], it is the last event, and
    the result is [open_error e]. *)
Lemma decrypt_file_open name input output pw notes w :
  let r := decrypt_file name input output pw notes w in
  Forall (fun ev => ~ failed_open ev) (trace r)
  \/ exists pre ro given e,
       trace r = pre ++ [Ext (WorkbooksOpen input ro given) (Some e)]
       /\ Forall (fun ev => ~ failed_open ev) pre
       /\ result r = Return (open_error e).
Proof.
  intros r. unfold r, decrypt_file.
  rewrite try_except_trace, try_except_result.
  rewrite bind_trace, bind_result.
  pose proof (path_exists_no_open input w) as Hpe.
  destruct (path_exists_returns input w) as [found ->].
  destruct found; cbn [negb].
  2:{ left. cbn [ret trace result final]. by rewrite !app_nil_r. }
  rewrite bind_trace, bind_result.
  set (w1 := final (path_exists input w)) in *.
  assert (Hens : Forall (fun ev => ~ failed_open ev)
                   (trace (ensure_output_dir output w1))).
  { apply (trace_all_bind _ _ _ (path_exists_no_open _)).
    intros b. destruct b; trace_tac. simpl. tauto. }
  destruct (result (ensure_output_dir output w1)) as [[]|e0].
  2:{ left. cbn [ret trace result final]. rewrite !app_nil_r.
      by apply Forall_app. }
  set (w2 := final (ensure_output_dir output w1)) in *.
  rewrite bind_trace, bind_result.
  set (opening := if truthy pw
                  then do_call (WorkbooksOpen input true (Some pw))
                  else do_call (WorkbooksOpen input false None)).
  assert (Hcall : exists ro given,
             trace (opening w2)
             = [Ext (WorkbooksOpen input ro given)
                  (raised (result (opening w2)))]).
  { unfold opening. destruct (truthy pw); eexists _, _; unfold do_call;
      by destruct (env _ w2). }
  destruct Hcall as (ro & given & Hcall).
  cbn [attempt trace result final]. rewrite Hcall.
  destruct (result (opening w2)) as [[]|e] eqn:Hopen; cbn [raised].
  - left.
    match goal with
    | |- context [trace (try_finally ?m ?c ?w')] =>
        assert (Htail : Forall (fun ev => ~ failed_open ev)
                          (trace (try_finally m c w')))
    end.
    { match goal with
      | |- Forall ?P (trace (?m ?w')) =>
          cut (trace_all P m); [intros Hall; apply Hall|]
      end.
      trace_tac; simpl; tauto. }
    rewrite !Forall_app. repeat split; try done.
    + apply Forall_singleton. simpl. tauto.
    + match goal with
      | |- Forall _ (match ?o with Return _ => [] | Raise _ => _ end) =>
          by destruct o
      end.
  - right.
    exists (trace (path_exists input w) ++ trace (ensure_output_dir output w1)),
      ro, given, e.
    cbn [ret trace result final]. rewrite !app_nil_r, <- !app_assoc.
    split; [reflexivity|split; [by apply Forall_app|reflexivity]].
Qed.

Lemma three_outcomes_distinct :
  wrong_password <> source_missing
  /\ forall msg, wrong_password <> open_failure msg.
Proof.
  split.
  - intros Heq. vm_compute in Heq. discriminate Heq.
  - intros msg Heq. unfold wrong_password, open_failure in Heq.
    injection Heq as _ Heq. vm_compute in Heq. discriminate Heq.
Qed.

(** C6.  When the open of [decrypt_file] fails, the outcome of the file is
    decided by the text of the error alone: it is [wrong_password] exactly
    when the text mentions a password (the word password in any case, or
    密码), and the generic [open_failure] with that text otherwise; and
    [wrong_password] is neither [source_missing] nor any [open_failure]. *)
Theorem password_mismatch_classified (name input output pw notes : str)
    (w : World) (path : str) (ro : bool) (given : option str) (e : exn) :
  Ext (WorkbooksOpen path ro given) (Some e)
    ∈ trace (decrypt_file name input output pw notes w) ->
  result (decrypt_file name input output pw notes w)
  = Return (if mentions_password (exn_msg e)
            then wrong_password
            else open_failure (exn_msg e))
  /\ (result (decrypt_file name input output pw notes w)
      = Return wrong_password
      <-> mentions_password (exn_msg e) = true)
  /\ wrong_password <> source_missing
  /\ forall msg, wrong_password <> open_failure msg.
Proof.
  intros Hin.
  destruct three_outcomes_distinct as [Hmissing Hgeneric].
  assert (Hres : result (decrypt_file name input output pw notes w)
                 = Return (open_error e)).
  { destruct (decrypt_file_open name input output pw notes w)
      as [Hnone|(pre & ro' & given' & e' & Htrace & Hpre & Hres)].
    - rewrite Forall_forall in Hnone. by destruct (Hnone _ Hin).
    - rewrite Htrace in Hin. apply elem_of_app in Hin as [Hin|Hin].
      + rewrite Forall_forall in Hpre. by destruct (Hpre _ Hin).
      + apply list_elem_of_singleton in Hin. by injection Hin as -> -> -> ->. }
  rewrite Hres. unfold open_error.
  split; [reflexivity|]. split; [|by split].
  destruct (mentions_password (exn_msg e)); split; try done.
  all: intros Heq; injection Heq as Heq; by destruct (Hgeneric (exn_msg e)).
Qed.

(** The other open failures are reported as such. *)
Lemma other_open_failure_classified name input output pw notes w path ro
    given e :
  Ext (WorkbooksOpen path ro given) (Some e)
    ∈ trace (decrypt_file name input output pw notes w) ->
  mentions_password (exn_msg e) = false ->
  result (decrypt_file name input output pw notes w)
  = Return (open_failure (exn_msg e)).
Proof.
  intros Hin Hmentions.
  destruct (decrypt_file_open name input output pw notes w)
    as [Hnone|(pre & ro' & given' & e' & Htrace & Hpre & Hres)].
  - rewrite Forall_forall in Hnone. by destruct (Hnone _ Hin).
  - rewrite Htrace in Hin. apply elem_of_app in Hin as [Hin|Hin].
    + rewrite Forall_forall in Hpre. by destruct (Hpre _ Hin).
    + apply list_elem_of_singleton in Hin. injection Hin as -> -> -> ->.
      rewrite Hres. unfold open_error. by rewrite Hmentions.
Qed.

End OpenFailures.

Lemma password_mismatch_classified_witness :
  let e := Exception (u "The password you supplied is not correct.") in
  let r := decrypt_file (H := Sim.platform) (u "C.xlsx") (u "C:\in\C.xlsx")
             (u "C:\out\C.xlsx") (u "wrong") [] Scenario.protected_workbook in
  Ext (WorkbooksOpen (u "C:\in\C.xlsx") true (Some (u "wrong"))) (Some e)
    ∈ trace r
  /\ result r
     = Return (if mentions_password (H := Sim.platform) (exn_msg e)
               then wrong_password
               else open_failure (exn_msg e))
  /\ (result r = Return wrong_password
      <-> mentions_password (H := Sim.platform) (exn_msg e) = true)
  /\ wrong_password <> source_missing
  /\ forall msg, wrong_password <> open_failure msg.
Proof.
  intros e r.
  assert (Hin : Ext (WorkbooksOpen (u "C:\in\C.xlsx") true (Some (u "wrong")))
                  (Some e) ∈ trace r).
  { vm_compute. repeat constructor. }
  split; [exact Hin|].
  exact (password_mismatch_classified (H := Sim.platform) _ _ _ _ _ _ _ _ _ _
           Hin).
Defined.

(** C6, as the spec words it, fails: whether a wrong password is reported
    as such depends on how Excel words its refusal.  [C.xlsx] is protected
    by the password secret and opened with the password wrong; the Excel
    of [Localised.platform] refuses in German, and the outcome is the
    generic open failure. *)
Lemma wrong_password_reported_as_open_failure :
  let e := Exception (u "Das eingegebene Kennwort ist ungültig.") in
  let r := decrypt_file (H := Localised.platform) (u "C.xlsx")
             (u "C:\in\C.xlsx") (u "C:\out\C.xlsx") (u "wrong") []
             Scenario.protected_workbook in
  Sim.find_file (u "C:\in\C.xlsx") (Sim.files Scenario.protected_workbook)
  = Some (u "secret")
  /\ u "wrong" <> u "secret"
  /\ Ext (WorkbooksOpen (u "C:\in\C.xlsx") true (Some (u "wrong"))) (Some e)
       ∈ trace r
  /\ result r = Return (open_failure (exn_msg e))
  /\ result r <> Return wrong_password.
Proof.
  intros e r.
  assert (Hres : result r = Return (open_failure (exn_msg e)))
    by (vm_compute; reflexivity).
  split; [by vm_compute|]. split; [by vm_compute|].
  split; [vm_compute; repeat constructor|]. split; [exact Hres|].
  rewrite Hres. intros Heq. injection Heq as Heq.
  by destruct (proj2 three_outcomes_distinct (exn_msg e)).
Qed.

(** ** Validation before a run *)

Section Validation.
Context `{Platform}.

Lemma show_trace d w : trace (show d w) = [Show d].
Proof. done. Qed.

Lemma show_result d w : result (show d w) = Return tt.
Proof. done. Qed.

Lemma selected_of_row g row :
  row ∈ files_table g -> checked row = true ->
  {| filename := col_filename row; new_filename := col_new_filename row;
     password := col_password row; notes := col_notes row |}
    ∈ get_selected_files g.
Proof.
  intros Hrow Hchecked. unfold get_selected_files.
  apply (list_elem_of_fmap_2
           (fun row => {| filename := col_filename row;
                          new_filename := col_new_filename row;
                          password := col_password row;
                          notes := col_notes row |})).
  by apply list_elem_of_filter.
Qed.

(** In encrypt mode a selected row without a password makes
    [validate_selection] answer false, after at most creating the output
    folder. *)
Lemma validate_selection_rejects g w row :
  encrypt_radio g = true ->
  row ∈ files_table g -> checked row = true -> col_password row = [] ->
  (exists msg, result (validate_selection g w) = Return (false, msg))
  /\ Forall (validation_event g) (trace (validate_selection g w)).
Proof.
  intros Hencrypt Hrow Hchecked Hpw.
  pose proof (selected_of_row g row Hrow Hchecked) as Hsel.
  unfold validate_selection.
  destruct (get_selected_files g) as [|fi0 rest] eqn:Hselected.
  { by apply elem_of_nil in Hsel. }
  destruct (truthy (output_folder_edit g)); cbn [negb].
  2:{ split; [by eexists|constructor]. }
  rewrite bind_result, bind_trace. cbn [attempt result trace final].
  assert (Hmk : Forall (validation_event g)
                  (trace (do_call (OsMakedirs (output_folder_edit g)) w))).
  { unfold do_call. destruct (env _ w). by repeat constructor. }
  destruct (result (do_call (OsMakedirs (output_folder_edit g)) w)) as [[]|e].
  2:{ split; [by eexists|]. cbn [ret trace]. by rewrite app_nil_r. }
  rewrite Hencrypt.
  destruct (map filename
              (filter (fun fi => truthy (password fi) = false) (fi0 :: rest)))
    as [|name names] eqn:Hempty.
  - exfalso.
    assert (Hin : col_filename row
                  ∈ map filename
                      (filter (fun fi => truthy (password fi) = false)
                         (fi0 :: rest))).
    { apply (list_elem_of_fmap_2 filename
               (filter _ (fi0 :: rest))
               {| filename := col_filename row;
                  new_filename := col_new_filename row;
                  password := col_password row; notes := col_notes row |}).
      apply list_elem_of_filter. split; [|done]. simpl. by rewrite Hpw. }
    rewrite Hempty in Hin. by apply elem_of_nil in Hin.
  - split; [by eexists|]. cbn [ret trace]. by rewrite app_nil_r.
Qed.

(** C3.  In encrypt mode, a selected row with an empty password makes
    [start_processing] return without creating the thread.  The whole
    submission then consists of dialogs, the test of the input folder and,
    at most, the creation of the output folder: no workbook is opened,
    nothing is saved or removed, no signal is emitted. *)
Theorem empty_password_stops_submission (g : ExcelProtectorGUI)
    (is_cancelled : nat -> bool) (w : World) (row : table_row) :
  encrypt_radio g = true ->
  row ∈ files_table g -> checked row = true -> col_password row = [] ->
  result (start_processing g w) = Return None
  /\ trace (submit g is_cancelled w) = trace (start_processing g w)
  /\ Forall (validation_event g) (trace (submit g is_cancelled w)).
Proof.
  intros Hencrypt Hrow Hchecked Hpw.
  assert (Hstart : result (start_processing g w) = Return None
                   /\ Forall (validation_event g)
                        (trace (start_processing g w))).
  { unfold start_processing. destruct (is_processing g).
    { split; [done|]. by repeat constructor. }
    rewrite !bind_result, !bind_trace, show_result, show_trace.
    cbn [final show].
    assert (Hstat : Forall (validation_event g)
                      (trace (path_exists (input_folder_edit g) w))).
    { apply trace_all_path_exists. by intros err. }
    destruct (path_exists_returns (input_folder_edit g) w) as [found ->].
    destruct found; cbn [negb].
    2:{ split; [done|]. cbn [bind show ret trace result final].
        constructor; [done|]. rewrite Forall_app. split; [done|].
        by repeat constructor. }
    rewrite !bind_result, !bind_trace.
    destruct (validate_selection_rejects g
                (final (path_exists (input_folder_edit g) w)) row
                Hencrypt Hrow Hchecked Hpw) as [[msg ->] Hvalidate].
    cbn [fst snd negb bind show ret trace result final].
    split; [done|]. constructor; [done|].
    rewrite !Forall_app. repeat split; try done. by repeat constructor. }
  destruct Hstart as [Hres Htrace].
  assert (Hsubmit : trace (submit g is_cancelled w)
                    = trace (start_processing g w)).
  { unfold submit. rewrite bind_trace, Hres. cbn [ret trace].
    by rewrite app_nil_r. }
  split; [done|]. split; [done|]. by rewrite Hsubmit.
Qed.

End Validation.

Lemma empty_password_stops_submission_witness :
  let g := Interface.one_password_missing in
  let w := Scenario.two_workbooks in
  let row := Interface.row "B.xlsx" "" in
  (encrypt_radio g = true /\ row ∈ files_table g /\ checked row = true
   /\ col_password row = [])
  /\ result (start_processing (H := Sim.platform) g w) = Return None
  /\ trace (submit (H := Sim.platform) g Sim.never_cancelled w)
     = trace (start_processing (H := Sim.platform) g w)
  /\ Forall (validation_event g)
       (trace (submit (H := Sim.platform) g Sim.never_cancelled w)).
Proof.
  intros g w row.
  assert (Hrow : row ∈ files_table g).
  { vm_compute. repeat constructor. }
  split; [by repeat split|].
  exact (empty_password_stops_submission (H := Sim.platform) g
           Sim.never_cancelled w row eq_refl Hrow eq_refl eq_refl).
Defined.

(** ** Renaming *)

Section Splitext.

Lemma rfind_from_spec c p :
  forall i last,
    rfind_from c p i last
    = if decide (c ∈ p) then (i + rfind c p)%Z else last.
Proof.
  induction p as [|x r IH]; intros i last.
  - simpl. destruct (decide (c ∈ [])) as [Hin|_]; [|done].
    by apply elem_of_nil in Hin.
  - unfold rfind. simpl. rewrite (IH (i + 1)%Z), (IH 1%Z).
    destruct (N.eqb_spec x c) as [->|Hne];
      destruct (decide (c ∈ r)) as [Hr|Hr];
      destruct (decide (_ ∈ _ :: r)) as [Hxr|Hxr];
      try lia; try (exfalso; apply Hxr; set_solver).
    exfalso. apply elem_of_cons in Hxr as [->|?]; done.
Qed.

Lemma rfind_absent c p : c ∉ p -> rfind c p = (-1)%Z.
Proof.
  intros Hc. unfold rfind. rewrite rfind_from_spec. by destruct (decide (c ∈ p)).
Qed.

Lemma rfind_from_app c a b :
  forall i last,
    rfind_from c (a ++ b) i last
    = rfind_from c b (i + Z.of_nat (length a))%Z (rfind_from c a i last).
Proof.
  induction a as [|x a IH]; intros i last; simpl.
  - f_equal. lia.
  - rewrite IH. f_equal. lia.
Qed.

Lemma rfind_app c a b :
  rfind c (a ++ b)
  = if decide (c ∈ b) then (Z.of_nat (length a) + rfind c b)%Z
    else rfind c a.
Proof.
  unfold rfind at 1. rewrite rfind_from_app, rfind_from_spec.
  destruct (decide (c ∈ b)); [lia|done].
Qed.

Lemma rfind_bounds c p : (-1 <= rfind c p < Z.of_nat (length p))%Z.
Proof.
  induction p as [|x r IH].
  - unfold rfind. simpl. lia.
  - change (x :: r) with ([x] ++ r). rewrite rfind_app.
    destruct (decide (c ∈ r)).
    + rewrite length_app. simpl. lia.
    + rewrite length_app. unfold rfind. simpl. destruct (x =? c)%N; lia.
Qed.

Lemma rfind_present c p : c ∈ p -> (0 <= rfind c p)%Z.
Proof.
  induction p as [|x r IH]; intros Hc.
  - by apply elem_of_nil in Hc.
  - change (x :: r) with ([x] ++ r). rewrite rfind_app.
    destruct (decide (c ∈ r)) as [Hr|Hr].
    + specialize (IH Hr). simpl. lia.
    + apply elem_of_cons in Hc as [->|Hc]; [|done].
      unfold rfind. simpl. by rewrite N.eqb_refl.
Qed.

(** The last occurrence splits the string. *)
Lemma rfind_split c p :
  c ∈ p ->
  exists a b,
    p = a ++ (c :: b) /\ (c ∉ b) /\ rfind c p = Z.of_nat (length a).
Proof.
  induction p as [|x r IH]; intros Hc.
  - by apply elem_of_nil in Hc.
  - destruct (decide (c ∈ r)) as [Hr|Hr].
    + destruct (IH Hr) as (a & b & -> & Hb & Hlen).
      exists (x :: a), b. split; [done|]. split; [done|].
      change (x :: a ++ c :: b) with ([x] ++ (a ++ c :: b)).
      rewrite rfind_app. destruct (decide (c ∈ a ++ c :: b)); [|done].
      rewrite Hlen. simpl. lia.
    + apply elem_of_cons in Hc as [->|Hc]; [|done].
      exists [], r. split; [done|]. split; [done|].
      change (x :: r) with ([x] ++ r). rewrite rfind_app.
      destruct (decide (x ∈ r)); [done|].
      unfold rfind. simpl. by rewrite N.eqb_refl.
Qed.

Lemma last_sep_bounds p : (-1 <= last_sep p < Z.of_nat (length p))%Z.
Proof.
  unfold last_sep.
  pose proof (rfind_bounds backslash p). pose proof (rfind_bounds slash p). lia.
Qed.

Lemma last_sep_app n e :
  backslash ∉ e -> slash ∉ e -> last_sep (n ++ e) = last_sep n.
Proof.
  intros Hb Hs. unfold last_sep. rewrite !rfind_app.
  destruct (decide (backslash ∈ e)); [done|].
  destruct (decide (slash ∈ e)); [done|]. done.
Qed.

(** When [splitext] finds an extension. *)
Lemma splitext_intro n e :
  rfind dot e = 0%Z -> backslash ∉ e -> slash ∉ e ->
  existsb not_dot (drop (Z.to_nat (last_sep n + 1)) n) = true ->
  splitext (n ++ e) = (n, e).
Proof.
  intros Hdot Hb Hs Hstem. unfold splitext.
  rewrite (last_sep_app n e Hb Hs).
  assert (Hde : dot ∈ e).
  { destruct (decide (dot ∈ e)) as [|Hno]; [done|].
    rewrite (rfind_absent _ _ Hno) in Hdot. lia. }
  rewrite rfind_app. destruct (decide (dot ∈ e)); [|done]. rewrite Hdot.
  pose proof (last_sep_bounds n) as Hsep.
  replace (Z.of_nat (length n) + 0)%Z with (Z.of_nat (length n)) by lia.
  rewrite Nat2Z.id.
  assert (Hslice : slice (last_sep n + 1) (Z.of_nat (length n)) (n ++ e)
                   = drop (Z.to_nat (last_sep n + 1)) n).
  { unfold slice. rewrite drop_app_le by lia.
    rewrite take_app_le by (rewrite length_drop; lia).
    apply take_ge. rewrite length_drop. lia. }
  rewrite Hslice, Hstem.
  replace (last_sep n <? Z.of_nat (length n))%Z with true
    by (symmetry; apply Z.ltb_lt; lia).
  cbn [andb]. by rewrite take_app_length, drop_app_length.
Qed.

(** What an extension found by [splitext] looks like. *)
Lemma splitext_inv f n e :
  splitext f = (n, e) -> e <> [] ->
  f = n ++ e /\ rfind dot e = 0%Z /\ (backslash ∉ e) /\ (slash ∉ e)
  /\ existsb not_dot (drop (Z.to_nat (last_sep n + 1)) n) = true.
Proof.
  unfold splitext.
  destruct ((last_sep f <? rfind dot f)%Z
            && existsb not_dot (slice (last_sep f + 1) (rfind dot f) f))
    eqn:Hcond; intros [= <- <-] He; [|done].
  apply andb_true_iff in Hcond as [Hlt Hstem]. apply Z.ltb_lt in Hlt.
  pose proof (last_sep_bounds f) as Hsep.
  assert (Hdot : dot ∈ f).
  { destruct (decide (dot ∈ f)) as [|Hno]; [done|].
    rewrite (rfind_absent _ _ Hno) in Hlt. lia. }
  destruct (rfind_split dot f Hdot) as (a & b & Hf & Hb & Hlen).
  rewrite Hlen in *. rewrite Nat2Z.id in *.
  rewrite Hf in *. rewrite take_app_length, drop_app_length in *.
  assert (Hde : rfind dot (dot :: b) = 0%Z).
  { change (dot :: b) with ([dot] ++ b). rewrite rfind_app.
    destruct (decide (dot ∈ b)); [done|]. done. }
  assert (Hnb : forall c,
             (rfind c (a ++ dot :: b) < Z.of_nat (length a))%Z ->
             c ∉ dot :: b).
  { intros c Hc Hin. rewrite rfind_app in Hc.
    destruct (decide (c ∈ dot :: b)); [|done].
    pose proof (rfind_present c _ Hin). lia. }
  assert (Hbs : backslash ∉ dot :: b) by (apply Hnb; unfold last_sep in *; lia).
  assert (Hsl : slash ∉ dot :: b) by (apply Hnb; unfold last_sep in *; lia).
  rewrite (last_sep_app a _ Hbs Hsl) in *.
  pose proof (last_sep_bounds a) as Hsepa.
  split; [done|]. split; [done|]. split; [done|]. split; [done|].
  rewrite <- Hstem. f_equal. unfold slice.
  rewrite drop_app_le by lia.
  rewrite take_app_le by (rewrite length_drop; lia).
  symmetry. apply take_ge. rewrite length_drop. lia.
Qed.
(** A name without an extension keeps none when a suffix without dot and
    without separator is appended. *)
Lemma splitext_none_app f s :
  splitext f = (f, []) -> dot ∉ s -> backslash ∉ s -> slash ∉ s ->
  splitext (f ++ s) = (f ++ s, []).
Proof.
  intros Hsplit Hdot Hbs Hsl. unfold splitext in *.
  rewrite (last_sep_app f s Hbs Hsl), rfind_app.
  destruct (decide (dot ∈ s)); [done|].
  pose proof (last_sep_bounds f) as Hsep.
  pose proof (rfind_bounds dot f) as Hdi.
  destruct (Z.ltb_spec (last_sep f) (rfind dot f)) as [Hlt|Hge]; [|done].
  cbn [andb] in *.
  assert (Hslice : slice (last_sep f + 1) (rfind dot f) (f ++ s)
                   = slice (last_sep f + 1) (rfind dot f) f).
  { unfold slice. rewrite drop_app_le by lia.
    rewrite take_app_le by (rewrite length_drop; lia). done. }
  rewrite Hslice.
  destruct (existsb not_dot (slice (last_sep f + 1) (rfind dot f) f)); [|done].
  injection Hsplit as _ Hdrop.
  apply (f_equal length) in Hdrop. rewrite length_drop in Hdrop.
  simpl in Hdrop. lia.
Qed.

End Splitext.

(** C7, as the code has it.  With [(n, e)] the stem and the extension of
    [f]: an empty suffix leaves [f] unchanged; a non-empty suffix [s] gives
    [n ++ s ++ e]; and renaming the result again with [s] gives
    [n ++ s ++ s ++ e] when [s] contains no path separator and either [f]
    has an extension or [s] contains no dot. *)
Theorem rename_suffix (f s n e : str) :
  splitext f = (n, e) ->
  rename f [] = f
  /\ (s <> [] -> rename f s = n ++ s ++ e)
  /\ (s <> [] -> backslash ∉ s -> slash ∉ s -> e <> [] \/ dot ∉ s ->
      rename (rename f s) s = n ++ s ++ s ++ e).
Proof.
  intros Hsplit.
  assert (Hone : s <> [] -> rename f s = n ++ s ++ e).
  { intros Hs. unfold rename. rewrite Hsplit. by destruct s. }
  split; [|split; [exact Hone|]].
  { unfold rename. by rewrite Hsplit. }
  intros Hs Hbs Hsl Hcase. rewrite (Hone Hs).
  assert (Hagain : splitext ((n ++ s) ++ e) = (n ++ s, e)).
  { destruct e as [|c e'].
    - destruct Hcase as [He|Hdot]; [done|].
      assert (Hn : n = f).
      { unfold splitext in Hsplit.
        destruct ((last_sep f <? rfind dot f)%Z && _); [|by injection Hsplit].
        injection Hsplit as Htake Hdrop.
        pose proof (take_drop (Z.to_nat (rfind dot f)) f) as Hboth.
        rewrite Hdrop, app_nil_r in Hboth. congruence. }
      subst n. rewrite app_nil_r. by apply splitext_none_app.
    - destruct (splitext_inv f n (c :: e') Hsplit)
        as (_ & Hdot & Hbe & Hse & Hstem); [done|].
      apply splitext_intro; try done.
      assert (Hsep : last_sep (n ++ s) = last_sep n)
        by (by apply last_sep_app).
      rewrite Hsep. pose proof (last_sep_bounds n).
      rewrite drop_app_le by lia. by rewrite existsb_app, Hstem. }
  unfold rename. rewrite (app_assoc n s e), Hagain.
  destruct s; [done|]. cbn [truthy]. by rewrite <- !app_assoc.
Qed.

Lemma rename_suffix_witness :
  splitext (u "A.xlsx") = (u "A", u ".xlsx")
  /\ rename (u "A.xlsx") [] = u "A.xlsx"
  /\ rename (u "A.xlsx") (u "_enc") = u "A" ++ u "_enc" ++ u ".xlsx"
  /\ rename (rename (u "A.xlsx") (u "_enc")) (u "_enc")
     = u "A" ++ u "_enc" ++ u "_enc" ++ u ".xlsx".
Proof.
  assert (Hsplit : splitext (u "A.xlsx") = (u "A", u ".xlsx"))
    by (vm_compute; reflexivity).
  destruct (rename_suffix (u "A.xlsx") (u "_enc") (u "A") (u ".xlsx") Hsplit)
    as (Hempty & Hone & Htwice).
  split; [exact Hsplit|]. split; [exact Hempty|]. split.
  - apply Hone. vm_compute. discriminate.
  - apply Htwice.
    + vm_compute. discriminate.
    + vm_compute. intros Hin. repeat (inversion Hin; subst; clear Hin;
        match goal with H : _ ∈ _ |- _ => rename H into Hin | _ => idtac end).
    + vm_compute. intros Hin. repeat (inversion Hin; subst; clear Hin;
        match goal with H : _ ∈ _ |- _ => rename H into Hin | _ => idtac end).
    + left. vm_compute. discriminate.
Defined.

(** C7, as the spec words it, fails: renaming twice does not always append
    the suffix twice.  The second renaming splits its argument afresh, at
    that argument's own last dot. *)
Lemma rename_twice_is_not_double_suffix :
  let f := u "report" in
  let s := u "_v1.0" in
  splitext f = (u "report", [])
  /\ s <> []
  /\ rename f s = u "report" ++ s ++ []
  /\ rename (rename f s) s = u "report_v1_v1.0.0"
  /\ rename (rename f s) s <> u "report" ++ s ++ s ++ [].
Proof.
  intros f s. repeat split; try (vm_compute; reflexivity);
    vm_compute; discriminate.
Qed.

(** The same with a file name the scan of the input folder accepts, and
    with a separator in the suffix. *)
Example rename_twice_hidden_name :
  splitext (u ".xlsx") = (u ".xlsx", [])
  /\ rename (rename (u ".xlsx") (u "_v1.0")) (u "_v1.0") = u ".xlsx_v1_v1.0.0".
Proof. split; vm_compute; reflexivity. Qed.

Example rename_twice_separator :
  splitext (u "a.xlsx") = (u "a", u ".xlsx")
  /\ rename (rename (u "a.xlsx") (u "_x/")) (u "_x/") = u "a_x/.xlsx_x/".
Proof. split; vm_compute; reflexivity. Qed.

(** ** The password book *)

Lemma add_row_entry acc row :
  add_row acc row
  = match data_entry row with
    | Some (name, pw) => (<[name := pw]> (fst acc), S (snd acc))
    | None => acc
    end.
Proof.
  destruct row as [|field0 [|field1 rest]]; cbn [add_row data_entry].
  - done.
  - by destruct (startswith (u "#") (strip field0)).
  - destruct (startswith (u "#") (strip field0)); [done|].
    by destruct (truthy (strip field0)).
Qed.

(** After a list of rows, the entry for [q] is that of the last data row
    for [q]; without such a row it is what it was. *)
Lemma fold_add_row_lookup rs :
  forall acc q,
    fst (fold_left add_row rs acc) !! q
    = match last_password q rs with
      | Some pw => Some pw
      | None => fst acc !! q
      end.
Proof.
  induction rs as [|row rs IH]; intros acc q; [done|].
  cbn [fold_left]. rewrite IH. unfold last_password.
  change (omap (password_for data_entry q) (row :: rs))
    with (match password_for data_entry q row with
          | Some pw => pw :: omap (password_for data_entry q) rs
          | None => omap (password_for data_entry q) rs
          end).
  rewrite add_row_entry.
  assert (Hrow : password_for data_entry q row
                 = match data_entry row with
                   | Some (name, pw) =>
                       if bool_decide (name = q) then Some pw else None
                   | None => None
                   end) by done.
  rewrite Hrow. clear Hrow.
  destruct (data_entry row) as [[name pw]|]; [|done].
  cbn [fst]. destruct (bool_decide_reflect (name = q)) as [->|Hne].
  - rewrite last_cons, lookup_insert_eq.
    by destruct (last (omap (password_for data_entry q) rs)).
  - by rewrite lookup_insert_ne.
Qed.

(** The loop over the encodings stops at the first one under which the
    file reads without an exception, and ends with the rows read under it
    put on top of whatever the earlier attempts left. *)
Lemma try_encodings_clean book encs :
  forall acc log encoding rs,
    first_clean book encs = Some (encoding, rs) ->
    exists acc',
      loaded_ok (try_encodings book encs acc log) = true
      /\ loaded_dict (try_encodings book encs acc log)
         = fst (fold_left add_row rs acc')
      /\ loaded_count (try_encodings book encs acc log)
         = snd (fold_left add_row rs acc').
Proof.
  induction encs as [|enc encs IH]; intros acc log encoding rs; [done|].
  cbn [first_clean try_encodings]. unfold clean_rows.
  destruct (read_first_line book enc) as [first_line|e]; [|by apply IH].
  destruct (interrupted (csv_rows book enc (detect_delimiter first_line)))
    as [e|]; [by apply IH|].
  intros [= <- <-]. by eexists.
Qed.

Lemma load_password_book_dict g book :
  truthy (password_book_edit g) = true ->
  password_dict (load_password_book g true book).1.1
  = loaded_dict (try_encodings book encodings (∅, 0) []).
Proof.
  intros Hpath. unfold load_password_book. rewrite Hpath. cbn [negb orb].
  destruct (loaded_ok _); [|done].
  by destruct (auto_match_check _).
Qed.

(** C5, as the code has it.  When the file reads without an exception
    under some encoding of the list, the password looked up for a file name
    after the load is the second field, stripped, of the last data row
    whose first field, stripped, is that file name. *)
Theorem lookup_returns_last_data_row (g : ExcelProtectorGUI)
    (book : book_file) (encoding : string) (rs : list (list str))
    (q pw : str) :
  truthy (password_book_edit g) = true ->
  first_clean book encodings = Some (encoding, rs) ->
  last_password q rs = Some pw ->
  lookup_password (load_password_book g true book).1.1 q = Some pw.
Proof.
  intros Hpath Hclean Hlast. unfold lookup_password.
  rewrite (load_password_book_dict g book Hpath).
  destruct (try_encodings_clean book encodings (∅, 0) [] encoding rs Hclean)
    as (acc' & _ & -> & _).
  by rewrite fold_add_row_lookup, Hlast.
Qed.

Lemma lookup_returns_last_data_row_witness :
  let g := Interface.one_password_missing in
  (truthy (password_book_edit g) = true
   /\ first_clean Book.padded encodings
      = Some ("utf-8-sig"%string, Book.padded_rows)
   /\ last_password (u "a.xlsx") Book.padded_rows = Some (u "second"))
  /\ lookup_password (load_password_book g true Book.padded).1.1 (u "a.xlsx")
     = Some (u "second").
Proof.
  intros g.
  assert (Hpath : truthy (password_book_edit g) = true) by reflexivity.
  assert (Hclean : first_clean Book.padded encodings
                   = Some ("utf-8-sig"%string, Book.padded_rows))
    by reflexivity.
  assert (Hlast : last_password (u "a.xlsx") Book.padded_rows
                  = Some (u "second")) by (vm_compute; reflexivity).
  split; [by repeat split|].
  exact (lookup_returns_last_data_row g Book.padded _ _ _ _ Hpath Hclean Hlast).
Defined.

(** C5, as the spec words it, fails: the last row whose file name field
    equals [a.xlsx] is the first row, with the password [first]; the lookup
    gives [second], from the row whose file name field is [a.xlsx] followed
    by a blank. *)
Lemma lookup_is_not_last_row_as_written :
  let g := Interface.one_password_missing in
  first_clean Book.padded encodings
  = Some ("utf-8-sig"%string, Book.padded_rows)
  /\ stated_password (u "a.xlsx") Book.padded_rows = Some (u "first")
  /\ lookup_password (load_password_book g true Book.padded).1.1 (u "a.xlsx")
     = Some (u "second")
  /\ u "second" <> u "first".
Proof.
  intros g. repeat split; try (vm_compute; reflexivity).
  vm_compute. discriminate.
Qed.

(** When no attempt that fails has yielded a row, the mapping is that of
    the rows read under the first encoding that succeeds. *)
Lemma load_without_partial_rows book encs :
  (forall enc delimiter,
     interrupted (csv_rows book enc delimiter) <> None ->
     rows (csv_rows book enc delimiter) = []) ->
  forall log encoding rs,
    first_clean book encs = Some (encoding, rs) ->
    loaded_dict (try_encodings book encs (∅, 0) log) = dict_of_rows rs.
Proof.
  intros Hnone.
  induction encs as [|enc encs IH]; intros log encoding rs; [done|].
  cbn [first_clean try_encodings]. unfold clean_rows.
  destruct (read_first_line book enc) as [first_line|e]; [|by apply IH].
  destruct (interrupted (csv_rows book enc (detect_delimiter first_line)))
    as [e|] eqn:Hend.
  - rewrite Hnone by (by rewrite Hend). by apply IH.
  - by intros [= <- <-].
Qed.

(** C4.  The entries parsed under encodings that fail are kept.  For the
    file [Book.mixed] the first encoding under which the file reads to its
    end is latin1.  The mapping returned holds the first row as decoded
    under UTF-8 and under GBK as well, though no row read under latin1 has
    these names, and the count logged is 6 for 2 data rows. *)
Theorem partial_rows_are_merged :
  let loaded := try_encodings Book.mixed encodings (∅, 0) [] in
  first_clean Book.mixed encodings = Some ("latin1"%string, Book.latin1_rows)
  /\ loaded_ok loaded = true
  /\ loaded_dict loaded !! u "é.xlsx" = Some (u "pw")
  /\ loaded_dict loaded !! u "茅.xlsx" = Some (u "pw")
  /\ dict_of_rows Book.latin1_rows !! u "é.xlsx" = None
  /\ dict_of_rows Book.latin1_rows !! u "茅.xlsx" = None
  /\ loaded_dict loaded <> dict_of_rows Book.latin1_rows
  /\ loaded_count loaded = 6
  /\ size (dict_of_rows Book.latin1_rows) = 2.
Proof.
  intros loaded.
  assert (Hkept : loaded_dict loaded !! u "é.xlsx" = Some (u "pw"))
    by (vm_compute; reflexivity).
  assert (Habsent : dict_of_rows Book.latin1_rows !! u "é.xlsx" = None)
    by (vm_compute; reflexivity).
  repeat split; try (vm_compute; reflexivity).
  intros Heq. rewrite Heq, Habsent in Hkept. discriminate Hkept.
Qed.

(** ** Stripping *)

Lemma lstrip_spec s :
  exists l,
    s = l ++ lstrip s /\ forallb isspace l = true
    /\ match head (lstrip s) with Some c => isspace c = false | None => True end.
Proof.
  induction s as [|c s IH]; [by exists []|].
  cbn [lstrip]. destruct (isspace c) eqn:Hc.
  - destruct IH as (l & Hs & Hl & Hhead). exists (c :: l).
    split; [by rewrite Hs at 1|]. split; [|done]. cbn [forallb]. by rewrite Hc.
  - by exists [].
Qed.

(** [strip] removes white space at both ends and nothing else. *)
Lemma strip_spec s :
  exists l r,
    s = l ++ strip s ++ r
    /\ forallb isspace l = true /\ forallb isspace r = true
    /\ no_outer_space (strip s) = true.
Proof.
  destruct (lstrip_spec s) as (l & Hs & Hl & Hhead).
  destruct (lstrip_spec (reverse (lstrip s))) as (r & Hr & Hrs & Htail).
  exists l, (reverse r). unfold strip, rstrip.
  assert (Hsplit : lstrip s
                   = reverse (lstrip (reverse (lstrip s))) ++ reverse r).
  { rewrite <- reverse_app, <- Hr. by rewrite reverse_involutive. }
  split; [by rewrite <- Hsplit|]. split; [done|]. split.
  { rewrite forallb_forall. intros c Hc.
    rewrite forallb_forall in Hrs. apply Hrs.
    apply list_elem_of_In, elem_of_reverse. by apply list_elem_of_In. }
  unfold no_outer_space. apply andb_true_iff. split.
  - destruct (reverse (lstrip (reverse (lstrip s)))) as [|c t] eqn:Hstripped;
      [done|].
    rewrite Hsplit in Hhead. cbn [head app] in *. by rewrite Hhead.
  - rewrite last_reverse.
    destruct (head (lstrip (reverse (lstrip s)))); [by rewrite Htail|done].
Qed.

(** ** Origin of the entries of the mapping *)

Lemma data_entry_inv row k v :
  data_entry row = Some (k, v) ->
  k <> []
  /\ exists field0 field1 rest,
       row = field0 :: field1 :: rest /\ k = strip field0 /\ v = strip field1.
Proof.
  destruct row as [|field0 [|field1 rest]]; cbn [data_entry]; try done.
  destruct (startswith (u "#") (strip field0)); [done|].
  destruct (strip field0) as [|c t] eqn:Hname; [done|]. cbn [truthy negb orb].
  intros [= <- <-]. split; [done|]. exists field0, field1, rest.
  by rewrite Hname.
Qed.

(** A row without a file name, once stripped, changes nothing. *)
Lemma blank_name_row_dropped acc field0 rest :
  strip field0 = [] -> add_row acc (field0 :: rest) = acc.
Proof.
  intros Hblank. rewrite add_row_entry. destruct rest as [|field1 rest]; [done|].
  cbn [data_entry]. rewrite Hblank. cbn [truthy negb].
  by rewrite orb_true_r.
Qed.

Lemma fold_add_row_origin rs :
  forall acc k v,
    fst (fold_left add_row rs acc) !! k = Some v ->
    fst acc !! k = Some v
    \/ exists row, row ∈ rs /\ data_entry row = Some (k, v).
Proof.
  induction rs as [|row rs IH]; intros acc k v Hkv; [by left|].
  cbn [fold_left] in Hkv. destruct (IH _ _ _ Hkv) as [Hacc|(row' & Hin & Hrow')].
  - rewrite add_row_entry in Hacc.
    destruct (data_entry row) as [[name pw]|] eqn:Hrow; [|by left].
    cbn [fst] in Hacc. destruct (decide (name = k)) as [->|Hne].
    + rewrite lookup_insert_eq in Hacc. injection Hacc as ->.
      right. exists row. split; [left|done].
    + rewrite lookup_insert_ne in Hacc by done. by left.
  - right. exists row'. split; [by right|done].
Qed.

Lemma try_encodings_origin book encs :
  forall acc log k v,
    loaded_dict (try_encodings book encs acc log) !! k = Some v ->
    fst acc !! k = Some v
    \/ exists encoding delimiter row,
         row ∈ rows (csv_rows book encoding delimiter)
         /\ data_entry row = Some (k, v).
Proof.
  induction encs as [|enc encs IH]; intros acc log k v; [by left|].
  cbn [try_encodings].
  destruct (read_first_line book enc) as [first_line|e]; [|by apply IH].
  set (reading := csv_rows book enc (detect_delimiter first_line)).
  assert (Hrows : fst (fold_left add_row (rows reading) acc) !! k = Some v ->
                  fst acc !! k = Some v
                  \/ exists encoding delimiter row,
                       row ∈ rows (csv_rows book encoding delimiter)
                       /\ data_entry row = Some (k, v)).
  { intros Hkv. destruct (fold_add_row_origin _ _ _ _ Hkv)
      as [Hacc|(row & Hin & Hrow)]; [by left|].
    right. by exists enc, (detect_delimiter first_line), row. }
  destruct (interrupted reading) as [e|]; [|exact Hrows].
  intros Hkv. destruct (IH _ _ _ _ Hkv) as [Hacc|Hrow]; [by apply Hrows|by right].
Qed.

(** C10.  Every entry of the mapping after a load comes from a row of at
    least two fields that the reader yielded: its key is the first field
    stripped, its value the second field stripped; the key is not the empty
    string, and neither starts nor ends with white space, and neither does
    the value.  Row by row: a row of at least two fields is stored under
    its first field stripped, with its second field stripped, unless that
    first field, stripped, is empty or starts with [#], in which case the
    row changes nothing. *)
Theorem loaded_entries_are_stripped (g : ExcelProtectorGUI) (book : book_file)
    (k v : str) :
  truthy (password_book_edit g) = true ->
  lookup_password (load_password_book g true book).1.1 k = Some v ->
  (k <> []
   /\ no_outer_space k = true /\ no_outer_space v = true
   /\ exists encoding delimiter field0 field1 rest,
        (field0 :: field1 :: rest) ∈ rows (csv_rows book encoding delimiter)
        /\ k = strip field0 /\ v = strip field1)
  /\ forall acc field0 field1 rest,
       add_row acc (field0 :: field1 :: rest)
       = if startswith (u "#") (strip field0) || negb (truthy (strip field0))
         then acc
         else (<[strip field0 := strip field1]> (fst acc), S (snd acc)).
Proof.
  intros Hpath Hkv. split.
  2:{ intros acc field0 field1 rest. rewrite add_row_entry.
      cbn [data_entry]. by destruct (_ || _). }
  unfold lookup_password in Hkv.
  rewrite (load_password_book_dict g book Hpath) in Hkv.
  destruct (try_encodings_origin _ _ _ _ _ _ Hkv)
    as [Hempty|(encoding & delimiter & row & Hin & Hrow)].
  { cbn [fst] in Hempty. by rewrite lookup_empty in Hempty. }
  destruct (data_entry_inv _ _ _ Hrow)
    as (Hk & field0 & field1 & rest & -> & -> & ->).
  split; [done|].
  destruct (strip_spec field0) as (_ & _ & _ & _ & _ & Hname).
  destruct (strip_spec field1) as (_ & _ & _ & _ & _ & Hpw).
  split; [done|]. split; [done|].
  by exists encoding, delimiter, field0, field1, rest.
Qed.

Lemma loaded_entries_are_stripped_witness :
  let g := Interface.one_password_missing in
  (truthy (password_book_edit g) = true
   /\ lookup_password (load_password_book g true Book.padded).1.1 (u "a.xlsx")
      = Some (u "second"))
  /\ (u "a.xlsx" <> []
      /\ no_outer_space (u "a.xlsx") = true
      /\ no_outer_space (u "second") = true
      /\ exists encoding delimiter field0 field1 rest,
           (field0 :: field1 :: rest)
             ∈ rows (csv_rows Book.padded encoding delimiter)
           /\ u "a.xlsx" = strip field0 /\ u "second" = strip field1)
  /\ forall acc field0 field1 rest,
       add_row acc (field0 :: field1 :: rest)
       = if startswith (u "#") (strip field0) || negb (truthy (strip field0))
         then acc
         else (<[strip field0 := strip field1]> (fst acc), S (snd acc)).
Proof.
  intros g.
  assert (Hpath : truthy (password_book_edit g) = true) by reflexivity.
  assert (Hkv : lookup_password (load_password_book g true Book.padded).1.1
                  (u "a.xlsx") = Some (u "second"))
    by (vm_compute; reflexivity).
  split; [by split|].
  exact (loaded_entries_are_stripped g Book.padded _ _ Hpath Hkv).
Defined.

(** ** The engine on concrete inputs *)

(** Two workbooks, one password, the suffix _enc: both outputs are written
    with the password, the inputs stay as they were, the result counts two
    successes. *)
Example encrypt_two_workbooks :
  let r := run (H := Sim.platform) Scenario.encrypt_both Sim.never_cancelled
             Scenario.two_workbooks in
  Sim.finished_results (trace r)
  = [ {| success_count := 2; total_count := 2; failed_files := [] |} ]
  /\ Sim.find_file (u "C:\out\A_enc.xlsx") (Sim.files (final r)) = Some (u "pw1")
  /\ Sim.find_file (u "C:\out\B_enc.xlsx") (Sim.files (final r)) = Some (u "pw1")
  /\ Sim.find_file (u "C:\in\A.xlsx") (Sim.files (final r)) = Some []
  /\ count_if is_quit (trace r) = 1.
Proof. repeat split; vm_compute; reflexivity. Qed.

(** A wrong password for the first workbook: it is reported as such, and
    the second workbook is still processed. *)
Example wrong_password_then_next_file :
  let r := run (H := Sim.platform) Scenario.decrypt_with_wrong_password
             Sim.never_cancelled Scenario.protected_workbook in
  Sim.finished_results (trace r)
  = [ {| success_count := 1; total_count := 2;
         failed_files := [ {| failed_filename := u "C.xlsx";
                              failed_error := u "密码错误或密码不匹配" |} ] |} ]
  /\ Sim.find_file (u "C:\out\C.xlsx") (Sim.files (final r)) = None
  /\ Sim.find_file (u "C:\out\D.xlsx") (Sim.files (final r)) = Some [].
Proof. repeat split; vm_compute; reflexivity. Qed.

(** The flag is seen set once the second of three files is done: the third
    is never started and is in neither count. *)
Example cancelled_before_third_file :
  let r := run (H := Sim.platform) Runs.encrypt_three (Sim.cancelled_after 1)
             Runs.three_workbooks in
  Sim.finished_results (trace r)
  = [ {| success_count := 2; total_count := 3; failed_files := [] |} ]
  /\ count_if is_file_status (trace r) = 2
  /\ Sim.find_file (u "C:\out\C.xlsx") (Sim.files (final r)) = None
  /\ count_if is_quit (trace r) = 1.
Proof. repeat split; vm_compute; reflexivity. Qed.

(** A per-file call that raises is recorded like one that returns a
    failure, and the next file is processed. *)
Example raising_call_is_recorded :
  let op := fun fi : file_info =>
    if bool_decide (filename fi = u "A.xlsx")
    then raise (H := Sim.platform) (Exception (u "boom"))
    else ret (true, u "ok", []) in
  result (process_files (H := Sim.platform) op Sim.never_cancelled 2 0
            (file_list Scenario.encrypt_both) 0 [] Scenario.two_workbooks)
  = Return (1, [ {| failed_filename := u "A.xlsx"; failed_error := u "boom" |} ]).
Proof. vm_compute. reflexivity. Qed.

(** A submission that passes validation does run. *)
Example valid_submission_runs :
  let g := preview_new_filenames Runs.both_passwords in
  let r := submit (H := Sim.platform) g Sim.never_cancelled
             Scenario.two_workbooks in
  map col_new_filename (files_table g) = [ u "A_enc.xlsx"; u "B_enc.xlsx" ]
  /\ Sim.finished_results (trace r)
     = [ {| success_count := 2; total_count := 2; failed_files := [] |} ]
  /\ Sim.find_file (u "C:\out\A_enc.xlsx") (Sim.files (final r)) = Some (u "pw1").
Proof. repeat split; vm_compute; reflexivity. Qed.

(** The scan keeps a file named by an extension alone, and drops lock
    files. *)
Example scan_of_folder :
  excel_files (H := Sim.platform)
    [ u "A.xlsx"; u "~$A.xlsx"; u ".xlsx"; u "notes.txt"; u "B.XLS" ]
  = [ u "A.xlsx"; u ".xlsx"; u "B.XLS" ].
Proof. vm_compute. reflexivity. Qed.

(** An open failure of another kind whose message happens to contain the
    word, here through the name of the file, is classified as a wrong
    password too. *)
Example file_name_mentioning_password :
  open_error (H := Sim.platform)
    (Exception (u "Excel cannot open the file 'passwords.xlsx' because the file format is not valid."))
  = wrong_password.
Proof. vm_compute. reflexivity. Qed.

(** * Further properties *)

(** ** Symbolic execution *)

Section ExecutionRules.
Context `{Platform}.

Lemma holds_ret {A} (a : A) Q : Q [] (Return a) -> holds (ret a) Q.
Proof. intros HQ w. exact HQ. Qed.

Lemma holds_raise {A} e (Q : list event -> outcome A -> Prop) :
  Q [] (Raise e) -> holds (raise e) Q.
Proof. intros HQ w. exact HQ. Qed.

Lemma holds_bind {A B} (m : M A) (k : A -> M B) Q :
  holds m (fun tr1 r1 =>
             match r1 with
             | Return a => holds (k a) (fun tr2 r2 => Q (tr1 ++ tr2) r2)
             | Raise e => Q tr1 (Raise e)
             end) ->
  holds (bind m k) Q.
Proof.
  intros Hm w. specialize (Hm w). unfold bind.
  destruct (result (m w)); [apply Hm|exact Hm].
Qed.

Lemma holds_attempt {A} (m : M A) Q :
  holds m (fun tr r => Q tr (Return r)) -> holds (attempt m) Q.
Proof. intros Hm w. apply Hm. Qed.

Lemma holds_do_call c (Q : list event -> outcome (reply c) -> Prop) :
  (forall o, Q [Ext c (raised o)] o) -> holds (do_call c) Q.
Proof. intros HQ w. unfold do_call. destruct (env c w) as [w' o]. apply HQ. Qed.

Lemma holds_emit s Q : Q [Emit s] (Return tt) -> holds (emit s) Q.
Proof. intros HQ w. exact HQ. Qed.

Lemma holds_show d Q : Q [Show d] (Return tt) -> holds (show d) Q.
Proof. intros HQ w. exact HQ. Qed.

(** A part of which only the events matter. *)
Lemma holds_trace_all {A} (m : M A) P (Q : list event -> outcome A -> Prop) :
  trace_all P m -> (forall tr r, Forall P tr -> Q tr r) -> holds m Q.
Proof. intros Hm HQ w. apply HQ, Hm. Qed.

Lemma holds_consequence {A} (m : M A) (Q' Q : list event -> outcome A -> Prop) :
  holds m Q' -> (forall tr r, Q' tr r -> Q tr r) -> holds m Q.
Proof. intros Hm HQ w. apply HQ, Hm. Qed.

End ExecutionRules.

Ltac exec_step :=
  cbv beta iota; cbn [negb fst snd];
  lazymatch goal with
  | |- holds (ret _) _ => apply holds_ret
  | |- holds (raise _) _ => apply holds_raise
  | |- holds (try_pass _) _ => unfold try_pass
  | |- holds (try_finally _ _) _ => unfold try_finally
  | |- holds (try_except _ _) _ => unfold try_except
  | |- holds (path_exists _) _ => unfold path_exists
  | |- holds (ensure_output_dir _) _ => unfold ensure_output_dir
  | |- holds (attempt _) _ => apply holds_attempt
  | |- holds (do_call (OsListdir ?p)) ?Q =>
      apply (holds_do_call (OsListdir p) Q); intros [?|?]
  | |- holds (do_call (AskQuestion ?a ?b)) ?Q =>
      apply (holds_do_call (AskQuestion a b) Q); intros [[]|?]
  | |- holds (do_call ?c) ?Q => apply (holds_do_call c Q); intros [[]|?]
  | |- holds (emit _) _ => apply holds_emit
  | |- holds (show _) _ => apply holds_show
  | |- holds (bind _ _) _ => apply holds_bind
  | |- holds (if ?b then _ else _) _ => destruct b eqn:?
  | |- holds (match ?o with Return _ => _ | Raise _ => _ end) _ => destruct o
  end.

Ltac exec := repeat exec_step; cbv beta iota; cbn [app raised negb].

(** ** What a success of a per-file operation means *)

Section PerFile.
Context `{Platform}.

(** X1.  [encrypt_file] reports a success only with the text 加密成功 and the
    notes it was given, for a password that is not empty, and only after it
    opened the input, set both passwords to that password, saved to the
    output path, found the output there, and closed the workbook: these
    six calls, in this order, end its trace. *)
Theorem encrypt_success_means_saved (name input output pw notes : str)
    (w : World) (status note : str) :
  result (encrypt_file name input output pw notes w)
  = Return (true, status, note) ->
  status = u "加密成功" /\ note = notes /\ pw <> []
  /\ exists pre err,
       trace (encrypt_file name input output pw notes w)
       = pre ++ [Ext (WorkbooksOpen input false None) None;
                 Ext (SetPassword pw) None; Ext (SetWritePassword pw) None;
                 Ext (SaveAs output) None; Ext (OsStat output) None;
                 Ext WbClose err].
Proof.
  revert w.
  change (holds (encrypt_file name input output pw notes)
            (fun tr r =>
               r = Return (true, status, note) ->
               status = u "加密成功" /\ note = notes /\ pw <> []
               /\ exists pre err,
                    tr = pre ++ [Ext (WorkbooksOpen input false None) None;
                                 Ext (SetPassword pw) None;
                                 Ext (SetWritePassword pw) None;
                                 Ext (SaveAs output) None;
                                 Ext (OsStat output) None;
                                 Ext WbClose err])).
  unfold encrypt_file. exec;
    try (unfold encrypt_error; destruct (mentions_password _));
    intros [= <- <-].
  all: split; [reflexivity|]; split; [reflexivity|]; split;
    [by destruct pw|].
  all: first [ by eexists [_; _], _ | by eexists [_; _; _], _ ].
Qed.

(** X2.  [decrypt_file] reports a success only with the text 解密成功 and the
    notes it was given, and only after it opened the input (read-only with
    the password when it has one, plainly otherwise), saved to the output
    path, found the output there, and closed the workbook, which is its
    last call. *)
Theorem decrypt_success_means_saved (name input output pw notes : str)
    (w : World) (status note : str) :
  result (decrypt_file name input output pw notes w)
  = Return (true, status, note) ->
  status = u "解密成功" /\ note = notes
  /\ exists pre mid err,
       trace (decrypt_file name input output pw notes w)
       = pre
         ++ [Ext (if truthy pw
                  then WorkbooksOpen input true (Some pw)
                  else WorkbooksOpen input false None) None]
         ++ mid
         ++ [Ext (SaveAs output) None; Ext (OsStat output) None;
             Ext WbClose err].
Proof.
  revert w.
  change (holds (decrypt_file name input output pw notes)
            (fun tr r =>
               r = Return (true, status, note) ->
               status = u "解密成功" /\ note = notes
               /\ exists pre mid err,
                    tr = pre
                         ++ [Ext (if truthy pw
                                  then WorkbooksOpen input true (Some pw)
                                  else WorkbooksOpen input false None) None]
                         ++ mid
                         ++ [Ext (SaveAs output) None;
                             Ext (OsStat output) None; Ext WbClose err])).
  unfold decrypt_file. exec;
    try (unfold open_error, wrong_password, open_failure;
         destruct (mentions_password _));
    intros [= <- <-].
  all: split; [reflexivity|]; split; [reflexivity|].
  all: first
    [ by eexists [_; _], [_; _], _ | by eexists [_; _], [_; _; _], _
    | by eexists [_; _], [_; _; _; _], _
    | by eexists [_; _; _], [_; _], _ | by eexists [_; _; _], [_; _; _], _
    | by eexists [_; _; _], [_; _; _; _], _ ].
Qed.

End PerFile.

(** ** The order of the calls to Excel *)

Lemma session_after_app s tr1 tr2 s1 :
  session_after s tr1 = Some s1 ->
  session_after s (tr1 ++ tr2) = session_after s1 tr2.
Proof.
  revert s. induction tr1 as [|ev tr1 IH]; intros s; cbn.
  - by intros [= ->].
  - destruct (session_step s ev); [apply IH|done].
Qed.

Lemma session_after_outside s tr :
  Forall (fun ev => forall s', session_step s' ev = Some s') tr ->
  session_after s tr = Some s.
Proof.
  induction 1 as [|ev tr Hev _ IH]; cbn; [done|]. by rewrite Hev.
Qed.

Section RunFacts.
Context `{Platform}.

(** A predicate on traces that the signals of the loop and the per-file
    calls preserve holds of the trace of the loop. *)
Lemma process_files_closed (I : list event -> Prop) op c total files :
  (forall tr s, I tr -> I (tr ++ [Emit s])) ->
  (forall tr fi w, I tr -> I (tr ++ trace (op fi w))) ->
  forall i s f w tr0,
    I tr0 -> I (tr0 ++ trace (process_files op c total i files s f w)).
Proof.
  intros Hemit Hop.
  induction files as [|fi rest IH]; intros i s f w tr0 H0; cbn.
  - by rewrite app_nil_r.
  - destruct (c i); cbn.
    { by apply Hemit. }
    assert (H1 : I ((tr0 ++ [Emit (progress_signal (i + 1) total)])
                    ++ trace (op fi w))) by (by apply Hop, Hemit).
    revert H1. generalize (final (op fi w)).
    destruct (result (op fi w)) as [[[[] status] note]|e]; cbn;
      intros w1 H1.
    all: match goal with
         | |- _ (?t0 ++ ?a :: ?tr ++ ?b :: ?d :: ?rest) =>
             replace (t0 ++ a :: tr ++ b :: d :: rest)
               with (((((t0 ++ [a]) ++ tr) ++ [b]) ++ [d]) ++ rest)
               by (by rewrite <- !app_assoc)
         end.
    all: by apply IH, Hemit, Hemit.
Qed.

(** A per-file call leaves the application as it found it, holding no
    workbook; it leaves a workbook open when its [Close] raised. *)
Lemma process_file_session t fi w k :
  session_after {| stage_of := Application; holding := false; left_open := k |}
    (trace (process_file t fi w))
  = Some {| stage_of := Application; holding := false;
            left_open := count_if is_failed_close (trace (process_file t fi w))
                         + k |}.
Proof.
  revert w.
  change (holds (process_file t fi)
            (fun tr _ =>
               session_after {| stage_of := Application; holding := false;
                                left_open := k |} tr
               = Some {| stage_of := Application; holding := false;
                         left_open := count_if is_failed_close tr + k |})).
  unfold process_file, encrypt_file, decrypt_file. cbv zeta.
  destruct (is_encrypt t).
  all: exec.
  all: reflexivity.
Qed.

(** [clean_temp_files] lists a folder and removes entries, nothing else. *)
Lemma clean_temp_files_calls t :
  trace_all (fun ev => match ev with
                       | Ext (OsListdir _) _ | Ext (OsRemove _) _ => True
                       | _ => False
                       end) (clean_temp_files t).
Proof.
  unfold clean_temp_files. trace_step; [by trace_step|].
  apply trace_all_for_each. intros f _.
  destruct (startswith (u "~$") f); by trace_tac.
Qed.

Lemma clean_temp_files_session t w s :
  session_after s (trace (clean_temp_files t w)) = Some s.
Proof.
  apply session_after_outside.
  eapply Forall_impl; [apply clean_temp_files_calls|].
  by intros [[] err|s0|d0].
Qed.

Lemma start_excel_session t w :
  exists st,
    session_after no_session (trace (start_excel t w))
    = Some {| stage_of := st; holding := false; left_open := 0 |}
    /\ match result (start_excel t w) with
       | Return _ => st = Application
       | Raise _ => st = NoApplication \/ st = Application
       end.
Proof.
  revert w.
  change (holds (start_excel t)
            (fun tr r =>
               exists st,
                 session_after no_session tr
                 = Some {| stage_of := st; holding := false; left_open := 0 |}
                 /\ match r with
                    | Return _ => st = Application
                    | Raise _ => st = NoApplication \/ st = Application
                    end)).
  unfold start_excel. cbn [for_each excel_settings].
  repeat first
    [ lazymatch goal with
      | |- holds (clean_temp_files t) ?Q =>
          intros w; pose proof (clean_temp_files_session t w) as Hclean;
          destruct (result (clean_temp_files t w)) as [[]|e]
      end
    | exec_step ].
  all: cbv beta iota;
    cbn [app raised fst snd session_after session_step no_session
         stage_of holding left_open].
  all: try (eexists; split; [reflexivity|]; auto; fail).
  - eexists. split; [by rewrite (session_after_app _ _ _ _ (Hclean _))|].
    done.
  - eexists. split; [apply Hclean|]. by right.
Qed.

(** The events of the statements before the loop, of the signals and of
    [CoUninitialize] are neither a [Close] nor a [Quit]. *)
Lemma no_close_no_quit tr :
  Forall (fun ev => match ev with
                    | Ext WbClose _ | Ext ExcelQuit _ => False
                    | _ => True
                    end) tr ->
  count_if is_failed_close tr = 0 /\ count_if is_failed_quit tr = 0.
Proof.
  intros Hall. split; apply count_if_none;
    (eapply Forall_impl; [exact Hall|]); by intros [[] [e|]|s0|d0].
Qed.

(** X3.  In every run the calls to Excel come in an order its objects
    allow, errors included: the application is used only after [Dispatch]
    returned it; a workbook is written to, saved and passed to [Close]
    only after an [Open] that returned it; every workbook opened is passed
    to [Close] once, before the next [Open] and before [Quit]; nothing is
    called after [Quit].  An exception of [Close] is swallowed and leaves
    its workbook open: the workbooks left open at the end of a run are as
    many as the calls of [Close] that raised.  [Quit] is called exactly
    when the statements before the loop raised nothing, and it has
    returned exactly when it did not raise. *)
Theorem excel_calls_in_order (t : ProcessingThread)
    (is_cancelled : nat -> bool) (w : World) :
  let tr := trace (run t is_cancelled w) in
  exists st,
    session_after no_session tr
    = Some {| stage_of := st; holding := false;
              left_open := count_if is_failed_close tr |}
    /\ match result (start_excel t w) with
       | Return _ => st = AfterQuit (count_if is_failed_quit tr =? 0)
       | Raise _ => st = NoApplication \/ st = Application
       end.
Proof.
  cbv zeta.
  destruct (start_excel_session t w) as (st & Hstart & Hst).
  assert (Hstart_counts :
            count_if is_failed_close (trace (start_excel t w)) = 0
            /\ count_if is_failed_quit (trace (start_excel t w)) = 0).
  { apply no_close_no_quit.
    eapply Forall_impl; [apply start_excel_events|].
    by intros [[] err|s0|d0]. }
  destruct Hstart_counts as [Hsc Hsq].
  destruct (result (start_excel t w)) as [[]|e] eqn:Hres.
  - subst st.
    destruct (run_trace_started t is_cancelled w Hres) as (counted & _ & ->).
    cbv zeta.
    match goal with
    | |- context [trace (try_pass (do_call ExcelQuit) ?w1)] =>
        destruct (quit_trace w1) as [err1 ->]
    end.
    match goal with
    | |- context [trace (try_pass (do_call CoUninitialize) ?w2)] =>
        destruct (uninitialize_trace w2) as [err2 ->]
    end.
    match goal with
    | |- context [trace ?l ++ [Ext ExcelQuit err1] ++ _] => set (loop := l)
    end.
    assert (Hloop : session_after
                      {| stage_of := Application; holding := false;
                         left_open := 0 |} ([] ++ trace loop)
                    = Some {| stage_of := Application; holding := false;
                              left_open := count_if is_failed_close
                                             ([] ++ trace loop) + 0 |}).
    { apply (process_files_closed
               (fun tr =>
                  session_after {| stage_of := Application; holding := false;
                                   left_open := 0 |} tr
                  = Some {| stage_of := Application; holding := false;
                            left_open := count_if is_failed_close tr + 0 |})).
      - intros tr s Htr. rewrite (session_after_app _ _ _ _ Htr).
        rewrite count_if_app. cbn. by rewrite !Nat.add_0_r.
      - intros tr fi w' Htr. rewrite (session_after_app _ _ _ _ Htr).
        rewrite process_file_session, count_if_app. do 2 f_equal. lia.
      - reflexivity. }
    cbn [app] in Hloop. rewrite Nat.add_0_r in Hloop.
    assert (Hloop_quit : count_if is_failed_quit (trace loop) = 0).
    { apply count_if_none. apply process_files_trace_all; [|done].
      intros fi _.
      unfold process_file, encrypt_file, decrypt_file, ensure_output_dir.
      destruct (is_encrypt t); by trace_tac. }
    rewrite (session_after_app _ _ _ _ Hstart).
    rewrite (session_after_app _ _ _ _ Hloop).
    rewrite !count_if_app, Hsc, Hsq, Hloop_quit.
    eexists. split; [|reflexivity].
    destruct err1, err2; cbn; by rewrite ?Nat.add_0_r.
  - rewrite (run_trace_fault t is_cancelled w e Hres).
    destruct (uninitialize_trace (final (start_excel t w))) as [err ->].
    rewrite (session_after_app _ _ _ _ Hstart).
    rewrite !count_if_app, Hsc. exists st. split; [|exact Hst].
    cbn. done.
Qed.

(** ** The calls of a run *)

(** The events of a run are those of its start-up, of the per-file calls
    on the entries of the list, signals, [Quit] and [CoUninitialize]. *)
Lemma run_trace_all (P : event -> Prop) t c :
  (forall ev, startup_event t ev -> P ev) ->
  (forall fi, fi ∈ file_list t -> trace_all P (process_file t fi)) ->
  (forall s, P (Emit s)) ->
  (forall err, P (Ext ExcelQuit err)) ->
  (forall err, P (Ext CoUninitialize err)) ->
  trace_all P (run t c).
Proof.
  intros Hstart Hfile Hemit Hquit Hun.
  unfold run, finished_processing.
  apply trace_all_try_finally; [|by trace_tac].
  apply trace_all_try_except; [|intros e; by trace_tac].
  apply trace_all_bind.
  { intros w. eapply Forall_impl; [apply start_excel_events|]. apply Hstart. }
  intros _. apply trace_all_bind.
  { apply process_files_trace_all; [exact Hfile|]. intros s _. apply Hemit. }
  intros counted. by trace_tac.
Qed.

(** X4.  A run that encrypts opens every workbook for writing and without
    a password, sets no password but the non-empty password of an entry of
    its list, and removes nothing but lock files of the input folder: an
    output that exists is never removed first, and no workbook is saved
    with an empty password. *)
Theorem encrypt_run_calls (t : ProcessingThread)
    (is_cancelled : nat -> bool) (w : World) :
  is_encrypt t = true ->
  Forall (encrypt_event t) (trace (run t is_cancelled w)).
Proof.
  intros Henc. revert w. apply run_trace_all; try done.
  - by intros [[] err|s0|d0].
  - intros fi Hfi.
    unfold process_file, encrypt_file, ensure_output_dir. rewrite Henc.
    destruct (truthy (password fi)) eqn:Hpw; cbn [negb]; trace_tac;
      first [ exact I | done
            | split; [by destruct (password fi)|by exists fi] ].
Qed.

(** X5.  A run that decrypts opens each workbook read-only with the
    password of its entry, or for writing and without a password when the
    entry has none, and every password it sets is the empty one. *)
Theorem decrypt_run_calls (t : ProcessingThread)
    (is_cancelled : nat -> bool) (w : World) :
  is_encrypt t = false ->
  Forall (decrypt_event t) (trace (run t is_cancelled w)).
Proof.
  intros Hdec. revert w. apply run_trace_all; try done.
  - by intros [[] err|s0|d0].
  - intros fi Hfi.
    unfold process_file, decrypt_file, ensure_output_dir. rewrite Hdec.
    destruct (truthy (password fi)) eqn:Hpw; trace_tac;
      first [ exact I | done | exists fi; by rewrite Hpw ].
Qed.

(** X6.  Every run, whatever is raised in it, starts with the one call of
    [CoInitialize] and ends with the one call of [CoUninitialize]. *)
Theorem com_initialised_first_released_last (t : ProcessingThread)
    (is_cancelled : nat -> bool) (w : World) :
  (exists err, head (trace (run t is_cancelled w))
               = Some (Ext CoInitialize err))
  /\ (exists err, last (trace (run t is_cancelled w))
                  = Some (Ext CoUninitialize err))
  /\ count_if is_co_initialize (trace (run t is_cancelled w)) = 1
  /\ count_if is_co_uninitialize (trace (run t is_cancelled w)) = 1.
Proof.
  set (quiet := fun ev => is_co_initialize ev = false
                          /\ is_co_uninitialize ev = false).
  assert (Hstart : exists err rest,
             trace (start_excel t w) = Ext CoInitialize err :: rest
             /\ Forall quiet rest).
  { unfold start_excel. rewrite bind_trace.
    assert (Hcall : exists err,
               trace (do_call CoInitialize w) = [Ext CoInitialize err]).
    { unfold do_call. destruct (env CoInitialize w) as [w' o]. by eexists. }
    destruct Hcall as [err ->]. exists err. eexists. split; [reflexivity|].
    destruct (result (do_call CoInitialize w)); [|constructor].
    match goal with |- Forall _ (trace (?m ?w')) => generalize w' end.
    match goal with
    | |- forall w', Forall quiet (trace (?m w')) =>
        change (trace_all quiet m)
    end.
    trace_tac; try done.
    - apply trace_all_for_each. intros kv _. by trace_tac.
    - intros w'. eapply Forall_impl; [apply clean_temp_files_calls|].
      by intros [[] err'|s0|d0]. }
  destruct Hstart as (err & rest & Htr & Hrest).
  assert (Hcount : forall p tr,
             Forall (fun ev => p ev = false) tr -> count_if p tr = 0)
    by (intros p tr; apply count_if_none).
  assert (Hrest1 : count_if is_co_initialize rest = 0).
  { apply Hcount. eapply Forall_impl; [exact Hrest|]. by intros ev []. }
  assert (Hrest2 : count_if is_co_uninitialize rest = 0).
  { apply Hcount. eapply Forall_impl; [exact Hrest|]. by intros ev []. }
  destruct (result (start_excel t w)) as [[]|e] eqn:Hres.
  - destruct (run_trace_started t is_cancelled w Hres) as (counted & _ & ->).
    cbv zeta.
    match goal with
    | |- context [trace (try_pass (do_call ExcelQuit) ?w1)] =>
        destruct (quit_trace w1) as [err1 ->]
    end.
    match goal with
    | |- context [trace (try_pass (do_call CoUninitialize) ?w2)] =>
        destruct (uninitialize_trace w2) as [err2 ->]
    end.
    match goal with
    | |- context [trace ?l ++ [Ext ExcelQuit err1] ++ _] =>
        assert (Hloop : Forall quiet (trace l))
    end.
    { apply process_files_trace_all; [|done].
      intros fi _.
      unfold process_file, encrypt_file, decrypt_file, ensure_output_dir.
      destruct (is_encrypt t); trace_tac; by split. }
    rewrite Htr. split; [by eexists|]. split.
    { exists err2. rewrite !app_assoc. apply last_snoc. }
    rewrite !count_if_app. cbn. rewrite Hrest1, Hrest2.
    rewrite !Hcount; [done| |].
    + eapply Forall_impl; [exact Hloop|]. by intros ev [].
    + eapply Forall_impl; [exact Hloop|]. by intros ev [].
  - rewrite (run_trace_fault t is_cancelled w e Hres).
    destruct (uninitialize_trace (final (start_excel t w))) as [err2 ->].
    rewrite Htr. split; [by eexists|]. split.
    { exists err2. rewrite !app_assoc. apply last_snoc. }
    rewrite !count_if_app. cbn. by rewrite Hrest1, Hrest2.
Qed.

End RunFacts.

(** Concrete runs of the properties above that have a premise. *)

Lemma encrypt_success_means_saved_witness :
  let r := encrypt_file (H := Sim.platform) (u "A.xlsx") (u "C:\in\A.xlsx")
             (u "C:\out\A_enc.xlsx") (u "pw1") [] Scenario.two_workbooks in
  result r = Return (true, u "加密成功", [])
  /\ u "pw1" <> []
  /\ exists pre err,
       trace r
       = pre ++ [Ext (WorkbooksOpen (u "C:\in\A.xlsx") false None) None;
                 Ext (SetPassword (u "pw1")) None;
                 Ext (SetWritePassword (u "pw1")) None;
                 Ext (SaveAs (u "C:\out\A_enc.xlsx")) None;
                 Ext (OsStat (u "C:\out\A_enc.xlsx")) None;
                 Ext WbClose err].
Proof.
  intros r.
  assert (Hr : result r = Return (true, u "加密成功", []))
    by (vm_compute; reflexivity).
  split; [exact Hr|].
  exact (proj2 (proj2 (encrypt_success_means_saved (H := Sim.platform)
                         (u "A.xlsx") (u "C:\in\A.xlsx")
                         (u "C:\out\A_enc.xlsx") (u "pw1") []
                         Scenario.two_workbooks (u "加密成功") [] Hr))).
Defined.

Lemma decrypt_success_means_saved_witness :
  let r := decrypt_file (H := Sim.platform) (u "C.xlsx") (u "C:\in\C.xlsx")
             (u "C:\out\C.xlsx") (u "secret") []
             Scenario.protected_workbook in
  result r = Return (true, u "解密成功", [])
  /\ exists pre mid err,
       trace r
       = pre
         ++ [Ext (if truthy (u "secret")
                  then WorkbooksOpen (u "C:\in\C.xlsx") true
                         (Some (u "secret"))
                  else WorkbooksOpen (u "C:\in\C.xlsx") false None) None]
         ++ mid
         ++ [Ext (SaveAs (u "C:\out\C.xlsx")) None;
             Ext (OsStat (u "C:\out\C.xlsx")) None; Ext WbClose err].
Proof.
  intros r.
  assert (Hr : result r = Return (true, u "解密成功", []))
    by (vm_compute; reflexivity).
  split; [exact Hr|].
  exact (proj2 (proj2 (decrypt_success_means_saved (H := Sim.platform)
                         (u "C.xlsx") (u "C:\in\C.xlsx")
                         (u "C:\out\C.xlsx") (u "secret") []
                         Scenario.protected_workbook (u "解密成功") [] Hr))).
Defined.

Lemma encrypt_run_calls_witness :
  is_encrypt Scenario.encrypt_both = true
  /\ Forall (encrypt_event (H := Sim.platform) Scenario.encrypt_both)
       (trace (run (H := Sim.platform) Scenario.encrypt_both
                 Sim.never_cancelled Scenario.two_workbooks)).
Proof.
  split; [reflexivity|].
  apply (encrypt_run_calls (H := Sim.platform)). reflexivity.
Defined.

Lemma decrypt_run_calls_witness :
  is_encrypt Scenario.decrypt_with_wrong_password = false
  /\ Forall (decrypt_event (H := Sim.platform)
               Scenario.decrypt_with_wrong_password)
       (trace (run (H := Sim.platform) Scenario.decrypt_with_wrong_password
                 Sim.never_cancelled Scenario.protected_workbook)).
Proof.
  split; [reflexivity|].
  apply (decrypt_run_calls (H := Sim.platform)). reflexivity.
Defined.

(** ** Validation and start *)

Section Submission.
Context `{Platform}.

(** [validate_selection] returns, and what its acceptance means. *)
Lemma validate_selection_accepts (g : ExcelProtectorGUI) :
  holds (validate_selection g)
    (fun tr r =>
       exists ok msg,
         r = Return (ok, msg)
         /\ (ok = true ->
             get_selected_files g <> []
             /\ output_folder_edit g <> []
             /\ tr = [Ext (OsMakedirs (output_folder_edit g)) None]
             /\ (encrypt_radio g = true ->
                 Forall (fun fi => password fi <> [])
                   (get_selected_files g)))).
Proof.
  unfold validate_selection. cbv zeta.
  destruct (get_selected_files g) as [|fi0 files0] eqn:Hsel.
  { apply holds_ret. by eexists _, _. }
  destruct (truthy (output_folder_edit g)) eqn:Hout; cbn [negb].
  2:{ apply holds_ret. by eexists _, _. }
  apply holds_bind, holds_attempt.
  apply (holds_do_call (OsMakedirs (output_folder_edit g))).
  intros [[]|e]; cbv beta iota; cbn [raised app].
  2:{ apply holds_ret. by eexists _, _. }
  assert (Hne : output_folder_edit g <> [])
    by (by destruct (output_folder_edit g)).
  destruct (encrypt_radio g) eqn:Henc.
  - destruct (filter (fun fi => truthy (password fi) = false)
                (fi0 :: files0)) as [|bad rest] eqn:Hfilter; cbn [map];
      apply holds_ret; eexists _, _; (split; [reflexivity|]); [|done].
    intros _. split; [done|]. split; [done|]. split; [done|].
    intros _. apply Forall_forall. intros fi Hfi Hpw.
    assert (Hin : fi ∈ filter (fun fi => truthy (password fi) = false)
                         (fi0 :: files0)).
    { apply list_elem_of_filter. split; [by rewrite Hpw|done]. }
    rewrite Hfilter in Hin. by apply elem_of_nil in Hin.
  - apply holds_ret. eexists _, _. split; [reflexivity|]. by intros _.
Qed.

(** X7.  [validate_selection] always returns, and it accepts exactly when
    at least one row is checked, the output folder box is not empty,
    [os.makedirs] of that folder succeeded (this call is then all it did)
    and, when encrypting, every checked row has a password.  When it
    accepts, its message is empty. *)
Theorem validation_accepts_iff (g : ExcelProtectorGUI) (w : World) :
  exists ok msg,
    result (validate_selection g w) = Return (ok, msg)
    /\ (ok = true -> msg = [])
    /\ (ok = true <->
        get_selected_files g <> []
        /\ output_folder_edit g <> []
        /\ trace (validate_selection g w)
           = [Ext (OsMakedirs (output_folder_edit g)) None]
        /\ (encrypt_radio g = true ->
            Forall (fun fi => password fi <> []) (get_selected_files g))).
Proof.
  revert w.
  change (holds (validate_selection g)
            (fun tr r =>
               exists ok msg,
                 r = Return (ok, msg)
                 /\ (ok = true -> msg = [])
                 /\ (ok = true <->
                     get_selected_files g <> []
                     /\ output_folder_edit g <> []
                     /\ tr = [Ext (OsMakedirs (output_folder_edit g)) None]
                     /\ (encrypt_radio g = true ->
                         Forall (fun fi => password fi <> [])
                           (get_selected_files g))))).
  unfold validate_selection. cbv zeta.
  destruct (get_selected_files g) as [|fi0 files0] eqn:Hsel.
  { apply holds_ret. eexists _, _. split; [reflexivity|].
    split; [done|]. split; [done|]. by intros [? _]. }
  destruct (truthy (output_folder_edit g)) eqn:Hout; cbn [negb].
  2:{ apply holds_ret. eexists _, _. split; [reflexivity|].
      split; [done|]. split; [done|]. intros (_ & Hne & _).
      by destruct (output_folder_edit g). }
  apply holds_bind, holds_attempt.
  apply (holds_do_call (OsMakedirs (output_folder_edit g))).
  intros [[]|e]; cbv beta iota; cbn [raised app].
  2:{ apply holds_ret. eexists _, _. split; [reflexivity|].
      split; [done|]. split; [done|]. by intros (_ & _ & [=] & _). }
  destruct (encrypt_radio g) eqn:Henc.
  - destruct (filter (fun fi => truthy (password fi) = false)
                (fi0 :: files0)) as [|bad rest] eqn:Hfilter; cbn [map].
    + apply holds_ret. eexists _, _. split; [reflexivity|].
      split; [done|]. split; [|done]. intros _. split; [done|].
      split; [by destruct (output_folder_edit g)|]. split; [done|].
      intros _. apply Forall_forall. intros fi Hfi Hpw.
      assert (Hin : fi ∈ filter (fun fi => truthy (password fi) = false)
                           (fi0 :: files0)).
      { apply list_elem_of_filter. split; [by rewrite Hpw|done]. }
      rewrite Hfilter in Hin. by apply elem_of_nil in Hin.
    + apply holds_ret. eexists _, _. split; [reflexivity|].
      split; [done|]. split; [done|]. intros (_ & _ & _ & Hall).
      specialize (Hall eq_refl). rewrite Forall_forall in Hall.
      assert (Hin : bad ∈ filter (fun fi => truthy (password fi) = false)
                            (fi0 :: files0))
        by (rewrite Hfilter; left).
      apply list_elem_of_filter in Hin as [Hbad Hin].
      specialize (Hall bad Hin). by destruct (password bad).
  - apply holds_ret. eexists _, _. split; [reflexivity|].
    split; [done|]. split; [|done]. intros _. split; [done|].
    split; [by destruct (output_folder_edit g)|]. by split.
Qed.


(** The thread that [start_processing] creates. *)
Lemma start_processing_thread (g : ExcelProtectorGUI) (t : ProcessingThread)
    (w : World) :
  result (start_processing g w) = Return (Some t) ->
  t = new_thread (input_folder_edit g) (output_folder_edit g)
        (get_selected_files g) (encrypt_radio g).
Proof.
  revert w.
  change (holds (start_processing g)
            (fun _ r =>
               r = Return (Some t) ->
               t = new_thread (input_folder_edit g) (output_folder_edit g)
                     (get_selected_files g) (encrypt_radio g))).
  unfold start_processing. cbv zeta.
  repeat first
    [ lazymatch goal with
      | |- holds (validate_selection g) _ =>
          apply (holds_consequence _ _ _ (validate_selection_accepts g));
          intros tr r (ok & msg & -> & _); destruct ok
      end
    | exec_step ].
  all: cbv beta iota; cbn [negb fst snd]; by intros [= <-].
Qed.


End Submission.

(** ** Renaming *)

Lemma splitext_app f n e : splitext f = (n, e) -> f = n ++ e.
Proof.
  unfold splitext.
  destruct ((last_sep f <? rfind dot f)%Z && _); intros [= <- <-].
  - by rewrite take_drop.
  - by rewrite app_nil_r.
Qed.

(** The stem and the extension of a renamed file. *)
Lemma splitext_renamed f n e s :
  splitext f = (n, e) -> backslash ∉ s -> slash ∉ s -> e <> [] \/ dot ∉ s ->
  splitext ((n ++ s) ++ e) = (n ++ s, e).
Proof.
  intros Hsplit Hbs Hsl Hcase.
  destruct e as [|c e'].
  - destruct Hcase as [He|Hdot]; [done|].
    pose proof (splitext_app f n [] Hsplit) as Hf.
    rewrite app_nil_r in Hf. subst n. rewrite app_nil_r.
    by apply splitext_none_app.
  - destruct (splitext_inv f n (c :: e') Hsplit)
      as (_ & Hdot & Hbe & Hse & Hstem); [done|].
    apply splitext_intro; try done.
    assert (Hsep : last_sep (n ++ s) = last_sep n)
      by (by apply last_sep_app).
    rewrite Hsep. pose proof (last_sep_bounds n).
    rewrite drop_app_le by lia. by rewrite existsb_app, Hstem.
Qed.

Lemma rename_parts f s n e :
  splitext f = (n, e) -> s <> [] -> rename f s = n ++ s ++ e.
Proof. intros Hsplit Hs. unfold rename. rewrite Hsplit. by destruct s. Qed.

Lemma rename_empty f : rename f [] = f.
Proof. unfold rename. by destruct (splitext f). Qed.

(** X9.  The new name equals the old one exactly when the suffix is
    empty: a non-empty suffix makes the name longer by its length. *)
Theorem rename_keeps_name_iff_no_suffix (f s : str) :
  (rename f s = f <-> s = [])
  /\ length (rename f s) = length f + length s.
Proof.
  destruct (splitext f) as [n e] eqn:Hsplit.
  pose proof (splitext_app f n e Hsplit) as Hf.
  assert (Hlen : length (rename f s) = length f + length s).
  { destruct s as [|c s']; [rewrite rename_empty; simpl; lia|].
    rewrite (rename_parts f _ n e Hsplit) by done.
    rewrite Hf, !length_app. lia. }
  split; [|exact Hlen]. split.
  - intros Heq. rewrite Heq in Hlen. destruct s; [done|]. simpl in Hlen. lia.
  - intros ->. apply rename_empty.
Qed.

(** X10.  With a suffix that contains no dot and no path separator,
    different file names get different new names. *)
Theorem rename_injective (s f1 f2 : str) :
  dot ∉ s -> backslash ∉ s -> slash ∉ s ->
  rename f1 s = rename f2 s -> f1 = f2.
Proof.
  intros Hdot Hbs Hsl Heq.
  destruct s as [|c s']; [by rewrite !rename_empty in Heq|].
  destruct (splitext f1) as [n1 e1] eqn:H1.
  destruct (splitext f2) as [n2 e2] eqn:H2.
  rewrite (rename_parts f1 _ n1 e1 H1), (rename_parts f2 _ n2 e2 H2) in Heq
    by done.
  pose proof (splitext_renamed f1 n1 e1 (c :: s') H1 Hbs Hsl (or_intror Hdot))
    as Hr1.
  pose proof (splitext_renamed f2 n2 e2 (c :: s') H2 Hbs Hsl (or_intror Hdot))
    as Hr2.
  rewrite <- !app_assoc in Hr1, Hr2. rewrite Heq in Hr1.
  rewrite Hr1 in Hr2. injection Hr2 as Hn He.
  apply app_inv_tail in Hn.
  rewrite (splitext_app f1 n1 e1 H1), (splitext_app f2 n2 e2 H2).
  congruence.
Qed.

Ltac absent :=
  let Hin := fresh "Hin" in
  intros Hin; apply (bool_decide_pack _) in Hin; vm_compute in Hin;
  exact Hin.

Lemma rename_injective_witness :
  ((dot ∉ u "_enc") /\ (backslash ∉ u "_enc") /\ (slash ∉ u "_enc")
   /\ rename (u "A.xlsx") (u "_enc") = rename (u "A.xlsx") (u "_enc"))
  /\ u "A.xlsx" = u "A.xlsx".
Proof.
  assert (Hd : dot ∉ u "_enc") by absent.
  assert (Hb : backslash ∉ u "_enc") by absent.
  assert (Hs : slash ∉ u "_enc") by absent.
  split; [done|].
  exact (rename_injective (u "_enc") (u "A.xlsx") (u "A.xlsx") Hd Hb Hs
           eq_refl).
Defined.

(** ** The table and the jobs *)

Lemma get_selected_preview g :
  get_selected_files (preview_new_filenames g)
  = map (fun fi =>
           {| filename := filename fi;
              new_filename := rename (filename fi) (strip (suffix_edit g));
              password := password fi;
              notes := notes fi |})
      (get_selected_files g).
Proof.
  unfold get_selected_files, preview_new_filenames. cbn.
  induction (files_table g) as [|row rows IH]; [done|].
  cbn [map]. rewrite !filter_cons. cbn.
  destruct (decide (checked row = true)); cbn; by rewrite IH.
Qed.

(** X11.  After [preview_new_filenames], with a suffix (the text of the
    suffix box, stripped) that contains no dot and no path separator: the
    jobs of a table whose checked rows have different file names have
    different new names, so that no two jobs write the same file; each
    job's new name is [rename] of its file name. *)
Theorem previewed_jobs_have_distinct_outputs (g : ExcelProtectorGUI) :
  let s := strip (suffix_edit g) in
  let jobs := get_selected_files (preview_new_filenames g) in
  dot ∉ s -> backslash ∉ s -> slash ∉ s ->
  NoDup (map filename (get_selected_files g)) ->
  Forall (fun fi => new_filename fi = rename (filename fi) s) jobs
  /\ map filename jobs = map filename (get_selected_files g)
  /\ map password jobs = map password (get_selected_files g)
  /\ NoDup (map new_filename jobs).
Proof.
  intros s jobs Hdot Hbs Hsl Hnodup. unfold jobs.
  rewrite get_selected_preview. fold s.
  split; [|split; [|split]].
  - apply Forall_forall. intros fi Hfi.
    apply list_elem_of_fmap in Hfi as (fi0 & -> & _). done.
  - rewrite <- list_fmap_compose. done.
  - rewrite <- list_fmap_compose. done.
  - rewrite <- list_fmap_compose.
    change (NoDup (map (fun fi => rename (filename fi) s)
                     (get_selected_files g))).
    replace (map (fun fi => rename (filename fi) s) (get_selected_files g))
      with (map (fun f => rename f s) (map filename (get_selected_files g)))
      by (by rewrite <- list_fmap_compose).
    apply NoDup_fmap_2; [|exact Hnodup].
    intros f1 f2. by apply rename_injective.
Qed.

(** ** Saving into the input folder *)

Section SameFolder.
Context `{Platform}.

(** X12.  With the box for the same folder checked and no suffix, a
    submission that starts creates a thread whose output folder is its
    input folder and whose entries keep their names: whatever the
    confirmation says, every save of its runs goes onto the input file of
    an entry of the list, and every removal is of such a file or of a lock
    file of the input folder. *)
Theorem same_folder_without_suffix_overwrites_inputs
    (g : ExcelProtectorGUI) (w : World) (t : ProcessingThread) :
  strip (suffix_edit g) = [] ->
  result (start_processing
            (preview_new_filenames (on_same_folder_changed g true)) w)
  = Return (Some t) ->
  output_path t = input_path t
  /\ Forall (fun fi => new_filename fi = filename fi) (file_list t)
  /\ forall is_cancelled w',
       Forall (onto_inputs t) (trace (run t is_cancelled w')).
Proof.
  intros Hsuffix Hres.
  pose proof (start_processing_thread _ t w Hres) as Ht.
  assert (Hpaths : output_path t = input_path t) by (by rewrite Ht).
  assert (Hnames : Forall (fun fi => new_filename fi = filename fi)
                     (file_list t)).
  { rewrite Ht. cbn [file_list new_thread]. rewrite get_selected_preview.
    change (suffix_edit (on_same_folder_changed g true))
      with (suffix_edit g).
    rewrite Hsuffix.
    apply Forall_forall. intros fi Hfi.
    apply list_elem_of_fmap in Hfi as (fi0 & -> & _).
    apply rename_empty. }
  split; [exact Hpaths|]. split; [exact Hnames|].
  intros c. apply run_trace_all; try done.
  - intros [[] err|s0|d0]; try done. intros Hlock. by left.
  - intros fi Hfi w'.
    eapply Forall_impl; [by apply process_file_confined|].
    assert (Hin : forall p, output_of t p -> input_of t p).
    { intros p (fi' & Hfi' & ->). exists fi'. split; [done|].
      rewrite Forall_forall in Hnames. by rewrite Hpaths, (Hnames fi' Hfi'). }
    intros [[] err|s0|d0]; try done; cbn.
    + intros [Hlock|Hout]; [by left|right; by apply Hin].
    + apply Hin.
Qed.

End SameFolder.

(** ** Matching the table against the password book *)

(** X13.  [match_passwords_from_book] gives every row whose file name is a
    key of the mapping the password stored for it and the note 来自密码本,
    whatever password the row had, and leaves the other rows as they are;
    it returns the number of rows it changed, and a second matching
    changes nothing and returns the same number. *)
Theorem matching_overwrites_and_is_idempotent (g : ExcelProtectorGUI) :
  let g' := (match_passwords_from_book g).1 in
  let n := (match_passwords_from_book g).2 in
  Forall2 (fun row row' =>
             match lookup_password g (col_filename row) with
             | Some pw => col_password row' = pw
                          /\ col_notes row' = u "来自密码本"
                          /\ col_filename row' = col_filename row
                          /\ checked row' = checked row
                          /\ col_status row' = col_status row
                          /\ col_new_filename row' = col_new_filename row
             | None => row' = row
             end)
    (files_table g) (files_table g')
  /\ n = length (filter (fun row => is_Some (lookup_password g
                                                (col_filename row)))
                   (files_table g))
  /\ match_passwords_from_book g' = (g', n).
Proof.
  intros g' n. unfold g', n, match_passwords_from_book, lookup_password.
  cbn [fst snd files_table set_files_table password_dict].
  set (d := password_dict g). clearbody d.
  split; [|split].
  - rewrite <- list_fmap_compose. apply Forall2_fmap_r, Forall_Forall2_diag.
    apply Forall_forall. intros row _. cbn. unfold match_row.
    by destruct (d !! col_filename row).
  - induction (files_table g) as [|row rows IH]; [done|].
    cbn [map list_sum]. rewrite filter_cons. unfold match_row at 1.
    destruct (d !! col_filename row) eqn:Hd.
    + rewrite decide_True by eauto. cbn. by rewrite <- IH.
    + rewrite decide_False by (by intros [? ?]). cbn. by rewrite <- IH.
  - assert (Hrow : forall row,
               match_row d (match_row d row).1 = match_row d row).
    { intros row. unfold match_row at 2 3.
      destruct (d !! col_filename row) eqn:Hd; cbn;
        unfold match_row; cbn; by rewrite Hd. }
    assert (Hrows : map (match_row d) (map fst (map (match_row d)
                                                  (files_table g)))
                    = map (match_row d) (files_table g)).
    { rewrite <- !list_fmap_compose. apply list_fmap_ext.
      intros i row _. apply Hrow. }
    cbn [map] in Hrows. by rewrite Hrows.
Qed.

(** X14.  Loading a password book with automatic matching on, when the
    file reads without an exception under some encoding of the list: no
    error box is shown, and every row of the table whose file name has a
    data row in the file gets the password of the last such row, stripped,
    and the note 来自密码本; the file names, check boxes, states and new
    names of the table stay. *)
Theorem loaded_book_fills_table (g : ExcelProtectorGUI) (book : book_file)
    (encoding : string) (rs : list (list str)) :
  truthy (password_book_edit g) = true ->
  auto_match_check g = true ->
  first_clean book encodings = Some (encoding, rs) ->
  (load_password_book g true book).2 = None
  /\ Forall2 (fun row row' =>
                col_filename row' = col_filename row
                /\ checked row' = checked row
                /\ col_status row' = col_status row
                /\ col_new_filename row' = col_new_filename row
                /\ match last_password (col_filename row) rs with
                   | Some pw => col_password row' = pw
                                /\ col_notes row' = u "来自密码本"
                   | None => True
                   end)
       (files_table g) (files_table (load_password_book g true book).1.1).
Proof.
  intros Hpath Hauto Hclean.
  destruct (try_encodings_clean book encodings (∅, 0) [] encoding rs Hclean)
    as (acc' & Hok & Hdict & _).
  unfold load_password_book. rewrite Hpath. cbn [negb orb].
  remember (try_encodings book encodings (∅, 0) []) as loading eqn:Hload.
  clear Hload. cbv zeta. rewrite Hok.
  change (auto_match_check (set_password_dict g _))
    with (auto_match_check g).
  rewrite Hauto. unfold match_passwords_from_book.
  cbn [fst snd files_table set_files_table set_password_dict password_dict].
  split; [done|].
  rewrite <- list_fmap_compose. apply Forall2_fmap_r, Forall_Forall2_diag.
  apply Forall_forall. intros row _. unfold compose, match_row.
  rewrite Hdict, fold_add_row_lookup.
  destruct (last_password (col_filename row) rs) as [pw|]; [done|].
  by destruct (acc'.1 !! col_filename row).
Qed.

(** ** The end of a run, as the interface shows it *)

Section Finished.
Context `{Platform}.

(** The result a run hands over, in terms of the entries visited. *)
Lemma run_finished_result t c w r :
  Emit (finished_signal r) ∈ trace (run t c w) ->
  let n := attempted c 0 (length (file_list t)) in
  let outs := attempt_each (process_file t) (take n (file_list t))
                (final (start_excel t w)) in
  r = {| success_count := successes outs;
         total_count := length (file_list t);
         failed_files := omap failure_entry outs |}.
Proof.
  intros Hin n outs.
  pose proof (start_excel_events t w) as Hstart_events.
  rewrite Forall_forall in Hstart_events.
  destruct (uninitialize_trace (final (start_excel t w))) as [erru Huninit].
  destruct (result (start_excel t w)) as [[]|e] eqn:Hstart.
  - destruct (run_trace_started t c w Hstart) as (counted & Hres & Htrace).
    cbv zeta in Hres, Htrace.
    match type of Htrace with
    | context [trace (try_pass (do_call ExcelQuit) ?w1)] =>
        destruct (quit_trace w1) as [errq Hquit];
        destruct (uninitialize_trace
                    (final (try_pass (do_call ExcelQuit) w1)))
          as [erru' Huninit']
    end.
    rewrite Hquit, Huninit' in Htrace. clear Hquit Huninit'.
    match type of Htrace with
    | context [trace ?l ++ [Ext ExcelQuit errq] ++ _] =>
        assert (Hloop : Forall (fun ev => forall r0,
                                  ev <> Emit (finished_signal r0))
                          (trace l))
    end.
    { apply process_files_trace_all.
      - intros fi _ w'. eapply Forall_impl; [apply process_file_ext|].
        by intros [c0 err|s0|d0].
      - intros s0 Hs0 r0 [= ->]. by apply (Hs0 r0). }
    rewrite Forall_forall in Hloop.
    destruct (process_files_spec (process_file t) c (length (file_list t))
                (file_list t) 0 0 [] (final (start_excel t w)))
      as [Hspec _].
    cbv zeta in Hspec. rewrite Hspec in Hres. injection Hres as <-.
    rewrite Htrace in Hin. rewrite !elem_of_app in Hin.
    destruct Hin as [Hin|[Hin|[Hin|[Hin|Hin]]]].
    + by destruct (not_finished_startup t _ (Hstart_events _ Hin) r).
    + by destruct (Hloop _ Hin r).
    + by apply list_elem_of_singleton in Hin.
    + apply elem_of_cons in Hin as [Hin|Hin]; [done|].
      apply list_elem_of_singleton in Hin. by injection Hin.
    + by apply list_elem_of_singleton in Hin.
  - rewrite (run_trace_fault t c w e Hstart), Huninit in Hin.
    rewrite !elem_of_app in Hin. destruct Hin as [Hin|[Hin|Hin]].
    + by destruct (not_finished_startup t _ (Hstart_events _ Hin) r).
    + apply elem_of_cons in Hin as [Hin|Hin]; [done|].
      by apply list_elem_of_singleton in Hin.
    + by apply list_elem_of_singleton in Hin.
Qed.

Lemma str_of_Z_nat n : str_of_Z (Z.of_nat n) = str_of_nat n.
Proof.
  unfold str_of_Z. destruct (Z.ltb_spec (Z.of_nat n) 0); [lia|].
  by rewrite Zabs2Nat.id.
Qed.

(** X15.  The box that [processing_finished] shows for the result of a
    run gives as failed the files that failed plus the files that a
    cancellation left unvisited, while its details list the files that
    failed only (and are absent when none did); the interface is no longer
    processing. *)
Theorem finished_box_counts_unvisited_as_failed (g : ExcelProtectorGUI)
    (t : ProcessingThread) (is_cancelled : nat -> bool) (w : World)
    (r : results) :
  Emit (finished_signal r) ∈ trace (run t is_cancelled w) ->
  let unvisited :=
    length (file_list t) - attempted is_cancelled 0 (length (file_list t)) in
  let box := (processing_finished g r).1.2 in
  box_text box
  = u "处理完成！" ++ newline
    ++ u "总文件数：" ++ str_of_nat (length (file_list t)) ++ newline
    ++ u "成功处理：" ++ str_of_nat (success_count r) ++ newline
    ++ u "失败：" ++ str_of_nat (length (failed_files r) + unvisited)
  /\ (box_details box = None <-> failed_files r = [])
  /\ ((forall i, is_cancelled i = false) -> unvisited = 0)
  /\ is_processing (processing_finished g r).1.1 = false.
Proof.
  intros Hin unvisited box.
  pose proof (run_finished_result t is_cancelled w r Hin) as Hr.
  cbv zeta in Hr.
  set (n := attempted is_cancelled 0 (length (file_list t))) in *.
  set (outs := attempt_each (process_file t) (take n (file_list t))
                 (final (start_excel t w))) in *.
  pose proof (attempted_le is_cancelled 0 (length (file_list t))) as Hle.
  fold n in Hle.
  pose proof (successes_failures outs) as Hsum.
  assert (Hlen : length outs = n).
  { unfold outs. rewrite attempt_each_length, length_take. lia. }
  assert (Hshown : failed_shown r
                   = Z.of_nat (length (failed_files r) + unvisited)).
  { unfold failed_shown, unvisited. rewrite Hr. cbn. fold n. lia. }
  split; [|split; [|split]].
  - unfold box, processing_finished. cbn [fst snd box_text].
    rewrite Hshown, str_of_Z_nat. by rewrite Hr.
  - unfold box, processing_finished. cbn [fst snd box_details].
    by destruct (failed_files r).
  - intros Hnever. unfold unvisited, n.
    rewrite (attempted_all is_cancelled 0 _ Hnever). lia.
  - done.
Qed.

End Finished.

(** ** Scanning the input folder *)

Section ScanFacts.
Context `{Platform}.

(** X16.  [scan_files] leaves the interface as it is when the input
    folder does not exist.  Otherwise, when it returns, it has replaced
    the table: every row is checked and pending, its file name passed the
    test for Excel files and so is no lock file, its new name is [rename]
    of its file name with the stripped text of the suffix box, and its
    password is the one the password book has for the file name when
    automatic matching is on, and empty otherwise. *)
Theorem scan_fills_table (g g' : ExcelProtectorGUI) (log : list log_entry)
    (w : World) :
  result (scan_files g w) = Return (g', log) ->
  (g' = g
   /\ exists err, trace (scan_files g w)
                  = [Ext (OsStat (input_folder_edit g)) (Some err);
                     Show (Warning (u "警告") (u "输入文件夹不存在！"))])
  \/ (Ext (OsListdir (input_folder_edit g)) None ∈ trace (scan_files g w)
      /\ password_dict g' = password_dict g
      /\ output_folder_edit g' = output_folder_edit g
      /\ Forall (fun row =>
                   checked row = true
                   /\ col_status row = u "待处理"
                   /\ is_excel_file (col_filename row) = true
                   /\ startswith (u "~$") (col_filename row) = false
                   /\ col_new_filename row
                      = rename (col_filename row) (strip (suffix_edit g))
                   /\ col_password row
                      = if auto_match_check g
                        then default [] (lookup_password g (col_filename row))
                        else [])
           (files_table g')).
Proof.
  revert w.
  set (good := fun row =>
                 checked row = true
                 /\ col_status row = u "待处理"
                 /\ is_excel_file (col_filename row) = true
                 /\ startswith (u "~$") (col_filename row) = false
                 /\ col_new_filename row
                    = rename (col_filename row) (strip (suffix_edit g))
                 /\ col_password row
                    = if auto_match_check g
                      then default [] (lookup_password g (col_filename row))
                      else []).
  assert (Hrows : forall entries,
             Forall good
               (files_table
                  (preview_new_filenames
                     (if negb (bool_decide (password_dict g = ∅))
                         && auto_match_check g
                      then
                        let '(g2, match_count) :=
                          match_passwords_from_book
                            (set_files_table g
                               (map pending_row (excel_files entries))) in
                        (g2, @nil log_entry)
                      else (set_files_table g
                              (map pending_row (excel_files entries)), [])).1))).
  { intros entries.
    assert (Hfiles : Forall (fun f => is_excel_file f = true)
                       (excel_files entries)).
    { apply Forall_forall. intros f Hf.
      unfold excel_files in Hf. by apply list_elem_of_filter in Hf as [? _]. }
    assert (Hlock : forall f, is_excel_file f = true ->
                              startswith (u "~$") f = false).
    { intros f Hf. unfold is_excel_file in Hf.
      apply andb_true_iff in Hf as [Hf _].
      apply andb_true_iff in Hf as [_ Hf]. by apply negb_true_iff in Hf. }
    destruct (negb (bool_decide (password_dict g = ∅)) && auto_match_check g)
      eqn:Hmatch.
    - apply andb_true_iff in Hmatch as [_ Hauto].
      unfold match_passwords_from_book, preview_new_filenames.
      cbn [fst snd files_table set_files_table password_dict suffix_edit].
      rewrite <- !list_fmap_compose. apply Forall_fmap.
      eapply Forall_impl; [exact Hfiles|]. intros f Hf.
      unfold compose, match_row, good, lookup_password. cbn. rewrite Hauto.
      destruct (password_dict g !! f) eqn:Hd; cbn; rewrite Hd; cbn; auto 10.
    - unfold preview_new_filenames.
      cbn [fst snd files_table set_files_table password_dict suffix_edit].
      rewrite <- !list_fmap_compose. apply Forall_fmap.
      eapply Forall_impl; [exact Hfiles|]. intros f Hf.
      unfold compose, good, lookup_password. cbn.
      split; [done|]. split; [done|]. split; [done|]. split; [auto|].
      split; [done|].
      destruct (auto_match_check g) eqn:Hauto; [|done].
      rewrite andb_true_r in Hmatch. apply negb_false_iff in Hmatch.
      apply bool_decide_eq_true in Hmatch. by rewrite Hmatch, lookup_empty. }
  change (holds (scan_files g)
            (fun tr r =>
               r = Return (g', log) ->
               (g' = g
                /\ exists err,
                     tr = [Ext (OsStat (input_folder_edit g)) (Some err);
                           Show (Warning (u "警告") (u "输入文件夹不存在！"))])
               \/ (Ext (OsListdir (input_folder_edit g)) None ∈ tr
                   /\ password_dict g' = password_dict g
                   /\ output_folder_edit g' = output_folder_edit g
                   /\ Forall good (files_table g')))).
  unfold scan_files. cbv zeta.
  repeat first
    [ lazymatch goal with
      | |- holds (match excel_files ?l with [] => _ | _ :: _ => _ end) _ =>
          destruct (excel_files l) eqn:?
      end
    | exec_step ].
  all: cbv beta iota; cbn [app raised negb fst snd].
  all: try (intros [=]; fail).
  all: intros [= <- <-].
  all: try (left; split; [reflexivity|by eexists]; fail).
  all: right.
  all: split; [by repeat constructor|].
  all: match goal with
       | Hl : excel_files ?l = _ |- _ =>
           pose proof (Hrows l) as Hgood; rewrite Hl in Hgood
       end.
  all: clear Hrows; revert Hgood.
  all: change (password_dict (set_files_table g ?x)) with (password_dict g);
    change (auto_match_check (set_files_table g ?x))
      with (auto_match_check g).
  all: destruct (negb (bool_decide (password_dict g = ∅))
                 && auto_match_check g);
    intros Hgood; (split; [reflexivity|]); (split; [reflexivity|]);
    exact Hgood.
Qed.

End ScanFacts.

(** ** The password for all files *)

(** X17.  A text typed into the box of the password for all files becomes
    the password, with the note 统一密码, of every checked row and of no
    other row, provided the text is not empty, the box is enabled and
    automatic matching is off; otherwise -- in particular when the box is
    emptied, or while automatic matching is on -- the table stays as it
    is. *)
Theorem unified_password_reaches_checked_rows (g : ExcelProtectorGUI)
    (single_password_enabled : bool) (text : str) :
  let g' := (on_unified_password_changed g single_password_enabled text).1 in
  let applies :=
    truthy text && single_password_enabled && negb (auto_match_check g) in
  (applies = false -> g' = g)
  /\ (applies = true ->
      Forall (fun fi => password fi = text /\ notes fi = u "统一密码")
        (get_selected_files g')
      /\ map filename (get_selected_files g')
         = map filename (get_selected_files g)
      /\ map new_filename (get_selected_files g')
         = map new_filename (get_selected_files g)
      /\ filter (fun row => checked row = false) (files_table g')
         = filter (fun row => checked row = false) (files_table g)).
Proof.
  intros g' applies. unfold g', applies, on_unified_password_changed.
  destruct (truthy text), single_password_enabled, (auto_match_check g);
    cbn [negb orb andb fst]; (split; [done|]); try done.
  intros _. unfold get_selected_files.
  cbn [files_table set_files_table].
  match goal with
  | |- context [map ?f0 (files_table g)] => set (f := f0)
  end.
  induction (files_table g) as [|row rows (IH1 & IH2 & IH3 & IH4)];
    [done|].
  cbn [map]. rewrite !filter_cons.
  assert (Hc : checked (f row) = checked row)
    by (unfold f; destruct (checked row) eqn:E; cbn; congruence).
  rewrite Hc.
  destruct (checked row) eqn:Hrow.
  - rewrite !decide_True by done. rewrite !decide_False by done.
    cbn [map].
    assert (Hf : f row = {| checked := true;
                            col_filename := col_filename row;
                            col_status := col_status row;
                            col_password := text;
                            col_notes := u "统一密码";
                            col_new_filename := col_new_filename row |})
      by (unfold f; by rewrite Hrow).
    rewrite Hf. cbn [filename new_filename password notes col_filename
                     col_new_filename col_password col_notes].
    split; [constructor; [done|exact IH1]|].
    split; [by rewrite IH2|]. split; [by rewrite IH3|]. exact IH4.
  - rewrite !decide_False by done. rewrite !decide_True by done.
    split; [exact IH1|]. split; [exact IH2|]. split; [exact IH3|].
    assert (Hf : f row = row) by (unfold f; by rewrite Hrow).
    by rewrite Hf, IH4.
Qed.

(** ** Concrete submissions *)

Ltac decided := refine (bool_decide_unpack _ _); vm_compute; exact I.


Lemma previewed_jobs_have_distinct_outputs_witness :
  let g := Runs.both_passwords in
  ((dot ∉ strip (suffix_edit g)) /\ (backslash ∉ strip (suffix_edit g))
   /\ (slash ∉ strip (suffix_edit g))
   /\ NoDup (map filename (get_selected_files g)))
  /\ NoDup (map new_filename
              (get_selected_files (preview_new_filenames g))).
Proof.
  intros g.
  assert (Hd : dot ∉ strip (suffix_edit g)) by absent.
  assert (Hb : backslash ∉ strip (suffix_edit g)) by absent.
  assert (Hs : slash ∉ strip (suffix_edit g)) by absent.
  assert (Hn : NoDup (map filename (get_selected_files g))) by decided.
  split; [done|].
  exact (proj2 (proj2 (proj2 (previewed_jobs_have_distinct_outputs g
                                Hd Hb Hs Hn)))).
Defined.

Lemma same_folder_without_suffix_overwrites_inputs_witness :
  let g := Cases.decrypt_in_place in
  let t := Sim.thread [ Sim.job "C.xlsx" "C.xlsx" "secret" ] false in
  let t' := {| input_path := u "C:\in"; output_path := u "C:\in";
               file_list := file_list t; is_encrypt := false |} in
  (strip (suffix_edit g) = []
   /\ result (start_processing (H := Sim.platform)
                (preview_new_filenames (on_same_folder_changed g true))
                Scenario.protected_workbook)
      = Return (Some t'))
  /\ Forall (onto_inputs (H := Sim.platform) t')
       (trace (run (H := Sim.platform) t' Sim.never_cancelled
                 Scenario.protected_workbook)).
Proof.
  intros g t t'.
  assert (Hs : strip (suffix_edit g) = []) by (vm_compute; reflexivity).
  assert (Hr : result (start_processing (H := Sim.platform)
                         (preview_new_filenames
                            (on_same_folder_changed g true))
                         Scenario.protected_workbook)
               = Return (Some t')) by (vm_compute; reflexivity).
  split; [done|].
  exact (proj2 (proj2 (same_folder_without_suffix_overwrites_inputs
                         (H := Sim.platform) g Scenario.protected_workbook
                         t' Hs Hr))
           Sim.never_cancelled Scenario.protected_workbook).
Defined.

Lemma loaded_book_fills_table_witness :
  let g := Cases.typed_by_hand in
  let g' := (load_password_book g true Book.padded).1.1 in
  (truthy (password_book_edit g) = true
   /\ auto_match_check g = true
   /\ first_clean Book.padded encodings
      = Some ("utf-8-sig"%string, Book.padded_rows))
  /\ (load_password_book g true Book.padded).2 = None
  /\ Forall2 (fun row row' =>
                col_filename row' = col_filename row
                /\ checked row' = checked row
                /\ col_status row' = col_status row
                /\ col_new_filename row' = col_new_filename row
                /\ match last_password (col_filename row) Book.padded_rows with
                   | Some pw => col_password row' = pw
                                /\ col_notes row' = u "来自密码本"
                   | None => True
                   end)
       (files_table g) (files_table g').
Proof.
  intros g g'.
  assert (Hp : truthy (password_book_edit g) = true) by reflexivity.
  assert (Ha : auto_match_check g = true) by reflexivity.
  assert (Hc : first_clean Book.padded encodings
               = Some ("utf-8-sig"%string, Book.padded_rows))
    by reflexivity.
  split; [done|].
  exact (loaded_book_fills_table g Book.padded "utf-8-sig"
           Book.padded_rows Hp Ha Hc).
Defined.

Lemma finished_box_counts_unvisited_as_failed_witness :
  let r := {| success_count := 1; total_count := 3; failed_files := [] |} in
  let tr := trace (run (H := Sim.platform) Runs.encrypt_three
                     (Sim.cancelled_after 0) Runs.three_workbooks) in
  let box := (processing_finished Runs.both_passwords r).1.2 in
  Emit (finished_signal r) ∈ tr
  /\ box_text box
     = u "处理完成！" ++ newline
       ++ u "总文件数：" ++ str_of_nat 3 ++ newline
       ++ u "成功处理：" ++ str_of_nat 1 ++ newline
       ++ u "失败：" ++ str_of_nat (0 + (3 - 1))
  /\ (box_details box = None <-> failed_files r = []).
Proof.
  intros r tr box.
  assert (Hin : Emit (finished_signal r) ∈ tr).
  { vm_compute. repeat constructor. }
  split; [exact Hin|].
  destruct (finished_box_counts_unvisited_as_failed (H := Sim.platform)
              Runs.both_passwords Runs.encrypt_three (Sim.cancelled_after 0)
              Runs.three_workbooks r Hin) as (Htext & Hdetails & _).
  split; [exact Htext|exact Hdetails].
Defined.

Lemma scan_fills_table_witness :
  let g := Runs.both_passwords in
  let r := scan_files (H := Sim.platform) g Scenario.two_workbooks in
  exists g' log,
    result r = Return (g', log)
    /\ map col_filename (files_table g') = [u "A.xlsx"; u "B.xlsx"]
    /\ Forall (fun row =>
                 checked row = true
                 /\ col_status row = u "待处理"
                 /\ is_excel_file (H := Sim.platform) (col_filename row) = true
                 /\ startswith (u "~$") (col_filename row) = false
                 /\ col_new_filename row
                    = rename (col_filename row) (strip (suffix_edit g))
                 /\ col_password row
                    = if auto_match_check g
                      then default [] (lookup_password g (col_filename row))
                      else [])
         (files_table g').
Proof.
  intros g r.
  assert (Hret : exists g' log,
             result r = Return (g', log)
             /\ map col_filename (files_table g') = [u "A.xlsx"; u "B.xlsx"]
             /\ g' <> g).
  { vm_compute. eexists _, _. split; [reflexivity|]. split; [reflexivity|].
    discriminate. }
  destruct Hret as (g' & log & Hr & Hnames & Hne).
  exists g', log. split; [exact Hr|]. split; [exact Hnames|].
  destruct (scan_fills_table (H := Sim.platform) g g' log
              Scenario.two_workbooks Hr) as [[Heq _]|(_ & _ & _ & Hrows)].
  - destruct (Hne Heq).
  - exact Hrows.
Defined.

(** ** A workbook that cannot be opened *)

Section FailedOpen.
Context `{Platform}.

(** X18.  When the workbook of an entry cannot be opened, in either mode,
    the entry is reported as failed and nothing was touched for it: no
    password set, nothing saved, nothing closed, no file removed -- an
    output file that exists stays. *)
Theorem failed_open_touches_nothing (t : ProcessingThread) (fi : file_info)
    (w : World) :
  Exists failed_open (trace (process_file t fi w)) ->
  Forall (fun ev => ~ touches ev) (trace (process_file t fi w))
  /\ exists status note,
       result (process_file t fi w) = Return (false, status, note).
Proof.
  revert w.
  change (holds (process_file t fi)
            (fun tr r =>
               Exists failed_open tr ->
               Forall (fun ev => ~ touches ev) tr
               /\ exists status note, r = Return (false, status, note))).
  unfold process_file, encrypt_file, decrypt_file. cbv zeta.
  destruct (is_encrypt t).
  all: exec.
  all: intros Hex.
  all: repeat (apply Exists_cons in Hex as [Hex|Hex]; [try (destruct Hex; fail)|]).
  all: try (by apply Exists_nil in Hex).
  all: split; [repeat constructor; by intros []|].
  all: unfold encrypt_error, open_error, wrong_password, open_failure.
  all: destruct (mentions_password _); by eexists _, _.
Qed.

End FailedOpen.

(** ** The signals of a run *)

Lemma signals_app tr1 tr2 : signals (tr1 ++ tr2) = signals tr1 ++ signals tr2.
Proof.
  induction tr1 as [|[c0 err|s0|d0] tr1 IH]; cbn; by rewrite ?IH.
Qed.

Lemma signals_ext tr : Forall is_ext tr -> signals tr = [].
Proof.
  induction 1 as [|ev tr Hev _ IH]; [done|].
  by destruct ev as [c0 err|s0|d0].
Qed.

Section RunSignals.
Context `{Platform}.

(** The loop: three signals per entry visited, and the log line of the
    cancellation when it stopped before the end of the list. *)
Lemma process_files_signals op c total files :
  (forall fi, trace_all is_ext (op fi)) ->
  forall i s f w,
    let n := attempted c i (length files) in
    signals (trace (process_files op c total i files s f w))
    = visit_signals total i (attempt_each op (take n files) w)
      ++ (if n <? length files
          then [log_signal (u "处理已取消") (u "warning")]
          else []).
Proof.
  intros Hop.
  induction files as [|fi rest IH]; intros i s f w; cbn; [done|].
  destruct (c i); cbn; [done|].
  rewrite signals_app, (signals_ext _ (Hop fi w)). cbn [app].
  change (S (attempted c (S i) (length rest)) <? S (length rest))
    with (attempted c (S i) (length rest) <? length rest).
  unfold status_of_outcome at 1, log_of_outcome at 1. cbn [fst snd].
  destruct (result (op fi w)) as [[[[] status] note]|e]; cbn;
    by rewrite IH.
Qed.

Lemma start_excel_signals t w :
  signals (trace (start_excel t w))
  = match result (start_excel t w) with
    | Return _ => [progress_signal 0 (length (file_list t))]
    | Raise _ => []
    end.
Proof.
  revert w.
  change (holds (start_excel t)
            (fun tr r =>
               signals tr
               = match r with
                 | Return _ => [progress_signal 0 (length (file_list t))]
                 | Raise _ => []
                 end)).
  assert (Hclean : forall w, signals (trace (clean_temp_files t w)) = []).
  { intros w. apply signals_ext.
    eapply Forall_impl; [apply clean_temp_files_calls|].
    by intros [[] err|s0|d0]. }
  unfold start_excel. cbn [for_each excel_settings].
  repeat first
    [ lazymatch goal with
      | |- holds (clean_temp_files t) ?Q =>
          intros w; specialize (Hclean w);
          destruct (result (clean_temp_files t w)) as [[]|e]
      end
    | exec_step ].
  all: cbv beta iota; cbn [app raised fst snd signals].
  all: try reflexivity.
  all: by rewrite ?signals_app, Hclean.
Qed.

(** The signals of a run whose statements before the loop raise
    nothing. *)
Lemma run_signals_started t c w :
  result (start_excel t w) = Return tt ->
  let total := length (file_list t) in
  let n := attempted c 0 total in
  let outs := attempt_each (process_file t) (take n (file_list t))
                (final (start_excel t w)) in
  signals (trace (run t c w))
  = progress_signal 0 total
    :: visit_signals total 0 outs
    ++ (if n <? total then [log_signal (u "处理已取消") (u "warning")] else [])
    ++ [progress_signal total total;
        finished_signal {| success_count := successes outs;
                           total_count := total;
                           failed_files := omap failure_entry outs |}].
Proof.
  intros Hstart total n outs.
  destruct (run_trace_started t c w Hstart) as (counted & Hres & ->).
  cbv zeta in Hres |- *.
  destruct (process_files_spec (process_file t) c (length (file_list t))
              (file_list t) 0 0 [] (final (start_excel t w))) as [Hspec _].
  cbv zeta in Hspec. rewrite Hspec in Hres. injection Hres as <-.
  match goal with
  | |- context [trace (try_pass (do_call ExcelQuit) ?w1)] =>
      destruct (quit_trace w1) as [errq ->];
      destruct (uninitialize_trace
                  (final (try_pass (do_call ExcelQuit) w1))) as [erru ->]
  end.
  rewrite !signals_app, start_excel_signals, Hstart.
  rewrite (process_files_signals _ _ _ _ (process_file_ext t)).
  cbn [app signals]. by rewrite ?app_nil_r, <- app_assoc.
Qed.

(** X19.  What the interface receives from a run, in full.  When the
    statements before the loop raise nothing: the progress 0 of total;
    then for each entry visited, in order, its progress, its
    [file_status_signal] with its own name and outcome, and its log line;
    then the log line of the cancellation when the loop stopped before the
    end of the list; then the progress total of total -- also after a
    cancellation -- and the result.  When they raise: two log lines, no
    progress and no result. *)
Theorem run_signals (t : ProcessingThread) (is_cancelled : nat -> bool)
    (w : World) :
  let total := length (file_list t) in
  let n := attempted is_cancelled 0 total in
  let outs := attempt_each (process_file t) (take n (file_list t))
                (final (start_excel t w)) in
  signals (trace (run t is_cancelled w))
  = match result (start_excel t w) with
    | Return _ =>
        progress_signal 0 total
        :: visit_signals total 0 outs
        ++ (if n <? total
            then [log_signal (u "处理已取消") (u "warning")]
            else [])
        ++ [progress_signal total total;
            finished_signal {| success_count := successes outs;
                               total_count := total;
                               failed_files := omap failure_entry outs |}]
    | Raise e =>
        [log_signal (u "线程错误: " ++ exn_msg e) (u "error");
         log_signal (format_exc e) (u "error")]
    end.
Proof.
  intros total n outs.
  destruct (result (start_excel t w)) as [[]|e] eqn:Hstart.
  - by apply run_signals_started.
  - rewrite (run_trace_fault t is_cancelled w e Hstart).
    destruct (uninitialize_trace (final (start_excel t w))) as [erru ->].
    rewrite !signals_app, start_excel_signals, Hstart. reflexivity.
Qed.

End RunSignals.

(** ** The table after a run *)

Lemma no_row_named rows f (change : table_row -> table_row) :
  f ∉ map col_filename rows ->
  map (fun row => if bool_decide (col_filename row = f)
                  then change row else row) rows
  = rows.
Proof.
  induction rows as [|row rows IH]; [done|].
  intros Hnotin. apply not_elem_of_cons in Hnotin as [Hne Hnotin].
  cbn [map]. rewrite bool_decide_eq_false_2 by done. by rewrite IH.
Qed.

Lemma update_file_status_rows_unique rows f status notes :
  NoDup (map col_filename rows) ->
  update_file_status_rows rows f status notes
  = map (fun row =>
           if bool_decide (col_filename row = f)
           then row_with_status row (file_status_signal f status true notes)
           else row) rows.
Proof.
  induction rows as [|row rows IH]; [done|].
  intros Hnodup. apply NoDup_cons in Hnodup as [Hnotin Hnodup].
  cbn [update_file_status_rows map].
  destruct (bool_decide (col_filename row = f)) eqn:Hrow.
  - apply bool_decide_eq_true in Hrow. subst f.
    by rewrite no_row_named.
  - by rewrite IH.
Qed.

Lemma selected_names g :
  map filename (get_selected_files g)
  = map col_filename (filter (fun row => checked row = true) (files_table g)).
Proof.
  unfold get_selected_files.
  induction (filter (fun row => checked row = true) (files_table g))
    as [|row rows IH]; [done|].
  cbn [map]. by rewrite IH.
Qed.

(** The checked rows of a table whose rows have different names have
    different names. *)
Lemma selected_names_NoDup g :
  NoDup (map col_filename (files_table g)) ->
  NoDup (map filename (get_selected_files g)).
Proof.
  intros Hrows. rewrite selected_names.
  eapply sublist_NoDup; [exact Hrows|].
  apply fmap_sublist, sublist_filter.
Qed.

Section TableAfterRun.
Context `{Platform}.

Lemma outcome_for_absent name outs :
  name ∉ map (fun a => filename a.1) outs -> outcome_for name outs = None.
Proof.
  induction outs as [|a outs IH]; [done|].
  intros Hnotin. apply not_elem_of_cons in Hnotin as [Hne Hnotin].
  unfold outcome_for in *. cbn [find].
  rewrite bool_decide_eq_false_2 by done. by apply IH.
Qed.

Lemma status_of_outcome_name a :
  exists status ok notes,
    status_of_outcome a = file_status_signal (filename a.1) status ok notes.
Proof.
  unfold status_of_outcome.
  destruct (snd a) as [[[ok status] note]|e]; by eexists _, _, _.
Qed.

Lemma row_with_status_flag row f status ok ok' notes :
  row_with_status row (file_status_signal f status ok notes)
  = row_with_status row (file_status_signal f status ok' notes).
Proof. done. Qed.

(** The statuses of entries with different names, written to a table
    whose rows have different names. *)
Lemma receive_statuses outs :
  NoDup (map (fun a => filename a.1) outs) ->
  forall rows,
    NoDup (map col_filename rows) ->
    fold_left (fun rows a =>
                 match status_of_outcome a with
                 | file_status_signal f status _ notes =>
                     update_file_status_rows rows f status notes
                 | _ => rows
                 end) outs rows
    = map (fun row =>
             match outcome_for (col_filename row) outs with
             | Some a => row_with_status row (status_of_outcome a)
             | None => row
             end) rows.
Proof.
  induction outs as [|a outs IH]; intros Hnames rows Hrows.
  { cbn. by rewrite map_id. }
  apply NoDup_cons in Hnames as [Hnotin Hnames].
  cbn [fold_left].
  destruct (status_of_outcome_name a) as (status & ok & notes & Ha).
  rewrite Ha. rewrite (update_file_status_rows_unique _ _ _ _ Hrows).
  rewrite IH; [|done|].
  2:{ rewrite <- list_fmap_compose.
      replace (map (col_filename ∘ _) rows) with (map col_filename rows);
        [done|].
      apply list_fmap_ext. intros i row _. cbn.
      by destruct (bool_decide (col_filename row = filename a.1)). }
  rewrite <- list_fmap_compose. apply list_fmap_ext. intros i row _.
  unfold compose, outcome_for. cbn [find].
  rewrite (bool_decide_ext (filename a.1 = col_filename row)
             (col_filename row = filename a.1)) by done.
  destruct (bool_decide (col_filename row = filename a.1)) eqn:Hrow.
  - apply bool_decide_eq_true in Hrow.
    cbn [row_with_status col_filename].
    pose proof (outcome_for_absent _ _ Hnotin) as Hnone.
    unfold outcome_for in Hnone. rewrite <- Hrow in Hnone.
    rewrite Hnone, Ha. done.
  - done.
Qed.

Lemma receive_table g s :
  files_table (receive g s)
  = match s with
    | file_status_signal f status _ notes =>
        update_file_status_rows (files_table g) f status notes
    | _ => files_table g
    end.
Proof. by destruct s. Qed.

Lemma receive_visit_signals total outs :
  forall i g,
    files_table (fold_left receive (visit_signals total i outs) g)
    = fold_left (fun rows a =>
                   match status_of_outcome a with
                   | file_status_signal f status _ notes =>
                       update_file_status_rows rows f status notes
                   | _ => rows
                   end) outs (files_table g).
Proof.
  induction outs as [|a outs IH]; intros i g; [done|].
  cbn [visit_signals fold_left]. rewrite IH.
  destruct (status_of_outcome_name a) as (status & ok & notes & ->).
  f_equal. unfold log_of_outcome.
  by destruct (snd a) as [[[[] st] nt]|e].
Qed.

(** X20.  The table after a run whose statements before the loop raised
    nothing, when the entries of the thread are the checked rows of a
    table whose rows have different file names and the signals are
    received in order: the row of every entry visited shows the state of
    that entry's own outcome, and its note unless that is empty; every
    other row, and every other column, is as before; and the interface is
    no longer processing. *)
Theorem table_after_run (g : ExcelProtectorGUI) (t : ProcessingThread)
    (is_cancelled : nat -> bool) (w : World) :
  NoDup (map col_filename (files_table g)) ->
  file_list t = get_selected_files g ->
  result (start_excel t w) = Return tt ->
  let n := attempted is_cancelled 0 (length (file_list t)) in
  let outs := attempt_each (process_file t) (take n (file_list t))
                (final (start_excel t w)) in
  let g' := fold_left receive (signals (trace (run t is_cancelled w))) g in
  is_processing g' = false
  /\ files_table g'
     = map (fun row =>
              match outcome_for (col_filename row) outs with
              | Some a => row_with_status row (status_of_outcome a)
              | None => row
              end) (files_table g).
Proof.
  intros Hrows Hjobs Hstart n outs g'. unfold g'.
  rewrite (run_signals_started t is_cancelled w Hstart).
  cbv zeta. fold n. fold outs.
  cbn [fold_left receive].
  rewrite !fold_left_app. cbn [fold_left].
  split; [done|].
  assert (Hcancel : forall g0 (b : bool),
             files_table
               (fold_left receive
                  (if b then [log_signal (u "处理已取消") (u "warning")]
                   else []) g0)
             = files_table g0) by (by intros g0 []).
  cbn [receive].
  change (files_table (processing_finished ?x ?r).1.1)
    with (files_table x).
  rewrite Hcancel, receive_visit_signals.
  apply receive_statuses; [|exact Hrows].
  assert (Hnames : map (fun a => filename a.1) outs
                   = map filename (take n (file_list t))).
  { unfold outs.
    rewrite <- (attempt_each_files (process_file t) (take n (file_list t))
                  (final (start_excel t w))) at 2.
    by rewrite <- list_fmap_compose. }
  rewrite Hnames, Hjobs, fmap_take.
  eapply sublist_NoDup; [|apply sublist_take].
  by apply selected_names_NoDup.
Qed.

End TableAfterRun.

(** ** Concrete runs *)

Lemma failed_open_touches_nothing_witness :
  let t := Scenario.decrypt_with_wrong_password in
  let r := process_file (H := Sim.platform) t (Sim.job "C.xlsx" "C.xlsx" "wrong")
             Scenario.protected_workbook in
  Exists failed_open (trace r)
  /\ Forall (fun ev => ~ touches ev) (trace r)
  /\ exists status note, result r = Return (false, status, note).
Proof.
  intros t r.
  assert (Hex : Exists failed_open (trace r)).
  { vm_compute. repeat first [left; exact I | right]. }
  split; [exact Hex|].
  exact (failed_open_touches_nothing (H := Sim.platform) t
           (Sim.job "C.xlsx" "C.xlsx" "wrong") Scenario.protected_workbook
           Hex).
Defined.

Lemma table_after_run_witness :
  let g := preview_new_filenames Runs.both_passwords in
  let t := new_thread (H := Sim.platform) (input_folder_edit g)
             (output_folder_edit g) (get_selected_files g)
             (encrypt_radio g) in
  let w := Scenario.two_workbooks in
  let g' := fold_left receive
              (signals (trace (run (H := Sim.platform) t
                                 Sim.never_cancelled w))) g in
  (NoDup (map col_filename (files_table g))
   /\ file_list t = get_selected_files g
   /\ result (start_excel (H := Sim.platform) t w) = Return tt)
  /\ is_processing g' = false
  /\ files_table g'
     = map (fun row =>
              match outcome_for (col_filename row)
                      (attempt_each (H := Sim.platform)
                         (process_file (H := Sim.platform) t)
                         (take (attempted Sim.never_cancelled 0
                                  (length (file_list t))) (file_list t))
                         (final (start_excel (H := Sim.platform) t w))) with
              | Some a => row_with_status row (status_of_outcome a)
              | None => row
              end) (files_table g).
Proof.
  intros g t w g'.
  assert (Hn : NoDup (map col_filename (files_table g))) by decided.
  assert (Hj : file_list t = get_selected_files g) by reflexivity.
  assert (Hs : result (start_excel (H := Sim.platform) t w) = Return tt)
    by (vm_compute; reflexivity).
  split; [done|].
  exact (table_after_run (H := Sim.platform) g t Sim.never_cancelled w
           Hn Hj Hs).
Defined.

(** The submission of [Runs.both_passwords] as the table shows it in the
    end: both rows encrypted. *)
Example table_after_encrypting_both :
  let g := preview_new_filenames Runs.both_passwords in
  let t := new_thread (H := Sim.platform) (input_folder_edit g)
             (output_folder_edit g) (get_selected_files g)
             (encrypt_radio g) in
  let g' := fold_left receive
              (signals (trace (run (H := Sim.platform) t
                                 Sim.never_cancelled
                                 Scenario.two_workbooks))) g in
  map col_status (files_table g') = [u "加密成功"; u "加密成功"]
  /\ map col_new_filename (files_table g') = [u "A_enc.xlsx"; u "B_enc.xlsx"].
Proof. split; vm_compute; reflexivity. Qed.

(** ** A submission, from the button to the end of the run *)

Section Submit.
Context `{Platform}.

(** X21.  [start_processing] itself shows dialogs, tests the input folder,
    creates the output folder and asks its question, nothing else: no
    call to Excel, no removal, no signal.  A submission is that, followed
    by the run of the thread when one was created, and by nothing when
    none was -- whatever the reason: a processing going on, no input
    folder, a selection refused, or the answer no. *)
Theorem submission_is_start_then_run (g : ExcelProtectorGUI)
    (is_cancelled : nat -> bool) (w : World) :
  Forall (submission_event g) (trace (start_processing g w))
  /\ (forall t,
        result (start_processing g w) = Return (Some t) ->
        trace (submit g is_cancelled w)
        = trace (start_processing g w)
          ++ trace (run t is_cancelled (final (start_processing g w))))
  /\ ((forall t, result (start_processing g w) <> Return (Some t)) ->
      trace (submit g is_cancelled w) = trace (start_processing g w)).
Proof.
  split; [|split].
  - revert w. change (trace_all (submission_event g) (start_processing g)).
    unfold start_processing, validate_selection. cbv zeta.
    destruct (is_processing g); [by trace_tac|].
    destruct (get_selected_files g) as [|fi0 files0].
    { by trace_tac. }
    destruct (truthy (output_folder_edit g)); cbn [negb].
    2:{ by trace_tac. }
    destruct (encrypt_radio g).
    + destruct (map filename
                  (filter (fun fi => truthy (password fi) = false)
                     (fi0 :: files0))); by trace_tac.
    + by trace_tac.
  - intros t Hres. unfold submit. rewrite bind_trace, Hres. reflexivity.
  - intros Hnone. unfold submit. rewrite bind_trace.
    destruct (result (start_processing g w)) as [[t|]|e] eqn:Hres.
    + by destruct (Hnone t).
    + cbn. by rewrite app_nil_r.
    + by rewrite app_nil_r.
Qed.

End Submit.

(** ** Lock files *)

Section LockFileFacts.
Context `{Platform}.

Lemma remove_lock_files t names :
  forall w,
    let r := for_each names
               (fun f =>
                  if startswith (u "~$") f
                  then try_pass (do_call (OsRemove (path_join (input_path t) f)))
                  else ret tt) w in
    result r = Return tt /\ Forall (lock_removal t) (trace r).
Proof.
  induction names as [|f names IH]; intros w; cbn [for_each].
  { split; [done|constructor]. }
  cbv zeta. rewrite bind_result, bind_trace.
  assert (Hbody : forall w0,
             let b := (if startswith (u "~$") f
                       then try_pass
                              (do_call (OsRemove (path_join (input_path t) f)))
                       else ret tt) w0 in
             result b = Return tt /\ Forall (lock_removal t) (trace b)).
  { intros w0. destruct (startswith (u "~$") f) eqn:Hf; cbv zeta.
    - split; [apply try_pass_returns|].
      revert w0.
      change (trace_all (lock_removal t)
                (try_pass
                   (do_call (OsRemove (path_join (input_path t) f))))).
      trace_tac. by exists f.
    - split; [done|constructor]. }
  destruct (Hbody w) as [-> Hhead]. cbv beta iota.
  destruct (IH (final ((if startswith (u "~$") f
                        then try_pass
                               (do_call
                                  (OsRemove (path_join (input_path t) f)))
                        else ret tt) w))) as [-> Htail].
  split; [done|]. by apply Forall_app.
Qed.

(** X22.  [clean_temp_files] raises only when the input folder cannot be
    listed, and has then done nothing else.  Once the folder is listed it
    returns, whatever the removals do: a lock file that cannot be removed
    never stops a run.  Apart from the listing it calls nothing but the
    removal of entries of the input folder whose name starts with [~$]. *)
Theorem clean_temp_files_outcomes (t : ProcessingThread) (w : World) :
  match result (clean_temp_files t w) with
  | Return _ =>
      exists removals,
        trace (clean_temp_files t w)
        = Ext (OsListdir (input_path t)) None :: removals
        /\ Forall (lock_removal t) removals
  | Raise e =>
      trace (clean_temp_files t w) = [Ext (OsListdir (input_path t)) (Some e)]
  end.
Proof.
  revert w.
  change (holds (clean_temp_files t)
            (fun tr r =>
               match r with
               | Return _ =>
                   exists removals,
                     tr = Ext (OsListdir (input_path t)) None :: removals
                     /\ Forall (lock_removal t) removals
               | Raise e => tr = [Ext (OsListdir (input_path t)) (Some e)]
               end)).
  unfold clean_temp_files. apply holds_bind.
  apply (holds_do_call (OsListdir (input_path t))).
  intros [names|e]; cbv beta iota; cbn [raised app]; [|done].
  intros w1. destruct (remove_lock_files t names w1) as [Hres Hrem].
  cbv zeta in Hres, Hrem. rewrite Hres. by eexists.
Qed.

End LockFileFacts.
